(** * Segment-wise training loop of [train.py]: a shallow embedding

    The development follows [Trainer] in [src/train.py]:
    - [Py]       : the few Python/NumPy primitives the trainer relies on
                   (exceptions, [range], indexing, slicing, [np.clip]);
    - [Cursor]   : the active-range cursor [i_first] of [Trainer.train]
                   and the clipped lengths [seg_T_ys];
    - [Tensor]   : tensors of shape (batch, channels, time), sum-reduced
                   criterions and loss vectors;
    - [Eff]      : computations that raise, change the model's state
                   and log what they do to the collaborators;
    - [Loss]     : [Trainer._calc_loss];
    - [Collab]   : calls to the model, the optimizer, the scheduler and
                   the writer;
    - [Valid]    : [Trainer.validate];
    - [Train]    : the window loop, the batch loop and the epoch loop of
                   [Trainer.train];
    - [Spec]     : the vocabulary of the statements;
    - [Examples] : concrete trainers and batches;
    - [LossSpec] : closed forms of the loss vector;
    - [TrainSpec]: vocabulary for the window loop and the epochs;
    - [Test]     : [Trainer.test];
    - [Device]   : [Trainer.__init_device].
    The properties follow, component by component.

    Lengths and time positions are integers ([Z]); loss values are
    modelled in exact rational arithmetic ([Q]), so rounding is not
    part of the model.  A floating point division by zero yields inf or
    nan without raising: the model does not raise either, but the
    rational it returns there is not the value of the code, and the
    statements that give the value of a loss are made where no divisor
    is zero. *)

From Equations Require Import Equations.
From Stdlib Require Import List ZArith QArith Qabs Lia Bool Arith.
Import ListNotations.

Close Scope Q_scope.
Set Implicit Arguments.

(* ===================================================================== *)
(** ** Python and NumPy primitives                                        *)
(* ===================================================================== *)

Module Py.

(** The exceptions that the modelled code can raise. *)
Inductive exn : Type :=
| IndexError          (* sequence index out of range *)
| ValueError          (* range() with a zero step *)
| AttributeError      (* attribute access on None *)
| ZeroDivisionError   (* Python-level division by zero *)
| RuntimeError        (* raised by torch: shape mismatch, model failure,
                         backward() on a tensor without gradient *)
| KeyError.           (* a missing key, as raised by a scheduler built to
                         resume from param groups without 'initial_lr' *)

Inductive result (A : Type) : Type :=
| Ok (a : A)
| Raise (e : exn).
Arguments Ok {A} a.
Arguments Raise {A} e.

Definition is_ok {A} (r : result A) : bool :=
  match r with Ok _ => true | Raise _ => false end.

(** [xs[i]] for a non-negative index. *)
Definition index {A} (xs : list A) (i : nat) : result A :=
  match nth_error xs i with
  | Some x => Ok x
  | None => Raise IndexError
  end.

(** [range(0, stop, step)]: the number of elements is
    [ceil(stop / step)] for a positive step, none for a negative step
    (the start is 0 and [stop] is a tensor extent, so never negative),
    and a zero step raises. *)
Definition range_len (stop step : Z) : nat :=
  Z.to_nat ((stop + step - 1) / step).

Definition range0 (stop step : Z) : result (list Z) :=
  if (step =? 0)%Z then Raise ValueError
  else if (step <? 0)%Z then Ok []
  else Ok (map (fun k => (Z.of_nat k * step)%Z) (seq 0 (range_len stop step))).

(** Extent of the slice [a : b] of an axis of [n] elements, for
    non-negative [a] and [b] (Python clamps both ends to the axis). *)
Definition slice_start (n : nat) (a : Z) : nat :=
  Nat.min n (Z.to_nat a).

Definition slice_extent (n : nat) (a b : Z) : nat :=
  Nat.min n (Z.to_nat b) - slice_start n a.

(** Extent of the slice [: T] of an axis of [n] elements; a negative
    [T] counts from the end of the axis. *)
Definition slice_to (n : nat) (T : Z) : nat :=
  if (T <? 0)%Z then Z.to_nat (Z.of_nat n + T)
  else Nat.min n (Z.to_nat T).

(** [np.clip(a, a_min=None, a_max=hi)]: only the upper bound is applied. *)
Definition np_clip_max (hi : Z) (a : list Z) : list Z :=
  map (fun v => Z.min v hi) a.

(** [a - t] on an integer array. *)
Definition np_sub (a : list Z) (t : Z) : list Z :=
  map (fun v => (v - t)%Z) a.

End Py.
Import Py.

(* ===================================================================== *)
(** ** The active-range cursor and the clipped lengths                    *)
(* ===================================================================== *)

Module Cursor.

(** [while i_first < y.shape[0] and t >= T_ys[i_first]: i_first += 1]
    (train.py, lines 183-184).  [B] is [y.shape[0]]. *)
Equations? advance_i_first (B : nat) (T_ys : list Z) (t : Z) (i_first : nat)
  : result nat by wf (B - i_first) lt :=
  advance_i_first B T_ys t i_first with lt_dec i_first B := {
    | right _ := Ok i_first
    | left _ with nth_error T_ys i_first := {
        | None := Raise IndexError
        | Some T with (t >=? T)%Z := {
            | true := advance_i_first B T_ys t (S i_first)
            | false := Ok i_first } } }.
Proof. lia. Qed.

(** [seg_T_ys = np.clip(T_ys[i_first:] - t, a_min=None, a_max=hp.l_target)]
    (train.py, lines 189-190). *)
Definition seg_T_ys (T_ys : list Z) (i_first : nat) (t l_target : Z) : list Z :=
  np_clip_max l_target (np_sub (skipn i_first T_ys) t).

(** Lengths in non-decreasing order, shortest sample first. *)
Fixpoint ascending (T_ys : list Z) : bool :=
  match T_ys with
  | [] => true
  | a :: rest =>
      match rest with
      | [] => true
      | b :: _ => (a <=? b)%Z && ascending rest
      end
  end.

(** Lengths in non-increasing order, longest sample first. *)
Fixpoint descending (T_ys : list Z) : bool :=
  match T_ys with
  | [] => true
  | a :: rest =>
      match rest with
      | [] => true
      | b :: _ => (b <=? a)%Z && descending rest
      end
  end.

(** Every sample in front of the cursor is exhausted at [t]. *)
Definition front_done (T_ys : list Z) (t : Z) (i_first : nat) : Prop :=
  forall i T, (i < i_first)%nat -> nth_error T_ys i = Some T -> (T <= t)%Z.

(** Every sample from the cursor on still has signal after [t]. *)
Definition back_live (T_ys : list Z) (t : Z) (i_first : nat) : Prop :=
  forall i T, (i_first <= i)%nat -> nth_error T_ys i = Some T -> (t < T)%Z.

End Cursor.
Import Cursor.

(* ===================================================================== *)
(** ** Tensors of shape (batch, channels, time)                           *)
(* ===================================================================== *)

Module Tensor.

(** A [B x C x T] tensor: its shape and its entries.  The shape is kept
    apart from the entries, as [y.shape] is meaningful for a tensor
    with no sample left. *)
Record tensor : Type := mkTensor {
  dimB : nat;
  dimC : nat;
  dimT : nat;
  entry : nat -> nat -> nat -> Q
}.

Definition same_shape (a b : tensor) : bool :=
  (dimB a =? dimB b)%nat && (dimC a =? dimC b)%nat && (dimT a =? dimT b)%nat.

(** [x[i_first:, :, a:b]] for non-negative [a], [b]. *)
Definition narrow (x : tensor) (i_first : nat) (a b : Z) : tensor :=
  mkTensor (dimB x - i_first) (dimC x) (slice_extent (dimT x) a b)
    (fun smp c s => entry x (smp + i_first) c (s + slice_start (dimT x) a)).

(** [x[..., :n]] for a non-negative extent [n]. *)
Definition take_time (x : tensor) (n : nat) : tensor :=
  mkTensor (dimB x) (dimC x) (Nat.min (dimT x) n) (entry x).

(** [x[..., :T]] for an integer [T] taken from a length array; a
    negative [T] drops the last [-T] positions. *)
Definition take_upto (x : tensor) (T : Z) : tensor :=
  mkTensor (dimB x) (dimC x) (slice_to (dimT x) T) (entry x).

(** The [b]-th element met when iterating over the first axis, a
    [C x T] tensor; it is kept as a batch of one sample, which a
    sum reduction cannot tell from the two-dimensional item. *)
Definition item (x : tensor) (b : nat) : tensor :=
  mkTensor 1 (dimC x) (dimT x) (fun _ c s => entry x b c s).

(** [sum_{k < n} f k], added in index order. *)
Fixpoint sum_to (n : nat) (f : nat -> Q) : Q :=
  match n with
  | O => 0%Q
  | S n' => (sum_to n' f + f n')%Q
  end.

(** A criterion [nn.<Name>(reduction='sum')]: an elementwise loss
    (|a - b| for L1Loss, (a - b)^2 for MSELoss, ...) summed over all
    entries. *)
Record criterion : Type := mkCriterion {
  pointwise : Q -> Q -> Q
}.

Definition reduce_sum (c : criterion) (input target : tensor) : Q :=
  sum_to (dimB input) (fun b =>
    sum_to (dimC input) (fun ch =>
      sum_to (dimT input) (fun s =>
        pointwise c (entry input b ch s) (entry target b ch s)))).

(** [criterion(input, target)].  Shapes that differ are rejected
    (torch's broadcasting of size-one axes is not modelled). *)
Definition apply_criterion (c : criterion) (input target : tensor) : result Q :=
  if same_shape input target then Ok (reduce_sum c input target)
  else Raise RuntimeError.

Definition L1Loss : criterion := mkCriterion (fun a b => Qabs (a - b)).
Definition MSELoss : criterion := mkCriterion (fun a b => ((a - b) * (a - b))%Q).

(** Vectors with one entry per criterion. *)
Definition zeros (n : nat) : list Q := repeat 0%Q n.

(** [v[i] = f(v[i])], for [i] within the vector. *)
Fixpoint upd_at (v : list Q) (i : nat) (f : Q -> Q) : list Q :=
  match v, i with
  | [], _ => []
  | a :: v', O => f a :: v'
  | a :: v', S i' => a :: upd_at v' i' f
  end.

(** [a + b], entry by entry (both have one entry per criterion). *)
Fixpoint vadd (a b : list Q) : list Q :=
  match a, b with
  | x :: a', y :: b' => (x + y)%Q :: vadd a' b'
  | _, _ => []
  end.

(** [v / n] for an integer [n]: a floating point division, which does
    not raise; the value is the one of the code when [n] is not zero. *)
Definition vdiv (v : list Q) (n : Z) : list Q :=
  map (fun q => (q / inject_Z n)%Q) v.

(** [v.sum()]. *)
Definition vsum (v : list Q) : Q := fold_left Qplus v 0%Q.

(** [enumerate(xs)]. *)
Definition enumerate {A} (xs : list A) : list (nat * A) :=
  combine (seq 0 (length xs)) xs.

End Tensor.
Import Tensor.

(* ===================================================================== *)
(** ** Effects: exceptions, the model's state and an event log            *)
(* ===================================================================== *)

Module Eff.

Inductive mode : Type := TrainMode | EvalMode.

Inductive tag : Type :=
| LossTrain | LossTrainOf (i : nat)
| LossValid | LossValidOf (i : nat).

(** What the trainer does to its collaborators, in program order. *)
Inductive event : Type :=
| EvCriterion (i : nat)              (* self.criterions[i](...) *)
| EvZeroGrad                         (* optimizer.zero_grad() *)
| EvForward (md : mode) (batch : nat) (* self.model(x) in mode md, x.shape[0] = batch *)
| EvBackward                         (* loss_t_sum.backward() *)
| EvOptStep                          (* optimizer.step() *)
| EvSchedStep (pos : Q)              (* scheduler.step(pos) *)
| EvPostfix (v : list Q)             (* pbar.set_postfix_str(arr2str(v)) *)
| EvAddScalar (tg : tag) (v : Q) (epoch : Z)
| EvWriteOne (epoch : Z) (with_sample : bool)
| EvSave (epoch : Z)                 (* torch.save(...) *)
| EvWriterClose
| EvSchedInit (last_epoch : Z)       (* CosineAnnealingWarmRestarts(optimizer, last_epoch, ...) *)
| EvWriterOpen (purge_step : option Z). (* self.writer = CustomWriter(...) *)

(** The mutable state: the parameters of model and optimizer (opaque),
    the model's mode and the log of events. *)
Record world (P : Type) : Type := mkWorld {
  w_params : P;
  w_mode : mode;
  w_log : list event
}.

(** Computations that read and write the world and may raise; the
    world reached when the exception was raised is kept. *)
Definition M (P A : Type) : Type := world P -> result A * world P.

Definition ret {P A} (a : A) : M P A := fun w => (Ok a, w).

Definition bind {P A B} (m : M P A) (k : A -> M P B) : M P B :=
  fun w => match m w with
           | (Ok a, w') => k a w'
           | (Raise e, w') => (Raise e, w')
           end.

Definition raise {P A} (e : exn) : M P A := fun w => (Raise e, w).

Definition lift {P A} (r : result A) : M P A := fun w => (r, w).

Definition emit {P} (e : event) : M P unit :=
  fun w => (Ok tt, mkWorld (w_params w) (w_mode w) (w_log w ++ [e])).

Definition set_mode {P} (m : mode) : M P unit :=
  fun w => (Ok tt, mkWorld (w_params w) m (w_log w)).

Definition get_mode {P} : M P mode := fun w => (Ok (w_mode w), w).

Definition with_params {P A} (f : P -> mode -> result A) : M P A :=
  fun w => (f (w_params w) (w_mode w), w).

Definition update_params {P} (f : P -> mode -> P) : M P unit :=
  fun w => (Ok tt, mkWorld (f (w_params w) (w_mode w)) (w_mode w) (w_log w)).

Declare Scope eff_scope.
Delimit Scope eff_scope with eff.
Notation "x <- c ;; k" := (bind c (fun x => k))
  (at level 61, c at next level, right associativity) : eff_scope.
Notation "c ;;; k" := (bind c (fun _ => k))
  (at level 61, right associativity) : eff_scope.

(** [for x in xs: s = body(x, s)]. *)
Fixpoint for_each {P A S} (xs : list A) (body : A -> S -> M P S) (s : S)
  : M P S :=
  match xs with
  | [] => ret s
  | x :: xs' => bind (body x s) (for_each xs' body)
  end.

(** A loop body either goes on to the next element or breaks. *)
Inductive flow (S : Type) : Type :=
| Continue (s : S)
| Break (s : S).
Arguments Continue {S} s.
Arguments Break {S} s.

Fixpoint for_break {P A S} (xs : list A) (body : A -> S -> M P (flow S)) (s : S)
  : M P S :=
  match xs with
  | [] => ret s
  | x :: xs' =>
      bind (body x s) (fun fl =>
        match fl with
        | Continue s' => for_break xs' body s'
        | Break s' => ret s'
        end)
  end.

End Eff.
Import Eff.
Open Scope eff_scope.

(* ===================================================================== *)
(** ** Hyper-parameters and the trainer                                   *)
(* ===================================================================== *)

(** The fields of [hp] that [Trainer] reads. *)
Record hparams : Type := mkHparams {
  l_target : Z;
  l_input : Z;
  batch_size : Z;
  n_epochs : Z;
  period_save_state : Z;
  weight_loss : list Q
}.

(** One element of a data loader: [data['x']], [data['y']], [data['T_ys']]
    after [_pre] (device transfer and normalisation are the dataset's
    business and leave the shapes alone). *)
Record batch : Type := mkBatch {
  b_x : tensor;
  b_y : tensor;
  b_T_ys : list Z
}.

(** A data loader: [len(loader.dataset)] and the batches it yields in
    the given epoch. *)
Record loader : Type := mkLoader {
  dataset_len : Z;
  batches : Z -> list batch
}.

(** The trainer: its criterions and its external collaborators.
    [forward] is [self.model(x)], which may raise; [opt_step] is the
    effect of [backward()] and [optimizer.step()] on the parameters for
    one window; [sched_step] is [scheduler.step(pos)]; [sched_init] is
    the construction of the scheduler for a given [last_epoch], which
    writes to the optimizer's param groups and may raise. *)
Record trainer (P : Type) : Type := mkTrainer {
  criterions : list criterion;
  forward : P -> mode -> tensor -> result tensor;
  opt_step : tensor -> tensor -> list Z -> P -> mode -> P;
  sched_step : Q -> P -> mode -> P;
  reused_sample : Z -> bool;
  sched_init : Z -> P -> mode -> result P
}.

(* ===================================================================== *)
(** ** [Trainer._calc_loss]                                               *)
(* ===================================================================== *)

Module Loss.
Section WithTrainer.

Variable P : Type.
Variable hp : hparams.
Variable self : trainer P.

(** [(T_ys == T_ys[0]).all()]. *)
Definition all_equal_first (T_ys : list Z) : result bool :=
  match T_ys with
  | [] => Raise IndexError
  | T0 :: _ => Ok (forallb (fun T => (T =? T0)%Z) T_ys)
  end.

(** A call of the [i]-th criterion. *)
Definition call_criterion (i : nat) (c : criterion) (input target : tensor)
  : M P Q :=
  emit (EvCriterion i) ;;; lift (apply_criterion c input target).

(** Lines 134-136: one iteration of the loop over the criterions when
    all lengths are equal.  The division is a floating point division,
    which does not raise; its value is the rational computed here when
    [T_ys[0]] is not zero, and inf or nan, which the rationals do not
    have, when it is. *)
Definition fast_body (y output : tensor) (T_ys : list Z)
    (ic : nat * criterion) (loss : list Q) : M P (list Q) :=
  let '(i, criterion) := ic in
  w <- lift (index (weight_loss hp) i) ;;
  if Qeq_bool w 0 then ret loss
  else
    v <- call_criterion i criterion output y ;;
    T0 <- lift (index T_ys 0) ;;
    ret (upd_at loss i (fun _ => (w * v / inject_Z T0)%Q)).

(** Lines 133-136: the branch taken when all lengths are equal. *)
Definition calc_loss_fast (y output : tensor) (T_ys : list Z) : M P (list Q) :=
  for_each (enumerate (criterions self)) (fast_body y output T_ys)
    (zeros (length (criterions self))).

(** Lines 142-143: [zip(T_ys, y, output)] stops at the shortest of the
    three. *)
Definition zip_items (T_ys : list Z) (y output : tensor) : list (Z * nat) :=
  combine T_ys (seq 0 (Nat.min (dimB y) (dimB output))).

(** Line 143: [loss[i] += criterion(item_out[..., :T], item_y[..., :T]) / int(T)].
    As on the fast path, the value is the one of the code when [T] is
    not zero; for [T = 0] the code adds nan, without raising. *)
Definition ragged_item (i : nat) (criterion : criterion) (y output : tensor)
    (Tb : Z * nat) (loss : list Q) : M P (list Q) :=
  let '(T, b) := Tb in
  v <- call_criterion i criterion
         (take_upto (item output b) T) (take_upto (item y b) T) ;;
  ret (upd_at loss i (fun acc => (acc + v / inject_Z T)%Q)).

(** Lines 140-144: one iteration of the loop over the criterions
    otherwise. *)
Definition ragged_body (y output : tensor) (T_ys : list Z)
    (ic : nat * criterion) (loss : list Q) : M P (list Q) :=
  let '(i, criterion) := ic in
  w <- lift (index (weight_loss hp) i) ;;
  if Qeq_bool w 0 then ret loss
  else
    loss <- for_each (zip_items T_ys y output)
              (ragged_item i criterion y output) loss ;;
    ret (upd_at loss i (fun acc => (acc * w)%Q)).

(** Lines 138-144: the branch taken otherwise. *)
Definition calc_loss_ragged (y output : tensor) (T_ys : list Z) : M P (list Q) :=
  for_each (enumerate (criterions self)) (ragged_body y output T_ys)
    (zeros (length (criterions self))).

(** Lines 130-146. *)
Definition _calc_loss (y output : tensor) (T_ys : list Z) : M P (list Q) :=
  uniform <- lift (all_equal_first T_ys) ;;
  if uniform then calc_loss_fast y output T_ys
  else calc_loss_ragged y output T_ys.

(** The criterion is evaluated: its weight is not zero (lines 134, 140). *)
Definition weighted (ic : nat * criterion) : bool :=
  match nth_error (weight_loss hp) (fst ic) with
  | Some w => negb (Qeq_bool w 0)
  | None => false
  end.

(** Whether the tensor returned by [_calc_loss] is attached to the
    autograd graph of a trainable model.  [torch.zeros] (lines 131, 138)
    is not; the tensor becomes so when the result of a criterion is
    written into it (lines 136, 143), that is when some criterion has a
    non-zero weight and, on the ragged path, [zip(T_ys, y, output)] is
    not empty. *)
Definition requires_grad (y output : tensor) (T_ys : list Z) : bool :=
  existsb weighted (enumerate (criterions self)) &&
  match all_equal_first T_ys with
  | Ok true => true
  | Ok false => negb (length (zip_items T_ys y output) =? 0)%nat
  | Raise _ => false
  end.

End WithTrainer.
End Loss.
Import Loss.

(* ===================================================================== *)
(** ** Calls to the model, the optimizer and the scheduler                *)
(* ===================================================================== *)

Module Collab.
Section WithTrainer.

Variable P : Type.
Variable self : trainer P.

(** [self.model(x)]: the call is logged, then the model answers or
    raises. *)
Definition call_model (x : tensor) : M P tensor :=
  md <- get_mode ;;
  emit (EvForward md (dimB x)) ;;;
  with_params (fun p md => forward self p md x).

(** [loss_t_sum.backward(); self.optimizer.step()] for one window.
    [backward()] raises on a loss that is not attached to the autograd
    graph ([grad] is false), and the optimizer is then not stepped. *)
Definition backward_and_step (grad : bool) (seg_x seg_y : tensor) (seg_T : list Z)
  : M P unit :=
  emit EvBackward ;;;
  if grad then
    emit EvOptStep ;;;
    update_params (opt_step self seg_x seg_y seg_T)
  else raise RuntimeError.

(** Lines 153-157: the scheduler is built on the optimizer for
    [last_epoch = first_epoch - 1]. *)
Definition scheduler_init (last_epoch : Z) : M P unit :=
  emit (EvSchedInit last_epoch) ;;;
  p <- with_params (sched_init self last_epoch) ;;
  update_params (fun _ _ => p).

(** [scheduler.step(pos)]. *)
Definition scheduler_step (pos : Q) : M P unit :=
  emit (EvSchedStep pos) ;;;
  update_params (sched_step self pos).

(** [writer.add_scalar] for the summed loss and, with more than one
    criterion, for each entry ([zip(hp.criterion_names, avg_loss)]). *)
Definition add_scalars (total : tag) (each : nat -> tag) (avg_loss : list Q)
    (epoch : Z) : M P unit :=
  emit (EvAddScalar total (vsum avg_loss) epoch) ;;;
  if (1 <? length (criterions self))%nat then
    for_each (enumerate avg_loss)
      (fun '(i, ll) _ => emit (EvAddScalar (each i) ll epoch)) tt
  else ret tt.

End WithTrainer.
End Collab.
Import Collab.

(* ===================================================================== *)
(** ** [Trainer.validate]                                                 *)
(* ===================================================================== *)

Module Valid.
Section WithTrainer.

Variable P : Type.
Variable hp : hparams.
Variable self : trainer P.

(** [_post_one]: [output[idx, :, :Ts[idx]]]. *)
Definition _post_one (output : tensor) (Ts : list Z) (idx : nat) : M P tensor :=
  T <- lift (index Ts idx) ;;
  if (idx <? dimB output)%nat then ret (take_upto (item output idx) T)
  else raise IndexError.

(** The body of the loop over the validation batches (lines 248-271). *)
Definition validate_batch (epoch : Z) (it : nat * batch) (avg_loss : list Q)
  : M P (list Q) :=
  let '(i_iter, data) := it in
  let x := b_x data in
  let y := b_y data in
  let T_ys := b_T_ys data in
  output <- call_model self x ;;
  loss <- _calc_loss hp self y output T_ys ;;
  let avg_loss := vadd avg_loss loss in
  emit (EvPostfix (vdiv loss (Z.of_nat (length T_ys)))) ;;;
  (if (i_iter =? 0)%nat then
     _ <- _post_one output T_ys 0 ;;
     emit (EvWriteOne epoch (negb (reused_sample self epoch)))
   else ret tt) ;;;
  ret avg_loss.

(** Lines 242-282. *)
Definition validate (ld : loader) (epoch : Z) : M P (list Q) :=
  set_mode EvalMode ;;;
  avg_loss <- for_each (enumerate (batches ld epoch)) (validate_batch epoch)
                (zeros (length (criterions self))) ;;
  let avg_loss := vdiv avg_loss (dataset_len ld) in
  add_scalars self LossValid LossValidOf avg_loss epoch ;;;
  set_mode TrainMode ;;;
  ret avg_loss.

End WithTrainer.
End Valid.
Import Valid.

(* ===================================================================== *)
(** ** [Trainer.train]                                                    *)
(* ===================================================================== *)

Module Train.
Section WithTrainer.

Variable P : Type.
Variable hp : hparams.
Variable self : trainer P.

(** The variables that live across the windows of one batch:
    [i_first], [loss_t] (None until a window has been trained on) and
    the accumulator [avg_loss]. *)
Record wstate : Type := mkWstate {
  i_first : nat;
  loss_t : option (list Q);
  avg_loss : list Q
}.

(** One iteration of [for t in range(0, y.shape[-1], hp.l_target)]
    (lines 182-204). *)
Definition window (x y : tensor) (T_ys : list Z) (t : Z) (st : wstate)
  : M P (flow wstate) :=
  emit EvZeroGrad ;;;
  i_first' <- lift (advance_i_first (dimB y) T_ys t (i_first st)) ;;
  let st := mkWstate i_first' (loss_t st) (avg_loss st) in
  let seg_y := narrow y i_first' t (t + l_target hp) in
  if (dimT seg_y <? 5)%nat then ret (Break st)
  else
    let seg_x := narrow x i_first' t (t + l_input hp) in
    let seg_T := seg_T_ys T_ys i_first' t (l_target hp) in
    out <- call_model self seg_x ;;
    let output := take_time out (dimT seg_y) in
    loss <- _calc_loss hp self seg_y output seg_T ;;
    backward_and_step self (requires_grad hp self seg_y output seg_T)
      seg_x seg_y seg_T ;;;
    ret (Continue (mkWstate i_first' (Some loss) (vadd (avg_loss st) loss))).

(** Lines 179-204: the window loop of one batch. *)
Definition window_loop (x y : tensor) (T_ys : list Z) (acc : list Q)
  : M P wstate :=
  ts <- lift (range0 (Z.of_nat (dimT y)) (l_target hp)) ;;
  for_break ts (window x y T_ys) (mkWstate 0 None acc).

(** [epoch + i_iter * hp.batch_size / n_train_data]: a Python
    division, which raises on a zero divisor. *)
Definition fractional_epoch (epoch : Z) (i_iter : nat) (n_train_data : Z)
  : result Q :=
  if (n_train_data =? 0)%Z then Raise ZeroDivisionError
  else Ok (inject_Z epoch
           + inject_Z (Z.of_nat i_iter * batch_size hp) / inject_Z n_train_data)%Q.

(** Lines 208-209: [loss_t.cpu().numpy() / len(T_ys)], then the
    progress bar. *)
Definition report_last (st : wstate) (T_ys : list Z) : M P unit :=
  match loss_t st with
  | None => raise AttributeError
  | Some l => emit (EvPostfix (vdiv l (Z.of_nat (length T_ys))))
  end.

(** Lines 175-209: the body of the loop over the training batches. *)
Definition train_batch (epoch n_train_data : Z) (it : nat * batch)
    (acc : list Q) : M P (list Q) :=
  let '(i_iter, data) := it in
  let x := b_x data in
  let y := b_y data in
  let T_ys := b_T_ys data in
  st <- window_loop x y T_ys acc ;;
  pos <- lift (fractional_epoch epoch i_iter n_train_data) ;;
  scheduler_step self pos ;;;
  report_last st T_ys ;;;
  ret (avg_loss st).

(** [epoch % hp.period_save_state == hp.period_save_state - 1]. *)
Definition save_due (epoch : Z) : result bool :=
  if (period_save_state hp =? 0)%Z then Raise ZeroDivisionError
  else Ok (epoch mod period_save_state hp =? period_save_state hp - 1)%Z.

(** Lines 169-230: the body of the loop over the epochs.  [acc] is
    the tensor [avg_loss] created on line 158, before the loop. *)
Definition train_epoch (loader_train loader_valid : loader) (epoch : Z)
    (acc : list Q) : M P (list Q) :=
  let n_train_data := dataset_len loader_train in
  acc <- for_each (enumerate (batches loader_train epoch))
           (train_batch epoch n_train_data) acc ;;
  let acc := vdiv acc n_train_data in
  add_scalars self LossTrain LossTrainOf acc epoch ;;;
  _ <- validate hp self loader_valid epoch ;;
  due <- lift (save_due epoch) ;;
  (if due then emit (EvSave epoch) else ret tt) ;;;
  ret acc.

(** [range(first_epoch, hp.n_epochs)]. *)
Definition epochs (first_epoch : Z) : list Z :=
  map (fun k => (first_epoch + Z.of_nat k)%Z)
      (seq 0 (Z.to_nat (n_epochs hp - first_epoch))).

(** Lines 148-231. *)
Definition train (loader_train loader_valid : loader) (first_epoch : Z)
  : M P unit :=
  scheduler_init self (first_epoch - 1) ;;;
  let acc := zeros (length (criterions self)) in
  emit (EvWriterOpen (Some first_epoch)) ;;;
  _ <- for_each (epochs first_epoch)
         (train_epoch loader_train loader_valid) acc ;;
  emit EvWriterClose.

End WithTrainer.
End Train.
Import Train.

(* ===================================================================== *)
(** ** Vocabulary of the statements                                       *)
(* ===================================================================== *)

Module Spec.

(** The computation never calls the [i]-th criterion, and the loss
    vector it returns has 0 at index [i]. *)
Definition skips_criterion {P} (i : nat) (m : M P (list Q)) : Prop :=
  forall w,
    (exists new, w_log (snd (m w)) = w_log w ++ new /\
                 Forall (fun e => e <> EvCriterion i) new) /\
    (forall loss, fst (m w) = Ok loss -> nth_error loss i = Some 0%Q).

(** Run in mode [md], the computation leaves the mode as it is and
    logs only events that satisfy [ok]. *)
Definition keeps_mode {P A} (md : mode) (ok : event -> Prop) (m : M P A) : Prop :=
  forall w, w_mode w = md ->
    w_mode (snd (m w)) = md /\
    exists new, w_log (snd (m w)) = w_log w ++ new /\ Forall ok new.

(** Line 143 as a function of the accumulated entry: what one item
    of [zip(T_ys, y, output)] adds to [loss[i]]. *)
Definition item_step (c : criterion) (y output : tensor) (acc : Q) (Tb : Z * nat) : Q :=
  (acc + reduce_sum c (take_upto (item output (snd Tb)) (fst Tb))
                      (take_upto (item y (snd Tb)) (fst Tb))
         / inject_Z (fst Tb))%Q.


(** The entry [i] of a loss vector still holds the initial 0. *)
Definition entry_untouched (i : nat) (loss : list Q) : Prop :=
  nth_error loss i = Some 0%Q.

(** A loss vector with one entry per criterion. *)
Definition sized_for {P} (self : trainer P) (loss : list Q) : Prop :=
  length loss = length (criterions self).

(** The loop variable carried by either outcome of a loop body. *)
Definition flow_state {S} (fl : flow S) : S :=
  match fl with
  | Continue s => s
  | Break s => s
  end.

(** The world after one more event. *)
Definition logged {P} (w : world P) (e : event) : world P :=
  mkWorld (w_params w) (w_mode w) (w_log w ++ [e]).


(** A forward pass that is logged was made in evaluation mode. *)
Definition forward_in_eval (e : event) : Prop :=
  match e with
  | EvForward md _ => md = EvalMode
  | _ => True
  end.

(** The event is neither a model call nor an optimizer step. *)
Definition no_model_no_step (e : event) : bool :=
  match e with
  | EvForward _ _ | EvOptStep => false
  | _ => true
  end.

(** [visits body ts st w t st' w']: the loop [for t in ts], started in
    state [st] and world [w], runs its body for the element [t], in state
    [st'] and world [w']; the body has returned and gone on for every
    element before [t]. *)
Inductive visits {P A S} (body : A -> S -> M P (flow S))
  : list A -> S -> world P -> A -> S -> world P -> Prop :=
| visits_head t ts st w : visits body (t :: ts) st w t st w
| visits_tail t0 ts st w st1 w1 t st' w' :
    body t0 st w = (Ok (Continue st1), w1) ->
    visits body ts st1 w1 t st' w' ->
    visits body (t0 :: ts) st w t st' w'.

(** The batch sizes of the forward passes, in order. *)
Fixpoint forward_sizes (log : list event) : list nat :=
  match log with
  | [] => []
  | EvForward _ n :: log' => n :: forward_sizes log'
  | _ :: log' => forward_sizes log'
  end.


(** The values written under the tag [loss/train], in order. *)
Fixpoint train_scalars (log : list event) : list Q :=
  match log with
  | [] => []
  | EvAddScalar LossTrain v _ :: log' => Qred v :: train_scalars log'
  | _ :: log' => train_scalars log'
  end.

(** The values shown on the progress bar, in order. *)
Fixpoint postfixes (log : list event) : list (list Q) :=
  match log with
  | [] => []
  | EvPostfix v :: log' => map Qred v :: postfixes log'
  | _ :: log' => postfixes log'
  end.

End Spec.
Import Spec.

(* ===================================================================== *)
(** ** Concrete trainers and batches                                      *)
(* ===================================================================== *)

Module Examples.

(** A tensor with the same value everywhere. *)
Definition full (B C T : nat) (v : Q) : tensor :=
  mkTensor B C T (fun _ _ _ => v).

(** A model that returns its input, with no parameters to update. *)
Definition identity_trainer (cs : list criterion) : trainer unit :=
  mkTrainer cs (fun _ _ x => Ok x) (fun _ _ _ p _ => p) (fun _ p _ => p)
            (fun _ => false) (fun _ p _ => Ok p).

(** A model whose forward pass raises. *)
Definition failing_trainer (cs : list criterion) : trainer unit :=
  mkTrainer cs (fun _ _ _ => Raise RuntimeError) (fun _ _ _ p _ => p)
            (fun _ p _ => p) (fun _ => false) (fun _ p _ => Ok p).

(** [l_target = l_input = l], batches of [bs] samples, [n] epochs, one
    criterion of weight 1. *)
Definition hp_one (l bs n : Z) : hparams :=
  mkHparams l l bs n 1 [1%Q].

Definition world0 : world unit := mkWorld tt TrainMode [].

(** A batch with input 1 and target 0 everywhere. *)
Definition ones_zeros (B T : nat) (T_ys : list Z) : batch :=
  mkBatch (full B 1 T 1%Q) (full B 1 T 0%Q) T_ys.

Definition fixed_loader (n : Z) (bs : list batch) : loader :=
  mkLoader n (fun _ => bs).

End Examples.
Import Examples.

(* ===================================================================== *)
(** ** Closed forms of the loss vector and of its criterion calls         *)
(* ===================================================================== *)

Module LossSpec.

(** The world after some more events. *)
Definition logged_all {P} (w : world P) (evs : list event) : world P :=
  mkWorld (w_params w) (w_mode w) (w_log w ++ evs).

(** Entry of the loss vector for the criterion [ic] on the fast path:
    weight times the loss summed over the whole tensors, divided by the
    common length [T0]. *)
Definition fast_entry (hp : hparams) (y output : tensor) (T0 : Z)
    (ic : nat * criterion) : Q :=
  match nth_error (weight_loss hp) (fst ic) with
  | Some w =>
      if Qeq_bool w 0 then 0%Q
      else (w * reduce_sum (snd ic) output y / inject_Z T0)%Q
  | None => 0%Q
  end.

(** Criterion calls of the fast path: one for each criterion whose
    weight is not zero. *)
Definition fast_call (hp : hparams) (ic : nat * criterion) : list event :=
  match nth_error (weight_loss hp) (fst ic) with
  | Some w => if Qeq_bool w 0 then [] else [EvCriterion (fst ic)]
  | None => []
  end.

(** Number of samples met by [zip(T_ys, y, output)]. *)
Definition zipped (T_ys : list Z) (y output : tensor) : nat :=
  Nat.min (length T_ys) (Nat.min (dimB y) (dimB output)).

(** What sample [b] contributes on the ragged path: the loss summed over
    its first [T_ys[b]] time positions, divided by [T_ys[b]]. *)
Definition sample_term (c : criterion) (y output : tensor) (T_ys : list Z)
    (b : nat) : Q :=
  (reduce_sum c (take_upto (item output b) (nth b T_ys 0%Z))
                (take_upto (item y b) (nth b T_ys 0%Z))
   / inject_Z (nth b T_ys 0%Z))%Q.

(** Entry of the loss vector for the criterion [ic] on the ragged
    path. *)
Definition ragged_entry (hp : hparams) (y output : tensor) (T_ys : list Z)
    (ic : nat * criterion) : Q :=
  match nth_error (weight_loss hp) (fst ic) with
  | Some w =>
      if Qeq_bool w 0 then 0%Q
      else (sum_to (zipped T_ys y output) (sample_term (snd ic) y output T_ys) * w)%Q
  | None => 0%Q
  end.

(** Criterion calls of the ragged path: one per zipped sample for each
    criterion whose weight is not zero. *)
Definition ragged_call (hp : hparams) (n : nat) (ic : nat * criterion) : list event :=
  match nth_error (weight_loss hp) (fst ic) with
  | Some w => if Qeq_bool w 0 then [] else repeat (EvCriterion (fst ic)) n
  | None => []
  end.

(** The entry for [ic] as the ragged loop accumulates it from 0. *)
Definition ragged_folded (hp : hparams) (y output : tensor) (T_ys : list Z)
    (ic : nat * criterion) : Q :=
  match nth_error (weight_loss hp) (fst ic) with
  | Some w =>
      if Qeq_bool w 0 then 0%Q
      else (fold_left (item_step (snd ic) y output) (zip_items T_ys y output) 0 * w)%Q
  | None => 0%Q
  end.

(** Two batches agree on the valid part of every sample: same shapes,
    and equal entries at the time positions below [T_ys[b]]. *)
Definition agree_on_valid (T_ys : list Z) (y output y' output' : tensor) : Prop :=
  dimB y = dimB y' /\ dimC y = dimC y' /\ dimT y = dimT y' /\
  dimB output = dimB output' /\ dimC output = dimC output' /\
  dimT output = dimT output' /\
  forall b T ch s, nth_error T_ys b = Some T -> (Z.of_nat s < T)%Z ->
    entry y b ch s = entry y' b ch s /\
    entry output b ch s = entry output' b ch s.

(** A target that differs from 0 only at time positions 2 and later. *)
Definition padded_with (B C T : nat) (v : Q) : tensor :=
  mkTensor B C T (fun _ _ s => if (s <? 2)%nat then 0%Q else v).

End LossSpec.
Import LossSpec.

(* ===================================================================== *)
(** ** Vocabulary for the window loop and the epochs                      *)
(* ===================================================================== *)

Module TrainSpec.

(** The event is a criterion call. *)
Definition is_criterion_call (e : event) : Prop :=
  match e with
  | EvCriterion _ => True
  | _ => False
  end.

(** A forward pass that is logged was made in mode [md]. *)
Definition forward_in (md : mode) (e : event) : Prop :=
  match e with
  | EvForward m _ => m = md
  | _ => True
  end.

(** The event does not touch the optimizer or the scheduler. *)
Definition no_update (e : event) : Prop :=
  match e with
  | EvZeroGrad | EvBackward | EvOptStep | EvSchedStep _ | EvSave _
  | EvSchedInit _ => False
  | _ => True
  end.

(** The event is not the closing of the writer. *)
Definition not_close (e : event) : Prop := e <> EvWriterClose.

(** The event is not a checkpoint. *)
Definition not_save (e : event) : Prop := forall epoch, e <> EvSave epoch.

(** [loss_t] after the windows whose losses are [losses], in order. *)
Definition last_loss (lt : option (list Q)) (losses : list (list Q))
  : option (list Q) :=
  fold_left (fun _ l => Some l) losses lt.

(** The state a window leaves, given what it computed: the new cursor
    and, unless it broke out of the loop, its loss. *)
Definition window_outcome (lt : option (list Q)) (acc : list Q)
    (o : result (nat * option (list Q))) : result (flow wstate) :=
  match o with
  | Ok (i', None) => Ok (Break (mkWstate i' lt acc))
  | Ok (i', Some loss) => Ok (Continue (mkWstate i' (Some loss) (vadd acc loss)))
  | Raise e => Raise e
  end.

(** The state a window loop leaves, given the cursor it ends with and
    the losses of the windows it trained on, in order. *)
Definition loop_outcome (lt : option (list Q)) (acc : list Q)
    (o : result (nat * list (list Q))) : result wstate :=
  match o with
  | Ok (i', losses) => Ok (mkWstate i' (last_loss lt losses) (fold_left vadd losses acc))
  | Raise e => Raise e
  end.

(** The accumulator a batch leaves, given the losses of its windows. *)
Definition batch_outcome (acc : list Q) (o : result (list (list Q)))
  : result (list Q) :=
  match o with
  | Ok losses => Ok (fold_left vadd losses acc)
  | Raise e => Raise e
  end.

(** Number of optimizer steps in a log. *)
Fixpoint count_opt_steps (log : list event) : nat :=
  match log with
  | [] => 0
  | EvOptStep :: log' => S (count_opt_steps log')
  | _ :: log' => count_opt_steps log'
  end.

(** The epochs for which the state was saved, in order. *)
Fixpoint saves (log : list event) : list Z :=
  match log with
  | [] => []
  | EvSave epoch :: log' => epoch :: saves log'
  | _ :: log' => saves log'
  end.

(** Number of [write_one] calls in a log. *)
Fixpoint count_write_one (log : list event) : nat :=
  match log with
  | [] => 0
  | EvWriteOne _ _ :: log' => S (count_write_one log')
  | _ :: log' => count_write_one log'
  end.

(** The computation leaves the parameters of model and optimizer as
    they are. *)
Definition keeps_params {P A} (m : M P A) : Prop :=
  forall w, w_params (snd (m w)) = w_params w.

(** The computation logs only events that satisfy [ok], whatever the
    mode it starts in. *)
Definition logs_only {P A} (ok : event -> Prop) (m : M P A) : Prop :=
  forall w, exists new, w_log (snd (m w)) = w_log w ++ new /\ Forall ok new.

(** The computation calls [write_one] at most [n] times, and exactly
    [n] times when it returns. *)
Definition writes {P A} (n : nat) (m : M P A) : Prop :=
  forall w, exists new,
    w_log (snd (m w)) = w_log w ++ new /\
    (count_write_one new <= n)%nat /\
    (is_ok (fst (m w)) = true -> count_write_one new = n).

End TrainSpec.
Import TrainSpec.

(* ===================================================================== *)
(** ** [Trainer.test]                                                     *)
(* ===================================================================== *)

Module Test.

(** How a call of [test] ends: it returns, or raises one of the
    exceptions of [Py], or raises a [TypeError]. *)
Inductive outcome (A : Type) : Type :=
| Done (a : A)
| Failed (e : exn)
| FailedTypeError.
Arguments Done {A} a.
Arguments Failed {A} e.
Arguments FailedTypeError {A}.

(** What [test] shows besides the events of [Eff]: the lines written
    through the progress bar, the texts passed to [writer.add_text] and
    the average printed at the end. *)
Inductive shown (Ms Row : Type) : Type :=
| Printed (measure : option Ms)      (* pbar.write(arr2str(measure)) *)
| AddText (k : nat) (row : Row)      (* add_text(..., str(avg_measure[k])) *)
| PrintedAverage (avg_measure : Ms). (* print(f'Average: {arr2str(avg_measure)}') *)
Arguments Printed {Ms Row} measure.
Arguments AddText {Ms Row} k row.
Arguments PrintedAverage {Ms Row} avg_measure.

(** The collaborators of [test]: the trainer; what [writer.write_one]
    returns for a batch, a measure array or None; the array operations
    used on measures, [+=], [/=] by an integer and indexing; and what
    [arr2str] does when it is handed None instead of an array. *)
Record tester (P Ms Row : Type) : Type := mkTester {
  t_self : trainer P;
  write_measure : nat -> tensor -> batch -> option Ms;
  m_add : Ms -> Ms -> Ms;
  m_div : Ms -> Z -> Ms;
  m_row : Ms -> nat -> result Row;
  arr2str_none : outcome unit
}.

Section WithTester.

Variables P Ms Row : Type.
Variable tst : tester P Ms Row.

(** The state of [test]: the world and what has been shown so far. *)
Definition tworld : Type := world P * list (shown Ms Row).

Definition T (A : Type) : Type := tworld -> outcome A * tworld.

Definition t_ret {A} (a : A) : T A := fun s => (Done a, s).

Definition t_bind {A B} (m : T A) (k : A -> T B) : T B :=
  fun s => match m s with
           | (Done a, s') => k a s'
           | (Failed e, s') => (Failed e, s')
           | (FailedTypeError, s') => (FailedTypeError, s')
           end.

(** A computation of [Eff] run inside [test]. *)
Definition of_M {A} (m : M P A) : T A :=
  fun s => match m (fst s) with
           | (Ok a, w') => (Done a, (w', snd s))
           | (Raise e, w') => (Failed e, (w', snd s))
           end.

Definition t_lift {A} (o : outcome A) : T A := fun s => (o, s).

Definition show (x : shown Ms Row) : T unit :=
  fun s => (Done tt, (fst s, snd s ++ [x])).

Definition type_error {A} : T A := fun s => (FailedTypeError, s).

Fixpoint t_for_each {A S} (xs : list A) (body : A -> S -> T S) (s : S) : T S :=
  match xs with
  | [] => t_ret s
  | x :: xs' => t_bind (body x s) (t_for_each xs' body)
  end.

(** Lines 308-311: [avg_measure] takes the first measure as it is, be
    it None, and [+=] on an array raises [TypeError] for None. *)
Definition accumulate (avg_measure measure : option Ms) : T (option Ms) :=
  match avg_measure with
  | None => t_ret measure
  | Some a =>
      match measure with
      | Some m => t_ret (Some (m_add tst a m))
      | None => type_error
      end
  end.

(** Lines 314-315: [pbar.write(arr2str(measure).replace(...))]. *)
Definition print_measure (measure : option Ms) : T unit :=
  match measure with
  | Some _ => show (Printed measure)
  | None => t_bind (t_lift (arr2str_none tst)) (fun _ => show (Printed measure))
  end.

(** Lines 295-315: the body of the loop over the test batches;
    [avg_measure] is None before the first batch. *)
Definition test_batch (it : nat * batch) (avg_measure : option Ms) : T (option Ms) :=
  let '(i_iter, data) := it in
  t_bind (of_M (call_model (t_self tst) (b_x data))) (fun output =>
  t_bind (of_M (_post_one output (b_T_ys data) 0)) (fun out_one =>
  t_bind (of_M (emit (EvWriteOne (Z.of_nat i_iter) true))) (fun _ =>
  let measure := write_measure tst i_iter out_one data in
  t_bind (accumulate avg_measure measure) (fun avg_measure =>
  t_bind (print_measure measure) (fun _ =>
  t_ret avg_measure))))).

(** Lines 319-322: the average and the two texts; dividing None
    raises [TypeError]. *)
Definition report_average (avg_measure : option Ms) (n : Z) : T Ms :=
  match avg_measure with
  | None => type_error
  | Some a =>
      let a := m_div tst a n in
      t_bind (of_M (lift (m_row tst a 0))) (fun r0 =>
      t_bind (show (AddText 0 r0)) (fun _ =>
      t_bind (of_M (lift (m_row tst a 1))) (fun r1 =>
      t_bind (show (AddText 1 r1)) (fun _ =>
      t_ret a))))
  end.

(** Lines 285-326, for a loader that yields the batches [bs] and whose
    dataset has [n] samples. *)
Definition test (bs : list batch) (n : Z) : T unit :=
  t_bind (of_M (emit (EvWriterOpen None))) (fun _ =>
  t_bind (of_M (set_mode EvalMode)) (fun _ =>
  t_bind (t_for_each (enumerate bs) test_batch None) (fun avg_measure =>
  t_bind (of_M (set_mode TrainMode)) (fun _ =>
  t_bind (report_average avg_measure n) (fun avg_measure =>
  t_bind (of_M (emit EvWriterClose)) (fun _ =>
  show (PrintedAverage avg_measure))))))).

(** What [write_one] returns for a batch, when the forward pass and
    [_post_one] return: the model has parameters [p] and mode [md]. *)
Definition measure_of (p : P) (md : mode) (it : nat * batch)
  : result (option Ms) :=
  match forward (t_self tst) p md (b_x (snd it)) with
  | Ok output =>
      match index (b_T_ys (snd it)) 0 with
      | Ok T0 =>
          if (0 <? dimB output)%nat then
            Ok (write_measure tst (fst it) (take_upto (item output 0) T0) (snd it))
          else Raise IndexError
      | Raise e => Raise e
      end
  | Raise e => Raise e
  end.

(** The events of one batch of [test] whose measure is written. *)
Definition batch_events (md : mode) (it : nat * batch) : list event :=
  [EvForward md (dimB (b_x (snd it))); EvWriteOne (Z.of_nat (fst it)) true].

(** [avg_measure] goes from [avg] to [r] over the measures [ms]
    without [+=] meeting None. *)
Fixpoint sums_to (avg : option Ms) (ms : list (option Ms)) (r : option Ms) : Prop :=
  match ms with
  | [] => r = avg
  | m :: ms' =>
      match avg, m with
      | None, _ => sums_to m ms' r
      | Some a, Some m' => sums_to (Some (m_add tst a m')) ms' r
      | Some _, None => False
      end
  end.

End WithTester.

(** A tester whose measures are pairs of rationals: [write_one]
    reports the valid length of the sample and 1. *)
Definition pair_tester (self : trainer unit) : tester unit (Q * Q) Q :=
  mkTester self
    (fun _ out_one _ => Some (inject_Z (Z.of_nat (dimT out_one)), 1%Q))
    (fun a b => (fst a + fst b, snd a + snd b)%Q)
    (fun a n => (fst a / inject_Z n, snd a / inject_Z n)%Q)
    (fun a k => match k with
                | O => Ok (fst a)
                | S O => Ok (snd a)
                | _ => Raise IndexError
                end)
    (Done tt).

(** A tester whose [write_one] returns None. *)
Definition silent_tester (self : trainer unit) : tester unit (Q * Q) Q :=
  mkTester self
    (fun _ _ _ => None)
    (fun a b => (fst a + fst b, snd a + snd b)%Q)
    (fun a n => (fst a / inject_Z n, snd a / inject_Z n)%Q)
    (fun a k => match k with
                | O => Ok (fst a)
                | S O => Ok (snd a)
                | _ => Raise IndexError
                end)
    (Done tt).

End Test.
Import Test.

(* ===================================================================== *)
(** ** [Trainer.__init_device]                                            *)
(* ===================================================================== *)

From Stdlib Require String.
Import String.StringSyntax.
Delimit Scope string_scope with string.

Module Device.

(** [s.replace('cuda:', '')]: every occurrence is removed, scanning from
    the left; [skip] counts the characters of an occurrence that are
    still to be dropped. *)
Fixpoint drop_cuda (skip : nat) (s : String.string) : String.string :=
  match s with
  | String.EmptyString => String.EmptyString
  | String.String c s' =>
      match skip with
      | S k => drop_cuda k s'
      | O =>
          if String.prefix "cuda:"%string s then drop_cuda 4 s'
          else String.String c (drop_cuda 0 s')
      end
  end.

(** A device given in [hp]: an integer or a string. *)
Inductive value : Type :=
| VInt (n : Z)
| VStr (s : String.string).

(** [hp.device]: one value or a sequence of values. *)
Inductive device_arg : Type :=
| One (v : value)
| Many (vs : list value).

Inductive torch_device : Type :=
| Cpu
| Cuda (index : Z).

(** [hp.out_device]: an integer, or something [torch.device] turns into
    the given device. *)
Inductive out_arg : Type :=
| OutInt (n : Z)
| OutDevice (d : torch_device).

(** The calls that place the modules. *)
Inductive placement : Type :=
| ModelCuda (d : torch_device)              (* self.model.cuda(d) *)
| CriterionCuda (i : nat) (d : torch_device) (* self.criterions[i].cuda(d) *)
| SetDevice (d : torch_device).              (* torch.cuda.set_device(d) *)

(** What [__init_device] leaves in [self]: the three attributes,
    whether the model was wrapped in [nn.DataParallel] (with which
    device ids and output device), and the placement calls made. *)
Record devices : Type := mkDevices {
  in_device : torch_device;
  out_device : torch_device;
  str_device : String.string;
  data_parallel : option (list value * torch_device);
  placements : list placement
}.

Section WithPython.

(** [int(s)] and [str(n)] of Python. *)
Variable py_int : String.string -> result Z.
Variable py_str : Z -> String.string.

(** [int(d.replace('cuda:', ''))]; an integer has no [replace]. *)
Definition to_int (v : value) : result value :=
  match v with
  | VStr s =>
      match py_int (drop_cuda 0 s) with
      | Ok n => Ok (VInt n)
      | Raise e => Raise e
      end
  | VInt _ => Raise AttributeError
  end.

(** [[int(d.replace('cuda:', '')) for d in device]]. *)
Fixpoint to_ints (vs : list value) : result (list value) :=
  match vs with
  | [] => Ok []
  | v :: vs' =>
      match to_int v with
      | Ok n =>
          match to_ints vs' with
          | Ok ns => Ok (n :: ns)
          | Raise e => Raise e
          end
      | Raise e => Raise e
      end
  end.

(** Lines 76-82: the device ids as a list. *)
Definition device_ids (device : device_arg) : result (list value) :=
  match device with
  | One (VInt n) => Ok [VInt n]
  | One (VStr s) => to_ints [VStr s]
  | Many [] => Raise IndexError
  | Many (VInt n :: vs) => Ok (VInt n :: vs)
  | Many (VStr s :: vs) => to_ints (VStr s :: vs)
  end.

(** [f'cuda:{d}']. *)
Definition cuda_name (v : value) : String.string :=
  String.append "cuda:"%string
    match v with
    | VInt n => py_str n
    | VStr s => s
    end.

(** Lines 84-104, for device ids whose first is the integer [n]. *)
Definition place (n_criterions : nat) (n : Z) (ids : list value) (out : out_arg)
  : devices :=
  let in_d := Cuda n in
  let out_d :=
    if (1 <? length ids)%nat then
      match out with
      | OutInt k => Cuda k
      | OutDevice d => d
      end
    else in_d in
  mkDevices in_d out_d
    (if (1 <? length ids)%nat then String.concat ", "%string (map cuda_name ids)
     else cuda_name (VInt n))
    (if (1 <? length ids)%nat then Some (ids, out_d) else None)
    (ModelCuda in_d
       :: map (fun i => CriterionCuda i out_d) (seq 0 n_criterions)
       ++ [SetDevice in_d]).

(** Lines 68-104.  [torch.device('cuda:' + s)] for a first id that is
    not an integer is an invalid device string. *)
Definition init_device (n_criterions : nat) (device : device_arg) (out : out_arg)
  : result devices :=
  match device with
  | One (VStr s) =>
      if String.eqb s "cpu"%string then Ok (mkDevices Cpu Cpu "cpu"%string None [])
      else
        match device_ids device with
        | Ok (VInt n :: ids) => Ok (place n_criterions n (VInt n :: ids) out)
        | Ok (VStr _ :: _) => Raise RuntimeError
        | Ok [] => Raise IndexError
        | Raise e => Raise e
        end
  | _ =>
      match device_ids device with
      | Ok (VInt n :: ids) => Ok (place n_criterions n (VInt n :: ids) out)
      | Ok (VStr _ :: _) => Raise RuntimeError
      | Ok [] => Raise IndexError
      | Raise e => Raise e
      end
  end.

End WithPython.

(** [int] on a string of decimal digits, for concrete runs. *)
Fixpoint digits (acc : Z) (s : String.string) : result Z :=
  match s with
  | String.EmptyString => Ok acc
  | String.String c s' =>
      let d := Z.of_nat (Ascii.nat_of_ascii c) - 48 in
      if (0 <=? d) && (d <=? 9) then digits (10 * acc + d) s'
      else Raise ValueError
  end%Z.

Definition int_of_digits (s : String.string) : result Z :=
  match s with
  | String.EmptyString => Raise ValueError
  | _ => digits 0 s
  end.

(** [str] on the integers 0 to 9, for concrete runs. *)
Definition str_of_small (n : Z) : String.string :=
  String.String (Ascii.ascii_of_nat (48 + Z.to_nat n)) String.EmptyString.

End Device.
Import Device.


(* ===================================================================== *)
(** ** Properties of the cursor and of the clipped lengths                *)
(* ===================================================================== *)

Lemma advance_i_first_unfold (B : nat) (T_ys : list Z) (t : Z) (i : nat) :
  advance_i_first B T_ys t i =
  if lt_dec i B then
    match nth_error T_ys i with
    | None => Raise IndexError
    | Some T => if (t >=? T)%Z then advance_i_first B T_ys t (S i) else Ok i
    end
  else Ok i.
Proof.
  rewrite advance_i_first_equation_1.
  destruct (lt_dec i B); simpl; [|reflexivity].
  destruct (nth_error T_ys i); simpl; [|reflexivity].
  destruct (t >=? z)%Z; reflexivity.
Qed.

(** The while loop returns whenever [T_ys] has an entry for each sample;
    it only moves forward, every sample it passes is exhausted at [t],
    and the sample it stops at (if any) is not. *)
Lemma advance_i_first_spec (B : nat) (T_ys : list Z) (t : Z) :
  (B <= length T_ys)%nat ->
  forall k i, (B - i <= k)%nat ->
    exists i',
      advance_i_first B T_ys t i = Ok i' /\ (i <= i')%nat /\
      ((i <= B)%nat -> (i' <= B)%nat) /\
      (forall j T, (i <= j < i')%nat -> nth_error T_ys j = Some T -> (T <= t)%Z) /\
      (forall T, (i' < B)%nat -> nth_error T_ys i' = Some T -> (t < T)%Z).
Proof.
  intros HB k. induction k as [|k IH]; intros i Hk;
    rewrite advance_i_first_unfold; destruct (lt_dec i B) as [Hlt|Hge];
    try lia.
  - exists i. repeat split; auto; intros; lia.
  - destruct (nth_error T_ys i) as [T|] eqn:HT.
    + destruct (t >=? T)%Z eqn:Hcmp.
      * destruct (IH (S i)) as (i' & Hrun & Hle & Hin & Hpass & Hstop); [lia|].
        exists i'. repeat split; auto; try lia.
        intros j T' Hj HT'. destruct (Nat.eq_dec j i) as [->|Hne].
        -- rewrite HT in HT'. inversion HT'; subst. lia.
        -- apply (Hpass j); auto. lia.
      * exists i. repeat split; auto; try lia.
        intros T' _ HT'. rewrite HT in HT'. inversion HT'; subst. lia.
    + apply nth_error_None in HT. lia.
  - exists i. repeat split; auto; intros; lia.
Qed.

(** What the while loop guarantees whenever it returns. *)
Lemma advance_i_first_ok (B : nat) (T_ys : list Z) (t : Z) :
  forall k i i', (B - i <= k)%nat ->
    advance_i_first B T_ys t i = Ok i' ->
    (i <= i')%nat /\ ((i <= B)%nat -> (i' <= B)%nat) /\
    (forall j T, (i <= j < i')%nat -> nth_error T_ys j = Some T -> (T <= t)%Z).
Proof.
  induction k as [|k IH]; intros i i' Hk Hrun;
    rewrite advance_i_first_unfold in Hrun;
    destruct (lt_dec i B) as [Hlt|Hge]; try lia.
  - inversion Hrun; subst. repeat split; intros; lia.
  - destruct (nth_error T_ys i) as [T|] eqn:HT; [|discriminate].
    destruct (t >=? T)%Z eqn:Hcmp.
    + apply IH in Hrun; [|lia]. destruct Hrun as (Hle & Hin & Hpass).
      repeat split; try lia.
      intros j T' Hj HT'. destruct (Nat.eq_dec j i) as [->|Hne].
      * rewrite HT in HT'. inversion HT'; subst. lia.
      * apply (Hpass j); auto. lia.
    + inversion Hrun; subst. repeat split; intros; lia.
  - inversion Hrun; subst. repeat split; intros; lia.
Qed.

Lemma ascending_nth (T_ys : list Z) :
  ascending T_ys = true ->
  forall i j a b, (i <= j)%nat ->
    nth_error T_ys i = Some a -> nth_error T_ys j = Some b -> (a <= b)%Z.
Proof.
  induction T_ys as [|x rest IH]; intros Hasc i j a b Hij Ha Hb.
  - destruct i; discriminate.
  - assert (Hrest : ascending rest = true).
    { simpl in Hasc. destruct rest; [reflexivity|].
      apply andb_true_iff in Hasc. tauto. }
    assert (Hhd : forall k c, nth_error rest k = Some c -> (x <= c)%Z).
    { intros k. induction k as [|k IHk]; intros c Hc.
      - simpl in Hasc. destruct rest as [|r rest']; [discriminate|].
        apply andb_true_iff in Hasc. destruct Hasc as [Hxr _].
        apply Z.leb_le in Hxr. simpl in Hc. inversion Hc; subst. exact Hxr.
      - destruct (nth_error rest k) as [c'|] eqn:Hk.
        + specialize (IHk c' eq_refl).
          pose proof (IH Hrest k (S k) c' c (Nat.le_succ_diag_r k) Hk Hc). lia.
        + apply nth_error_None in Hk.
          assert (nth_error rest (S k) = None) by (apply nth_error_None; lia).
          congruence. }
    destruct i as [|i], j as [|j]; simpl in *; try lia.
    + inversion Ha; inversion Hb; subst. lia.
    + inversion Ha; subst. eauto.
    + apply (IH Hrest i j); auto. lia.
Qed.

(** C9.  The clipped lengths of a window are [min(T_ys[i] - t, l)], one
    per sample of the sub-batch [i_first:]; they are not negative when
    those samples are active at [t] ([t < T_ys[i]]) and the window
    length is not negative. *)
Theorem C9_clipped_lengths :
  forall (T_ys : list Z) (i_first : nat) (t l : Z),
    length (seg_T_ys T_ys i_first t l) = (length T_ys - i_first)%nat /\
    (forall k T, nth_error T_ys (i_first + k) = Some T ->
       nth_error (seg_T_ys T_ys i_first t l) k = Some (Z.min (T - t) l)) /\
    (back_live T_ys t i_first -> (0 <= l)%Z ->
     Forall (fun v => (0 <= v)%Z) (seg_T_ys T_ys i_first t l)).
Proof.
  intros T_ys i_first t l.
  unfold seg_T_ys, np_clip_max, np_sub.
  repeat split.
  - rewrite !length_map, length_skipn. reflexivity.
  - intros k T HT. rewrite map_map.
    rewrite nth_error_map, nth_error_skipn, HT. reflexivity.
  - intros Hlive Hl. apply Forall_forall. intros v Hv.
    apply In_nth_error in Hv. destruct Hv as [k Hk].
    rewrite map_map, nth_error_map, nth_error_skipn in Hk.
    destruct (nth_error T_ys (i_first + k)) as [T|] eqn:HT; [|discriminate].
    simpl in Hk. inversion Hk; subst.
    assert (t < T)%Z by (apply (Hlive (i_first + k)%nat); [lia | exact HT]).
    lia.
Qed.

Lemma C9_clipped_lengths_witness :
  seg_T_ys [4; 10]%Z 1 8 4 = [2]%Z /\
  Forall (fun v => (0 <= v)%Z) (seg_T_ys [4; 10]%Z 1 8 4).
Proof.
  split; [reflexivity|].
  apply (proj2 (proj2 (@C9_clipped_lengths [4; 10]%Z 1%nat 8%Z 4%Z))).
  - intros i T Hi HT. destruct i as [|[|i]]; simpl in HT.
    + lia.
    + inversion HT; subst. lia.
    + destruct i; discriminate.
  - lia.
Defined.

(* ===================================================================== *)
(** ** Reasoning about computations                                       *)
(* ===================================================================== *)

Section MonadFacts.

Variable P : Type.

Lemma bind_ok {A B} (m : M P A) (k : A -> M P B) w a w' :
  m w = (Ok a, w') -> bind m k w = k a w'.
Proof. intros H. unfold bind. rewrite H. reflexivity. Qed.


Lemma for_each_cons {A S} (x : A) xs (body : A -> S -> M P S) s :
  for_each (x :: xs) body s = bind (body x s) (for_each xs body).
Proof. reflexivity. Qed.

Lemma keeps_mode_ret {A} md ok (a : A) : keeps_mode (P:=P) md ok (ret a).
Proof.
  intros w Hw. simpl. split; [exact Hw|].
  exists []. rewrite app_nil_r. auto.
Qed.

Lemma keeps_mode_lift {A} md ok (r : result A) : keeps_mode (P:=P) md ok (lift r).
Proof.
  intros w Hw. simpl. split; [exact Hw|].
  exists []. rewrite app_nil_r. auto.
Qed.

Lemma keeps_mode_raise {A} md ok e : keeps_mode (P:=P) (A:=A) md ok (raise e).
Proof.
  intros w Hw. simpl. split; [exact Hw|].
  exists []. rewrite app_nil_r. auto.
Qed.

Lemma keeps_mode_emit md (ok : event -> Prop) e :
  ok e -> keeps_mode (P:=P) md ok (emit e).
Proof.
  intros He w Hw. simpl. split; [exact Hw|].
  exists [e]. auto.
Qed.

Lemma keeps_mode_update md ok f : keeps_mode (P:=P) md ok (update_params f).
Proof.
  intros w Hw. simpl. split; [exact Hw|].
  exists []. rewrite app_nil_r. auto.
Qed.

Lemma keeps_mode_with_params {A} md ok (f : P -> mode -> result A) :
  keeps_mode md ok (with_params f).
Proof.
  intros w Hw. simpl. split; [exact Hw|].
  exists []. rewrite app_nil_r. auto.
Qed.

Lemma keeps_mode_bind {A B} md ok (m : M P A) (k : A -> M P B) :
  keeps_mode md ok m -> (forall a, keeps_mode md ok (k a)) ->
  keeps_mode md ok (bind m k).
Proof.
  intros Hm Hk w Hw. unfold bind.
  destruct (Hm w Hw) as (Hmode & new & Hlog & Hnew).
  destruct (m w) as [[a|e] w1]; simpl in *.
  - destruct (Hk a w1 Hmode) as (Hmode2 & new2 & Hlog2 & Hnew2).
    split; [exact Hmode2|].
    exists (new ++ new2). rewrite Hlog2, Hlog, app_assoc. split; [reflexivity|].
    apply Forall_app. auto.
  - split; [exact Hmode|]. exists new. auto.
Qed.

Lemma keeps_mode_for_each {A S} md ok (xs : list A) (body : A -> S -> M P S) :
  (forall x s, In x xs -> keeps_mode md ok (body x s)) ->
  forall s, keeps_mode md ok (for_each xs body s).
Proof.
  induction xs as [|x xs IH]; intros Hbody s; simpl.
  - apply keeps_mode_ret.
  - apply keeps_mode_bind.
    + apply Hbody. left. reflexivity.
    + intros s'. apply IH. intros x' s'' Hin. apply Hbody. right. exact Hin.
Qed.

Lemma keeps_mode_for_break {A S} md ok (xs : list A)
    (body : A -> S -> M P (flow S)) :
  (forall x s, In x xs -> keeps_mode md ok (body x s)) ->
  forall s, keeps_mode md ok (for_break xs body s).
Proof.
  induction xs as [|x xs IH]; intros Hbody s; simpl.
  - apply keeps_mode_ret.
  - apply keeps_mode_bind.
    + apply Hbody. left. reflexivity.
    + intros [s'|s'].
      * apply IH. intros x' s'' Hin. apply Hbody. right. exact Hin.
      * apply keeps_mode_ret.
Qed.

Lemma keeps_mode_bind_lift {A B} md ok (r : result A) (k : A -> M P B) :
  (forall a, r = Ok a -> keeps_mode md ok (k a)) ->
  keeps_mode md ok (bind (lift r) k).
Proof.
  intros Hk w Hw. unfold bind, lift. destruct r as [a|e].
  - apply (Hk a eq_refl w Hw).
  - simpl. split; [exact Hw|]. exists []. rewrite app_nil_r. auto.
Qed.

Lemma bind_inv_ok {A B} (m : M P A) (k : A -> M P B) w b w' :
  bind m k w = (Ok b, w') ->
  exists a w1, m w = (Ok a, w1) /\ k a w1 = (Ok b, w').
Proof.
  unfold bind. destruct (m w) as [[a|e] w1]; intros H.
  - exists a, w1. auto.
  - discriminate.
Qed.

Lemma lift_inv_ok {A} (r : result A) (w : world P) a w' :
  lift r w = (Ok a, w') -> r = Ok a /\ w' = w.
Proof. unfold lift. intros H. inversion H. auto. Qed.

(** A property of the loop variable that every iteration keeps. *)
Lemma for_each_inv {A S} (I : S -> Prop) (xs : list A) (body : A -> S -> M P S) :
  (forall x s w s' w', In x xs -> I s -> body x s w = (Ok s', w') -> I s') ->
  forall s w s' w', I s -> for_each xs body s w = (Ok s', w') -> I s'.
Proof.
  induction xs as [|x xs IH]; intros Hbody s w s' w' Hs Hrun; simpl in Hrun.
  - inversion Hrun; subst. exact Hs.
  - unfold bind in Hrun. destruct (body x s w) as [[s1|e] w1] eqn:Hb.
    + eapply IH; [|eapply Hbody; [left; reflexivity | exact Hs | exact Hb]
                  |exact Hrun].
      intros x' s0 w0 s0' w0' Hin. apply Hbody. right. exact Hin.
    + discriminate.
Qed.

(** A loop whose iterations all return does return. *)
Lemma for_each_total {A S} (I : S -> Prop) (xs : list A) (body : A -> S -> M P S) :
  (forall x s w, In x xs -> I s ->
     exists s' w', body x s w = (Ok s', w') /\ I s') ->
  forall s w, I s -> exists s' w', for_each xs body s w = (Ok s', w') /\ I s'.
Proof.
  induction xs as [|x xs IH]; intros Hbody s w Hs; simpl.
  - exists s, w. auto.
  - destruct (Hbody x s w (or_introl eq_refl) Hs) as (s1 & w1 & Hb & Hs1).
    erewrite bind_ok by exact Hb. apply IH; auto.
    intros x' s0 w0 Hin. apply Hbody. right. exact Hin.
Qed.

End MonadFacts.


(* ===================================================================== *)
(** ** Properties of [_calc_loss]                                         *)
(* ===================================================================== *)

Lemma nth_error_upd_at_other (v : list Q) (i j : nat) (f : Q -> Q) :
  i <> j -> nth_error (upd_at v j f) i = nth_error v i.
Proof.
  revert i j. induction v as [|a v IH]; intros i j Hne; simpl.
  - destruct j; reflexivity.
  - destruct j as [|j], i as [|i]; simpl; try reflexivity; try lia.
    apply IH. lia.
Qed.

Lemma length_upd_at (v : list Q) (i : nat) (f : Q -> Q) :
  length (upd_at v i f) = length v.
Proof.
  revert i. induction v as [|a v IH]; intros [|i]; simpl; auto.
Qed.

Lemma in_enumerate {A} (xs : list A) (i : nat) (x : A) :
  In (i, x) (enumerate xs) -> (i < length xs)%nat.
Proof.
  unfold enumerate. intros Hin. apply in_combine_l in Hin.
  apply in_seq in Hin. lia.
Qed.

Section LossFacts.

Variable P : Type.
Variable hp : hparams.
Variable self : trainer P.

Lemma call_criterion_keeps_mode md (ok : event -> Prop) i c a b :
  ok (EvCriterion i) -> keeps_mode (P:=P) md ok (call_criterion i c a b).
Proof.
  intros Hok. unfold call_criterion. apply keeps_mode_bind.
  - apply keeps_mode_emit. exact Hok.
  - intros _. apply keeps_mode_lift.
Qed.

(** The events logged by the loss computation are calls of criterions
    whose weight is not zero, and the mode is left alone. *)
Section KeepsMode.

Variable md : mode.
Variable ok : event -> Prop.
Hypothesis ok_criterion :
  forall j w, nth_error (weight_loss hp) j = Some w ->
              Qeq_bool w 0 = false -> ok (EvCriterion j).

Lemma index_weight j w :
  index (weight_loss hp) j = Ok w -> nth_error (weight_loss hp) j = Some w.
Proof.
  unfold index. destruct (nth_error (weight_loss hp) j); congruence.
Qed.

Lemma calc_loss_fast_keeps_mode y output T_ys :
  keeps_mode md ok (calc_loss_fast hp self y output T_ys).
Proof.
  unfold calc_loss_fast. apply keeps_mode_for_each.
  intros [i c] loss _. unfold fast_body.
  apply keeps_mode_bind_lift. intros w Hw.
  apply index_weight in Hw.
  destruct (Qeq_bool w 0) eqn:Hz; [apply keeps_mode_ret|].
  apply keeps_mode_bind; [apply call_criterion_keeps_mode; eauto|].
  intros v. apply keeps_mode_bind; [apply keeps_mode_lift|].
  intros T0. apply keeps_mode_ret.
Qed.

Lemma calc_loss_ragged_keeps_mode y output T_ys :
  keeps_mode md ok (calc_loss_ragged hp self y output T_ys).
Proof.
  unfold calc_loss_ragged. apply keeps_mode_for_each.
  intros [i c] loss _. unfold ragged_body.
  apply keeps_mode_bind_lift. intros w Hw.
  apply index_weight in Hw.
  destruct (Qeq_bool w 0) eqn:Hz; [apply keeps_mode_ret|].
  apply keeps_mode_bind.
  - apply keeps_mode_for_each. intros [T b] loss' _. unfold ragged_item.
    apply keeps_mode_bind; [apply call_criterion_keeps_mode; eauto|].
    intros v. apply keeps_mode_ret.
  - intros loss'. apply keeps_mode_ret.
Qed.

Lemma calc_loss_keeps_mode y output T_ys :
  keeps_mode md ok (_calc_loss hp self y output T_ys).
Proof.
  unfold _calc_loss. apply keeps_mode_bind; [apply keeps_mode_lift|].
  intros [|].
  - apply calc_loss_fast_keeps_mode.
  - apply calc_loss_ragged_keeps_mode.
Qed.

End KeepsMode.

(** With a zero weight at index [i], the entry [i] of the loss vector
    is never written. *)
Section ZeroWeight.

Variable i : nat.
Variable wi : Q.
Hypothesis weight_i : nth_error (weight_loss hp) i = Some wi.
Hypothesis weight_zero : Qeq_bool wi 0 = true.

Lemma zero_weight_events j w :
  nth_error (weight_loss hp) j = Some w -> Qeq_bool w 0 = false ->
  EvCriterion j <> EvCriterion i.
Proof.
  intros Hj Hw Heq. inversion Heq; subst. congruence.
Qed.

Lemma fast_body_untouched y output T_ys ic s w s' w' :
  entry_untouched i s -> fast_body (P:=P) hp y output T_ys ic s w = (Ok s', w') ->
  entry_untouched i s'.
Proof.
  destruct ic as [j c]. intros Hs Hb. unfold fast_body in Hb.
  apply bind_inv_ok in Hb. destruct Hb as (wj & w1 & Hidx & Hb).
  apply lift_inv_ok in Hidx. destruct Hidx as [Hidx ->].
  apply index_weight in Hidx.
  destruct (Qeq_bool wj 0) eqn:Hz.
  - inversion Hb; subst. exact Hs.
  - apply bind_inv_ok in Hb. destruct Hb as (v & w2 & _ & Hb).
    apply bind_inv_ok in Hb. destruct Hb as (T0 & w3 & _ & Hb).
    inversion Hb; subst. unfold entry_untouched.
    rewrite nth_error_upd_at_other; [exact Hs|].
    intros ->. congruence.
Qed.

Lemma ragged_body_untouched y output T_ys ic s w s' w' :
  entry_untouched i s -> ragged_body (P:=P) hp y output T_ys ic s w = (Ok s', w') ->
  entry_untouched i s'.
Proof.
  destruct ic as [j c]. intros Hs Hb. unfold ragged_body in Hb.
  apply bind_inv_ok in Hb. destruct Hb as (wj & w1 & Hidx & Hb).
  apply lift_inv_ok in Hidx. destruct Hidx as [Hidx ->].
  apply index_weight in Hidx.
  destruct (Qeq_bool wj 0) eqn:Hz.
  - inversion Hb; subst. exact Hs.
  - assert (Hne : i <> j) by (intros ->; congruence).
    apply bind_inv_ok in Hb. destruct Hb as (s1 & w2 & Hin & Hb).
    inversion Hb; subst. unfold entry_untouched.
    rewrite nth_error_upd_at_other by exact Hne.
    refine (@for_each_inv P _ _ (entry_untouched i) _ _ _ s w s1 w' Hs Hin).
    intros [T b] s0 w0 s0' w0' _ Hs0 Hb0. unfold ragged_item in Hb0.
    apply bind_inv_ok in Hb0. destruct Hb0 as (v & w3 & _ & Hb0).
    inversion Hb0; subst. unfold entry_untouched.
    rewrite nth_error_upd_at_other by exact Hne. exact Hs0.
Qed.

Lemma zero_weight_skips y output T_ys :
  (i < length (criterions self))%nat ->
  skips_criterion i (calc_loss_fast hp self y output T_ys) /\
  skips_criterion i (calc_loss_ragged hp self y output T_ys) /\
  skips_criterion i (_calc_loss hp self y output T_ys).
Proof.
  intros Hi.
  assert (H0 : entry_untouched i (zeros (length (criterions self)))).
  { apply nth_error_repeat. exact Hi. }
  assert (Hfast : forall w loss,
             fst (calc_loss_fast hp self y output T_ys w) = Ok loss ->
             entry_untouched i loss).
  { intros w loss Hrun.
    destruct (calc_loss_fast hp self y output T_ys w) as [r w'] eqn:E.
    simpl in Hrun. subst r. unfold calc_loss_fast in E.
    refine (@for_each_inv P _ _ (entry_untouched i) _ _ _ _ w loss w' H0 E).
    intros x s w0 s' w0' _. apply fast_body_untouched. }
  assert (Hragged : forall w loss,
             fst (calc_loss_ragged hp self y output T_ys w) = Ok loss ->
             entry_untouched i loss).
  { intros w loss Hrun.
    destruct (calc_loss_ragged hp self y output T_ys w) as [r w'] eqn:E.
    simpl in Hrun. subst r. unfold calc_loss_ragged in E.
    refine (@for_each_inv P _ _ (entry_untouched i) _ _ _ _ w loss w' H0 E).
    intros x s w0 s' w0' _. apply ragged_body_untouched. }
  repeat split.
  - apply (@calc_loss_fast_keeps_mode (w_mode w) _ zero_weight_events
             y output T_ys w eq_refl).
  - apply Hfast.
  - apply (@calc_loss_ragged_keeps_mode (w_mode w) _ zero_weight_events
             y output T_ys w eq_refl).
  - apply Hragged.
  - apply (@calc_loss_keeps_mode (w_mode w) _ zero_weight_events
             y output T_ys w eq_refl).
  - intros loss Hrun. unfold _calc_loss, bind, lift in Hrun.
    destruct (all_equal_first T_ys) as [[|]|e]; simpl in Hrun.
    + apply (Hfast w). exact Hrun.
    + apply (Hragged w). exact Hrun.
    + discriminate.
Qed.

End ZeroWeight.

End LossFacts.

(** C8.  A criterion whose weight is zero is never called, on the fast
    path, on the ragged path and in [_calc_loss] as a whole, and the
    entry of the returned loss vector at its index is 0. *)
Theorem C8_zero_weight_criterion_skipped :
  forall (P : Type) (hp : hparams) (self : trainer P) (y output : tensor)
         (T_ys : list Z) (i : nat) (wi : Q),
    (i < length (criterions self))%nat ->
    nth_error (weight_loss hp) i = Some wi ->
    Qeq_bool wi 0 = true ->
    skips_criterion i (calc_loss_fast hp self y output T_ys) /\
    skips_criterion i (calc_loss_ragged hp self y output T_ys) /\
    skips_criterion i (_calc_loss hp self y output T_ys).
Proof.
  intros P hp self y output T_ys i wi Hi Hwi Hzero.
  apply (@zero_weight_skips P hp self i wi Hwi Hzero y output T_ys Hi).
Qed.

Lemma C8_zero_weight_criterion_skipped_witness :
  let hp := mkHparams 4 4 2 1 1 [0; 1]%Q in
  let self := identity_trainer [L1Loss; MSELoss] in
  let y := full 2 1 4 0%Q in
  let output := full 2 1 4 1%Q in
  skips_criterion 0 (calc_loss_fast hp self y output [4; 2]%Z) /\
  skips_criterion 0 (calc_loss_ragged hp self y output [4; 2]%Z) /\
  skips_criterion 0 (_calc_loss hp self y output [4; 2]%Z).
Proof.
  intros hp self y output.
  apply (@C8_zero_weight_criterion_skipped unit hp self y output [4; 2]%Z 0%nat 0%Q).
  - simpl. lia.
  - reflexivity.
  - reflexivity.
Defined.

Lemma upd_at_compose (v : list Q) (i : nat) (f g : Q -> Q) :
  upd_at (upd_at v i f) i g = upd_at v i (fun a => g (f a)).
Proof.
  revert i. induction v as [|a v IH]; intros [|i]; simpl; auto.
  rewrite IH. reflexivity.
Qed.

Lemma upd_at_same (v : list Q) (i : nat) : upd_at v i (fun a => a) = v.
Proof.
  revert i. induction v as [|a v IH]; intros [|i]; simpl; auto.
  rewrite IH. reflexivity.
Qed.


Lemma same_shape_dims (a b : tensor) :
  same_shape a b = true ->
  dimB a = dimB b /\ dimC a = dimC b /\ dimT a = dimT b.
Proof.
  unfold same_shape. intros H.
  apply andb_true_iff in H. destruct H as [H HT].
  apply andb_true_iff in H. destruct H as [HB HC].
  apply Nat.eqb_eq in HB, HC, HT. auto.
Qed.

Lemma same_shape_items (output y : tensor) (b : nat) (T : Z) :
  same_shape output y = true ->
  same_shape (take_upto (item output b) T) (take_upto (item y b) T) = true.
Proof.
  intros H. apply same_shape_dims in H. destruct H as (_ & HC & HT).
  unfold same_shape, take_upto, item. simpl.
  rewrite HC, HT, !Nat.eqb_refl. reflexivity.
Qed.

Section LossRuns.

Variable P : Type.
Variable hp : hparams.

Lemma call_criterion_run i c a b (w : world P) :
  same_shape a b = true ->
  call_criterion i c a b w = (Ok (reduce_sum c a b), logged w (EvCriterion i)).
Proof.
  intros H. unfold call_criterion, bind, emit, lift, apply_criterion.
  rewrite H. reflexivity.
Qed.

Lemma fast_body_skip y output T_ys i c wi s (w : world P) :
  index (weight_loss hp) i = Ok wi -> Qeq_bool wi 0 = true ->
  fast_body hp y output T_ys (i, c) s w = (Ok s, w).
Proof.
  intros Hi Hz. unfold fast_body, bind, lift. rewrite Hi, Hz. reflexivity.
Qed.

Lemma fast_body_run y output T_ys i c wi T0 s (w : world P) :
  index (weight_loss hp) i = Ok wi -> Qeq_bool wi 0 = false ->
  same_shape output y = true -> index T_ys 0 = Ok T0 ->
  fast_body hp y output T_ys (i, c) s w =
  (Ok (upd_at s i (fun _ => (wi * reduce_sum c output y / inject_Z T0)%Q)),
   logged w (EvCriterion i)).
Proof.
  intros Hi Hz Hsh HT. unfold fast_body.
  unfold bind at 1. unfold lift at 1. rewrite Hi, Hz.
  unfold bind at 1. rewrite (@call_criterion_run i c output y w Hsh).
  unfold bind, lift, ret. rewrite HT. reflexivity.
Qed.


Lemma ragged_items_run y output i c items :
  same_shape output y = true ->
  forall s (w : world P), exists w',
    for_each items (ragged_item i c y output) s w =
    (Ok (upd_at s i (fun acc => fold_left (item_step c y output) items acc)), w').
Proof.
  intros Hsh. induction items as [|[T b] items IH]; intros s w; simpl.
  - exists w. rewrite upd_at_same. reflexivity.
  - assert (Hb : ragged_item i c y output (T, b) s w =
                 (Ok (upd_at s i (fun acc => item_step c y output acc (T, b))),
                  logged w (EvCriterion i))).
    { unfold ragged_item, bind.
      rewrite (@call_criterion_run i c _ _ w (@same_shape_items output y b T Hsh)).
      reflexivity. }
    erewrite bind_ok by exact Hb.
    destruct (IH (upd_at s i (fun acc => item_step c y output acc (T, b)))
                 (logged w (EvCriterion i))) as [w' Hrun].
    exists w'. rewrite Hrun, upd_at_compose. reflexivity.
Qed.

Lemma ragged_body_skip y output T_ys i c wi s (w : world P) :
  index (weight_loss hp) i = Ok wi -> Qeq_bool wi 0 = true ->
  ragged_body hp y output T_ys (i, c) s w = (Ok s, w).
Proof.
  intros Hi Hz. unfold ragged_body, bind, lift. rewrite Hi, Hz. reflexivity.
Qed.

Lemma ragged_body_run y output T_ys i c wi s (w : world P) :
  index (weight_loss hp) i = Ok wi -> Qeq_bool wi 0 = false ->
  same_shape output y = true ->
  exists w',
    ragged_body hp y output T_ys (i, c) s w =
    (Ok (upd_at s i (fun acc =>
           (fold_left (item_step c y output) (zip_items T_ys y output) acc * wi)%Q)),
     w').
Proof.
  intros Hi Hz Hsh. unfold ragged_body.
  unfold bind at 1. unfold lift at 1. rewrite Hi, Hz.
  destruct (@ragged_items_run y output i c (zip_items T_ys y output) Hsh s w)
    as [w' Hrun].
  exists w'. unfold bind. rewrite Hrun. unfold ret.
  rewrite upd_at_compose. reflexivity.
Qed.


End LossRuns.

Lemma index_in_range {A} (xs : list A) (i : nat) :
  (i < length xs)%nat -> exists x, index xs i = Ok x.
Proof.
  intros Hi. unfold index. destruct (nth_error xs i) as [x|] eqn:E.
  - exists x. reflexivity.
  - apply nth_error_None in E. lia.
Qed.

Lemma all_equal_first_nonempty (T_ys : list Z) :
  T_ys <> [] -> exists b, all_equal_first T_ys = Ok b.
Proof.
  destruct T_ys as [|T0 rest]; [congruence|]. intros _. eexists. reflexivity.
Qed.

Lemma index_first_nonempty (T_ys : list Z) :
  T_ys <> [] -> exists T0, index T_ys 0 = Ok T0.
Proof.
  destruct T_ys as [|T0 rest]; [congruence|]. intros _. exists T0. reflexivity.
Qed.

Section LossTotal.

Variable P : Type.
Variable hp : hparams.
Variable self : trainer P.
Variables y output : tensor.
Variable T_ys : list Z.
Hypothesis shapes : same_shape output y = true.
Hypothesis weights : (length (criterions self) <= length (weight_loss hp))%nat.
Hypothesis nonempty : T_ys <> [].

Lemma calc_loss_fast_total (w : world P) :
  exists loss w', calc_loss_fast hp self y output T_ys w = (Ok loss, w') /\ sized_for self loss.
Proof.
  unfold calc_loss_fast.
  apply (@for_each_total P _ _ (sized_for self)).
  - intros [i c] s w0 Hin Hs. apply in_enumerate in Hin.
    destruct (@index_in_range _ (weight_loss hp) i) as [wi Hwi]; [lia|].
    destruct (Qeq_bool wi 0) eqn:Hz.
    + exists s, w0. split; [eapply fast_body_skip; eassumption | exact Hs].
    + destruct (index_first_nonempty nonempty) as [T0 HT0].
      eexists. eexists. split.
      * apply (@fast_body_run P hp y output T_ys i c wi T0 s w0 Hwi Hz shapes HT0).
      * unfold sized_for. rewrite length_upd_at. exact Hs.
  - unfold sized_for, zeros. apply repeat_length.
Qed.

Lemma calc_loss_ragged_total (w : world P) :
  exists loss w', calc_loss_ragged hp self y output T_ys w = (Ok loss, w') /\ sized_for self loss.
Proof.
  unfold calc_loss_ragged.
  apply (@for_each_total P _ _ (sized_for self)).
  - intros [i c] s w0 Hin Hs. apply in_enumerate in Hin.
    destruct (@index_in_range _ (weight_loss hp) i) as [wi Hwi]; [lia|].
    destruct (Qeq_bool wi 0) eqn:Hz.
    + exists s, w0. split; [eapply ragged_body_skip; eassumption | exact Hs].
    + destruct (@ragged_body_run P hp y output T_ys i c wi s w0 Hwi Hz shapes)
        as [w' Hrun].
      eexists. exists w'. split; [exact Hrun|].
      unfold sized_for. rewrite length_upd_at. exact Hs.
  - unfold sized_for, zeros. apply repeat_length.
Qed.

Lemma calc_loss_total (w : world P) :
  exists loss, fst (_calc_loss hp self y output T_ys w) = Ok loss /\ sized_for self loss.
Proof.
  unfold _calc_loss, bind, lift.
  destruct (all_equal_first_nonempty nonempty) as [uniform Hu]. rewrite Hu.
  destruct uniform.
  - destruct (calc_loss_fast_total w) as (loss & w' & Hrun & Hs).
    rewrite Hrun. exists loss. auto.
  - destruct (calc_loss_ragged_total w) as (loss & w' & Hrun & Hs).
    rewrite Hrun. exists loss. auto.
Qed.

End LossTotal.

(** C6 (as amended).  For an output of the shape of [y] and one weight
    per criterion, the loss computation raises exactly when [T_ys] is
    empty (the index error of [T_ys[0]]); with a non-empty [T_ys] it
    returns a loss vector, whatever the length of [T_ys] and whatever
    the sign of its entries. *)
Theorem C6_loss_raises_only_on_empty_lengths :
  forall (P : Type) (hp : hparams) (self : trainer P) (y output : tensor)
         (T_ys : list Z) (w : world P),
    same_shape output y = true ->
    (length (criterions self) <= length (weight_loss hp))%nat ->
    (T_ys = [] ->
       fst (_calc_loss hp self y output T_ys w) = Raise IndexError) /\
    (T_ys <> [] ->
       exists loss, fst (_calc_loss hp self y output T_ys w) = Ok loss /\
                    length loss = length (criterions self)).
Proof.
  intros P hp self y output T_ys w Hsh Hw. split.
  - intros ->. reflexivity.
  - intros Hne. apply calc_loss_total; assumption.
Qed.

Lemma C6_loss_raises_only_on_empty_lengths_witness :
  let hp := hp_one 4 2 1 in
  let self := identity_trainer [L1Loss] in
  let y := full 2 1 4 0%Q in
  let output := full 2 1 4 1%Q in
  ([0; -3]%Z = [] ->
     fst (_calc_loss hp self y output [0; -3]%Z world0) = Raise IndexError) /\
  ([0; -3]%Z <> [] ->
     exists loss, fst (_calc_loss hp self y output [0; -3]%Z world0) = Ok loss /\
                  length loss = length (criterions self)).
Proof.
  intros hp self y output.
  apply (@C6_loss_raises_only_on_empty_lengths unit hp self y output [0; -3]%Z world0).
  - reflexivity.
  - simpl. lia.
Defined.

(** C6 fails as stated: on a batch of two samples the loss computation
    returns a loss vector for a [T_ys] of one entry (fast path), for a
    [T_ys] of three entries (ragged path), and for window lengths that
    are zero or negative on either path. *)
Lemma C6_counterexample :
  let hp := hp_one 4 2 1 in
  let self := identity_trainer [L1Loss] in
  let y := full 2 1 4 0%Q in
  let output := full 2 1 4 1%Q in
  dimB y = 2%nat /\ dimB output = 2%nat /\
  is_ok (fst (_calc_loss hp self y output [4]%Z world0)) = true /\
  is_ok (fst (_calc_loss hp self y output [4; 2; 1]%Z world0)) = true /\
  is_ok (fst (_calc_loss hp self y output [0; 0]%Z world0)) = true /\
  is_ok (fst (_calc_loss hp self y output [0; -3]%Z world0)) = true.
Proof.
  repeat split; vm_compute; reflexivity.
Qed.




(** The two branches of the loss computation on a batch whose samples
    all have the length [T0], which covers the time extent of [y]. *)
Section FastRagged.

Variable P : Type.
Variable hp : hparams.
Variables y output : tensor.
Variable T0 : Z.
Variable B : nat.
Hypothesis shapes : same_shape output y = true.
Hypothesis batch_len : B = dimB y.
Hypothesis batch_nonempty : (0 < B)%nat.
Hypothesis covers : (Z.of_nat (dimT y) <= T0)%Z.







End FastRagged.






(* ===================================================================== *)
(** ** Properties of [validate]                                           *)
(* ===================================================================== *)

Section ValidateFacts.

Variable P : Type.
Variable hp : hparams.
Variable self : trainer P.

Lemma call_model_keeps_mode md (ok : event -> Prop) x :
  (forall b, ok (EvForward md b)) -> keeps_mode md ok (call_model self x).
Proof.
  intros Hok w Hw. unfold call_model, bind, get_mode, emit, with_params. simpl.
  split; [exact Hw|].
  exists [EvForward (w_mode w) (dimB x)]. split; [reflexivity|].
  constructor; [rewrite Hw; apply Hok | constructor].
Qed.

Lemma add_scalars_keeps_mode md (ok : event -> Prop) total each avg epoch :
  (forall tg v, ok (EvAddScalar tg v epoch)) ->
  keeps_mode md ok (add_scalars self total each avg epoch).
Proof.
  intros Hok. unfold add_scalars. apply keeps_mode_bind.
  - apply keeps_mode_emit. apply Hok.
  - intros _. destruct (1 <? length (criterions self))%nat.
    + apply keeps_mode_for_each. intros [i ll] [] _.
      apply keeps_mode_emit. apply Hok.
    + apply keeps_mode_ret.
Qed.

Lemma validate_batch_keeps_mode epoch it avg :
  keeps_mode EvalMode forward_in_eval (validate_batch hp self epoch it avg).
Proof.
  destruct it as [i_iter data]. unfold validate_batch.
  apply keeps_mode_bind.
  { apply call_model_keeps_mode. intros b. reflexivity. }
  intros output. apply keeps_mode_bind.
  { apply calc_loss_keeps_mode. intros j w _ _. exact I. }
  intros loss. apply keeps_mode_bind.
  { apply keeps_mode_emit. exact I. }
  intros _. apply keeps_mode_bind; [|intros _; apply keeps_mode_ret].
  destruct (i_iter =? 0)%nat; [|apply keeps_mode_ret].
  apply keeps_mode_bind.
  - unfold _post_one. apply keeps_mode_bind; [apply keeps_mode_lift|].
    intros T. destruct (0 <? dimB output)%nat;
      [apply keeps_mode_ret | apply keeps_mode_raise].
  - intros _. apply keeps_mode_emit. exact I.
Qed.

Lemma validate_loop_keeps_mode (ld : loader) (epoch : Z) :
  keeps_mode EvalMode forward_in_eval
    (for_each (enumerate (batches ld epoch)) (validate_batch hp self epoch)
       (zeros (length (criterions self)))).
Proof.
  apply keeps_mode_for_each. intros it avg _.
  apply validate_batch_keeps_mode.
Qed.

Lemma backward_and_step_keeps_mode md (ok : event -> Prop) grad seg_x seg_y seg_T :
  ok EvBackward -> ok EvOptStep ->
  keeps_mode md ok (backward_and_step self grad seg_x seg_y seg_T).
Proof.
  intros Hb Ho. unfold backward_and_step.
  apply keeps_mode_bind; [apply keeps_mode_emit; exact Hb|].
  intros _. destruct grad; [|apply keeps_mode_raise].
  apply keeps_mode_bind; [apply keeps_mode_emit; exact Ho|].
  intros _. apply keeps_mode_update.
Qed.

End ValidateFacts.

(** C7 (as amended).  [validate] switches the model to evaluation mode,
    so that every forward pass it makes runs in evaluation mode, and it
    switches the model back to training mode when it returns; when an
    exception is raised during validation, the model is left in
    evaluation mode. *)
Theorem C7_validate_restores_train_mode_on_return :
  forall (P : Type) (hp : hparams) (self : trainer P) (ld : loader)
         (epoch : Z) (w : world P),
    (exists new,
        w_log (snd (validate hp self ld epoch w)) = w_log w ++ new /\
        Forall forward_in_eval new) /\
    match fst (validate hp self ld epoch w) with
    | Ok _ => w_mode (snd (validate hp self ld epoch w)) = TrainMode
    | Raise _ => w_mode (snd (validate hp self ld epoch w)) = EvalMode
    end.
Proof.
  intros P hp self ld epoch w.
  pose proof (@validate_loop_keeps_mode P hp self ld epoch
                (mkWorld (w_params w) EvalMode (w_log w)) eq_refl) as Hloop.
  destruct (validate hp self ld epoch w) as [r w'] eqn:Hv.
  unfold validate, bind, set_mode, ret in Hv. simpl in Hloop |- *.
  destruct (for_each (enumerate (batches ld epoch)) (validate_batch hp self epoch)
              (zeros (length (criterions self)))
              (mkWorld (w_params w) EvalMode (w_log w))) as [[avg|e] w2].
  - simpl in Hloop. destruct Hloop as (Hmode & new1 & Hlog1 & Hnew1).
    pose proof (@add_scalars_keeps_mode P self EvalMode forward_in_eval
                  LossValid LossValidOf (vdiv avg (dataset_len ld)) epoch
                  (fun _ _ => I) w2 Hmode) as Hadd.
    destruct (add_scalars self LossValid LossValidOf
                (vdiv avg (dataset_len ld)) epoch w2) as [[u|e] w3];
      simpl in Hadd; destruct Hadd as (Hmode3 & new2 & Hlog2 & Hnew2);
      inversion Hv; subst; simpl.
    + split; [|reflexivity].
      exists (new1 ++ new2). rewrite Hlog2, Hlog1, app_assoc.
      split; [reflexivity | apply Forall_app; auto].
    + split; [|exact Hmode3].
      exists (new1 ++ new2). rewrite Hlog2, Hlog1, app_assoc.
      split; [reflexivity | apply Forall_app; auto].
  - simpl in Hloop. destruct Hloop as (Hmode & new1 & Hlog1 & Hnew1).
    inversion Hv; subst. split; [exists new1; auto | exact Hmode].
Qed.

(** C7 fails as stated: when the model raises during validation, the
    exception leaves [validate] with the model in evaluation mode,
    although it was in training mode before the call. *)
Lemma C7_counterexample :
  let hp := hp_one 5 1 1 in
  let self := failing_trainer [L1Loss] in
  let ld := fixed_loader 1 [ones_zeros 1 5 [5]%Z] in
  w_mode world0 = TrainMode /\
  fst (validate hp self ld 0 world0) = Raise RuntimeError /\
  w_mode (snd (validate hp self ld 0 world0)) = EvalMode.
Proof.
  repeat split.
Qed.

(* ===================================================================== *)
(** ** Properties of [train]                                              *)
(* ===================================================================== *)

Lemma range0_first (stop step : Z) :
  (0 < step)%Z -> (0 < stop)%Z -> exists rest, range0 stop step = Ok (0%Z :: rest).
Proof.
  intros Hstep Hstop. unfold range0, range_len.
  destruct (step =? 0)%Z eqn:E0; [apply Z.eqb_eq in E0; lia|].
  destruct (step <? 0)%Z eqn:E1; [apply Z.ltb_lt in E1; lia|].
  assert (Hq : (1 <= (stop + step - 1) / step)%Z).
  { apply Z.div_le_lower_bound; lia. }
  destruct (Z.to_nat ((stop + step - 1) / step)) as [|m] eqn:Em; [lia|].
  simpl. eexists. reflexivity.
Qed.

Lemma range0_members (stop step : Z) (ts : list Z) :
  (0 < step)%Z -> range0 stop step = Ok ts ->
  forall k t, nth_error ts k = Some t <->
              (t = Z.of_nat k * step /\ Z.of_nat k * step < stop)%Z.
Proof.
  intros Hstep Hr k t. unfold range0 in Hr.
  destruct (step =? 0)%Z eqn:E0; [apply Z.eqb_eq in E0; lia|].
  destruct (step <? 0)%Z eqn:E1; [apply Z.ltb_lt in E1; lia|].
  inversion Hr; subst ts. clear Hr.
  rewrite nth_error_map. unfold range_len.
  assert (Hlen : forall j : nat,
             (j < Z.to_nat ((stop + step - 1) / step))%nat <->
             (Z.of_nat j * step < stop)%Z).
  { intros j. split; intros H.
    - assert (Z.of_nat j < (stop + step - 1) / step)%Z by lia.
      assert (Z.of_nat j + 1 <= (stop + step - 1) / step)%Z by lia.
      pose proof (Z.mul_div_le (stop + step - 1) step Hstep). nia.
    - assert (Z.of_nat j + 1 <= (stop + step - 1) / step)%Z; [|lia].
      apply Z.div_le_lower_bound; nia. }
  rewrite nth_error_seq.
  destruct (Nat.ltb_spec k (Z.to_nat ((stop + step - 1) / step))) as [Hk|Hk];
    simpl; split.
  - intros H. inversion H; subst t. split; [reflexivity | apply Hlen; exact Hk].
  - intros [-> _]. reflexivity.
  - discriminate.
  - intros [_ Hlt]. apply Hlen in Hlt. lia.
Qed.

Lemma call_model_run {P} (self : trainer P) (x : tensor) (w : world P) :
  call_model self x w =
  (forward self (w_params w) (w_mode w) x, logged w (EvForward (w_mode w) (dimB x))).
Proof. reflexivity. Qed.

(** Window starts come in increasing order. *)
Lemma range0_sorted (stop step : Z) (ts : list Z) :
  (0 < step)%Z -> range0 stop step = Ok ts ->
  forall i j a b, (i <= j)%nat ->
    nth_error ts i = Some a -> nth_error ts j = Some b -> (a <= b)%Z.
Proof.
  intros Hstep Hr i j a b Hij Ha Hb.
  apply (@range0_members stop step ts Hstep Hr) in Ha.
  apply (@range0_members stop step ts Hstep Hr) in Hb.
  destruct Ha as [-> _], Hb as [-> _]. nia.
Qed.

Lemma range0_positive_step (stop step : Z) (t : Z) (ts : list Z) :
  range0 stop step = Ok (t :: ts) -> (0 < step)%Z.
Proof.
  unfold range0. destruct (step =? 0)%Z eqn:E0; [discriminate|].
  destruct (step <? 0)%Z eqn:E1; [discriminate|].
  intros _. apply Z.eqb_neq in E0. apply Z.ltb_ge in E1. lia.
Qed.

Section TrainFacts.

Variable P : Type.
Variable hp : hparams.
Variable self : trainer P.

(** A window whose target extent is below 5 only clears the
    gradients and breaks the loop: no model call, no loss, no
    optimizer step, no exception. *)
Lemma window_degenerate_breaks x y T_ys t st (w : world P) :
  (dimB y <= length T_ys)%nat ->
  (slice_extent (dimT y) t (t + l_target hp) < 5)%nat ->
  exists i',
    advance_i_first (dimB y) T_ys t (i_first st) = Ok i' /\
    window hp self x y T_ys t st w =
    (Ok (Break (mkWstate i' (loss_t st) (avg_loss st))), logged w EvZeroGrad).
Proof.
  intros HB Hext.
  destruct (@advance_i_first_spec (dimB y) T_ys t HB _ (i_first st) (le_n _))
    as (i' & Hrun & _).
  exists i'. split; [exact Hrun|].
  unfold window, bind, emit, lift. rewrite Hrun. simpl.
  apply Nat.ltb_lt in Hext. rewrite Hext. reflexivity.
Qed.

(** The remaining windows of a batch are not visited after a window
    whose target extent is below 5. *)
Lemma window_loop_stops_at_degenerate x y T_ys t rest st (w : world P) :
  (dimB y <= length T_ys)%nat ->
  (slice_extent (dimT y) t (t + l_target hp) < 5)%nat ->
  exists i',
    for_break (t :: rest) (window hp self x y T_ys) st w =
    (Ok (mkWstate i' (loss_t st) (avg_loss st)), logged w EvZeroGrad).
Proof.
  intros HB Hext.
  destruct (window_degenerate_breaks x y T_ys t st w HB Hext) as (i' & _ & Hwin).
  exists i'. simpl. erewrite bind_ok by exact Hwin. reflexivity.
Qed.

(** Whatever a window does afterwards, its cursor is the one returned
    by the while loop. *)
Lemma window_cursor x y T_ys t st (w w' : world P) fl :
  window hp self x y T_ys t st w = (Ok fl, w') ->
  advance_i_first (dimB y) T_ys t (i_first st) = Ok (i_first (flow_state fl)).
Proof.
  unfold window. intros H.
  apply bind_inv_ok in H. destruct H as ([] & w1 & _ & H).
  apply bind_inv_ok in H. destruct H as (i' & w2 & Hadv & H).
  apply lift_inv_ok in Hadv. destruct Hadv as [Hadv ->]. rewrite Hadv.
  destruct (dimT (narrow y i' t (t + l_target hp)) <? 5)%nat.
  - inversion H; subst. reflexivity.
  - apply bind_inv_ok in H. destruct H as (out & w3 & _ & H).
    apply bind_inv_ok in H. destruct H as (loss & w4 & _ & H).
    apply bind_inv_ok in H. destruct H as ([] & w5 & _ & H).
    inversion H; subst. reflexivity.
Qed.

(** What [train_batch] does once the window loop has returned. *)
Lemma train_batch_after_loop epoch n i_iter data acc (w w1 : world P) st :
  window_loop hp self (b_x data) (b_y data) (b_T_ys data) acc w = (Ok st, w1) ->
  n <> 0%Z ->
  exists pos,
    fractional_epoch hp epoch i_iter n = Ok pos /\
    train_batch hp self epoch n (i_iter, data) acc w =
    match loss_t st with
    | None =>
        (Raise AttributeError,
         mkWorld (sched_step self pos (w_params w1) (w_mode w1)) (w_mode w1)
                 (w_log w1 ++ [EvSchedStep pos]))
    | Some l =>
        (Ok (avg_loss st),
         mkWorld (sched_step self pos (w_params w1) (w_mode w1)) (w_mode w1)
                 ((w_log w1 ++ [EvSchedStep pos])
                    ++ [EvPostfix (vdiv l (Z.of_nat (length (b_T_ys data))))]))
    end.
Proof.
  intros Hloop Hn. unfold fractional_epoch.
  destruct (n =? 0)%Z eqn:E; [apply Z.eqb_eq in E; congruence|].
  eexists. split; [reflexivity|].
  unfold train_batch. erewrite bind_ok by exact Hloop.
  unfold fractional_epoch. rewrite E.
  unfold bind, lift, scheduler_step, bind, emit, update_params, report_last.
  simpl. destruct (loss_t st); reflexivity.
Qed.

(** A window that is trained on calls the model on the sub-batch from
    its cursor on, right after clearing the gradients, and its loss is
    the one [_calc_loss] returns for that sub-batch, the target window
    and the clipped lengths [seg_T_ys]. *)
Lemma window_trained_inputs x y T_ys t st (w w' : world P) st2 :
  window hp self x y T_ys t st w = (Ok (Continue st2), w') ->
  exists out loss w4 rest,
    forward self (w_params w) (w_mode w)
      (narrow x (i_first st2) t (t + l_input hp)) = Ok out /\
    _calc_loss hp self (narrow y (i_first st2) t (t + l_target hp))
      (take_time out (slice_extent (dimT y) t (t + l_target hp)))
      (seg_T_ys T_ys (i_first st2) t (l_target hp))
      (logged (logged w EvZeroGrad) (EvForward (w_mode w) (dimB x - i_first st2)))
      = (Ok loss, w4) /\
    loss_t st2 = Some loss /\
    w_log w' =
    w_log w ++ EvZeroGrad :: EvForward (w_mode w) (dimB x - i_first st2) :: rest.
Proof.
  unfold window. intros H.
  apply bind_inv_ok in H. destruct H as ([] & w1 & Hz & H).
  inversion Hz; subst w1. clear Hz.
  apply bind_inv_ok in H. destruct H as (i' & w2 & Hadv & H).
  apply lift_inv_ok in Hadv. destruct Hadv as [Hadv ->].
  destruct (dimT (narrow y i' t (t + l_target hp)) <? 5)%nat; [inversion H|].
  apply bind_inv_ok in H. destruct H as (out & w3 & Hm & H).
  rewrite call_model_run in Hm. inversion Hm as [[Hf Hw3]]. clear Hm.
  apply bind_inv_ok in H. destruct H as (loss & w4 & Hl & H).
  apply bind_inv_ok in H. destruct H as ([] & w5 & Hb & H).
  inversion H; subst st2 w'. clear H. simpl i_first. simpl loss_t.
  match type of Hl with
  | _calc_loss _ _ ?a ?b ?c _ = _ =>
      pose proof (@calc_loss_keeps_mode P hp self (w_mode w3) (fun _ => True)
                    (fun _ _ _ _ => I) a b c w3 eq_refl) as Hcl
  end.
  rewrite Hl in Hcl. simpl in Hcl. destruct Hcl as (Hmd & new1 & Hlog1 & _).
  match type of Hb with
  | backward_and_step _ ?g ?a ?b ?c _ = _ =>
      pose proof (@backward_and_step_keeps_mode P self (w_mode w4) (fun _ => True)
                    g a b c I I w4 eq_refl) as Hbs
  end.
  rewrite Hb in Hbs. simpl in Hbs. destruct Hbs as (_ & new2 & Hlog2 & _).
  exists out, loss, w4, (new1 ++ new2).
  split; [exact Hf|]. split; [rewrite <- Hl, <- Hw3; reflexivity|].
  split; [reflexivity|].
  rewrite Hlog2, Hlog1, <- Hw3. unfold logged. simpl.
  rewrite <- !app_assoc. reflexivity.
Qed.

(** The while loop of a window run with every sample in front of the
    cursor exhausted leaves it so, and stops at a sample that is not. *)
Lemma window_front_done x y T_ys t st (w w' : world P) fl :
  dimB y = length T_ys ->
  (i_first st <= dimB y)%nat ->
  front_done T_ys t (i_first st) ->
  window hp self x y T_ys t st w = (Ok fl, w') ->
  (i_first (flow_state fl) <= dimB y)%nat /\
  front_done T_ys t (i_first (flow_state fl)) /\
  (forall T, nth_error T_ys (i_first (flow_state fl)) = Some T -> (t < T)%Z).
Proof.
  intros HB Hi Hfront Hwin.
  pose proof (window_cursor _ _ _ _ _ _ Hwin) as Hadv.
  destruct (@advance_i_first_spec (dimB y) T_ys t) with (k := (dimB y - i_first st)%nat)
      (i := i_first st) as (i' & Hrun & Hle & Hin & Hpass & Hstop); [lia | lia |].
  rewrite Hrun in Hadv. inversion Hadv as [Hi']. clear Hadv. rewrite <- Hi'.
  split; [auto|]. split.
  - intros j T Hj HT. destruct (Nat.lt_ge_cases j (i_first st)) as [Hlt|Hge].
    + apply (Hfront j); auto.
    + apply (Hpass j); auto.
  - intros T HT. apply Hstop; [|exact HT].
    rewrite HB. apply nth_error_Some. congruence.
Qed.

(** Over windows visited in increasing order of their start, every
    sample in front of the cursor is exhausted when a window begins. *)
Lemma visits_front_done x y T_ys ts st (w : world P) t st' w' :
  visits (window hp self x y T_ys) ts st w t st' w' ->
  dimB y = length T_ys ->
  (forall i j a b, (i <= j)%nat ->
     nth_error ts i = Some a -> nth_error ts j = Some b -> (a <= b)%Z) ->
  (i_first st <= dimB y)%nat ->
  (forall t0, hd_error ts = Some t0 -> front_done T_ys t0 (i_first st)) ->
  (i_first st' <= dimB y)%nat /\ front_done T_ys t (i_first st').
Proof.
  intros Hv HB. induction Hv as [t ts st w | t0 ts st w st1 w1 t st' w' Hbody Hv IH];
    intros Hsorted Hi Hfront.
  - split; [exact Hi|]. apply Hfront. reflexivity.
  - destruct (@window_front_done x y T_ys t0 st w w1 (Continue st1) HB Hi
                (Hfront t0 eq_refl) Hbody) as (Hi1 & Hfront1 & _).
    simpl in Hi1, Hfront1. apply IH.
    + intros i j a b Hij Ha Hb. apply (Hsorted (S i) (S j)); auto. lia.
    + exact Hi1.
    + intros t1 Ht1. destruct ts as [|t1' ts]; [discriminate|].
      simpl in Ht1. inversion Ht1; subst t1'.
      assert (t0 <= t1)%Z by (apply (Hsorted 0%nat 1%nat); auto).
      intros j T Hj HT. specialize (Hfront1 j T Hj HT). lia.
Qed.

End TrainFacts.

(** C1 (as amended).  The cursor advances from the front of the batch.
    In the window loop of [train], for every window that the loop
    visits, at its start [t], the cursor [i1] left by the while loop
    has [T_ys[i] <= t] for all [i < i1] and [T_ys[i1] > t] for the
    sample it points at, whatever the order of the lengths; when the
    lengths are sorted in ascending order, also [T_ys[i] > t] for all
    [i >= i1]; and a window that is trained on calls the model on the
    samples from [i1] on and takes as its loss what [_calc_loss] returns
    for these samples with the clipped lengths
    [seg_T_ys T_ys i1 t l_target].  For [T_ys = [5; 10]] and
    [l_target = 5], on a batch of time extent 10, the loop trains on
    both samples in the window at 0 (clipped lengths 5 and 5) and on the
    sample of length 10 alone in the window at 5 (clipped length 5). *)
Theorem C1_shrink_invariant :
  (forall (P : Type) (hp : hparams) (self : trainer P) (x y : tensor)
          (T_ys ts : list Z) (acc : list Q) (w : world P)
          (t : Z) (st : wstate) (w1 : world P) (fl : flow wstate) (w2 : world P),
      dimB y = length T_ys ->
      range0 (Z.of_nat (dimT y)) (l_target hp) = Ok ts ->
      visits (window hp self x y T_ys) ts (mkWstate 0 None acc) w t st w1 ->
      window hp self x y T_ys t st w1 = (Ok fl, w2) ->
      (i_first (flow_state fl) <= length T_ys)%nat /\
      front_done T_ys t (i_first (flow_state fl)) /\
      (forall T, nth_error T_ys (i_first (flow_state fl)) = Some T -> (t < T)%Z) /\
      (ascending T_ys = true -> back_live T_ys t (i_first (flow_state fl))) /\
      (forall st2, fl = Continue st2 ->
         exists out loss w4 rest,
           forward self (w_params w1) (w_mode w1)
             (narrow x (i_first st2) t (t + l_input hp)) = Ok out /\
           _calc_loss hp self (narrow y (i_first st2) t (t + l_target hp))
             (take_time out (slice_extent (dimT y) t (t + l_target hp)))
             (seg_T_ys T_ys (i_first st2) t (l_target hp))
             (logged (logged w1 EvZeroGrad)
                (EvForward (w_mode w1) (dimB x - i_first st2)))
             = (Ok loss, w4) /\
           loss_t st2 = Some loss /\
           w_log w2 =
           w_log w1 ++ EvZeroGrad
                    :: EvForward (w_mode w1) (dimB x - i_first st2) :: rest))
  /\ (let hp := hp_one 5 2 1 in
      let self := identity_trainer [L1Loss] in
      let data := ones_zeros 2 10 [5; 10]%Z in
      exists st w',
        window_loop hp self (b_x data) (b_y data) (b_T_ys data) [0%Q] world0
          = (Ok st, w') /\
        i_first st = 1%nat /\
        forward_sizes (w_log w') = [2; 1]%nat /\
        seg_T_ys [5; 10]%Z 0 0 5 = [5; 5]%Z /\
        seg_T_ys [5; 10]%Z 1 5 5 = [5]%Z).
Proof.
  split.
  - intros P hp self x y T_ys ts acc w t st w1 fl w2 HB Hr Hv Hwin.
    assert (Hstep : (0 < l_target hp)%Z).
    { inversion Hv; subst; eapply range0_positive_step; exact Hr. }
    destruct (@visits_front_done P hp self x y T_ys ts _ w t st w1 Hv HB
                (@range0_sorted _ _ ts Hstep Hr)) as (Hi & Hfront).
    { simpl. lia. }
    { intros t0 _ j T Hj. simpl in Hj. lia. }
    destruct (@window_front_done P hp self x y T_ys t st w1 w2 fl HB Hi Hfront Hwin)
      as (Hi1 & Hfront1 & Hstop).
    split; [lia|]. split; [exact Hfront1|]. split; [exact Hstop|]. split.
    + intros Hasc j T Hj HT.
      destruct (nth_error T_ys (i_first (flow_state fl))) as [T1|] eqn:HT1.
      * assert (t < T1)%Z by (apply Hstop; reflexivity).
        pose proof (@ascending_nth T_ys Hasc _ j T1 T Hj HT1 HT). lia.
      * apply nth_error_None in HT1.
        assert (j < length T_ys)%nat by (apply nth_error_Some; congruence). lia.
    + intros st2 ->. eapply window_trained_inputs. exact Hwin.
  - do 2 eexists. split; [vm_compute; reflexivity|].
    repeat split; reflexivity.
Qed.

Lemma C1_shrink_invariant_witness :
  let hp := hp_one 5 2 1 in
  let self := identity_trainer [L1Loss] in
  let data := ones_zeros 2 10 [5; 10]%Z in
  exists st w1 fl w2,
    visits (window hp self (b_x data) (b_y data) (b_T_ys data)) [0; 5]%Z
      (mkWstate 0 None [0%Q]) world0 5%Z st w1 /\
    window hp self (b_x data) (b_y data) (b_T_ys data) 5 st w1 = (Ok fl, w2) /\
    i_first (flow_state fl) = 1%nat /\
    front_done [5; 10]%Z 5 (i_first (flow_state fl)) /\
    back_live [5; 10]%Z 5 (i_first (flow_state fl)).
Proof.
  intros hp self data.
  destruct (window hp self (b_x data) (b_y data) (b_T_ys data) 0
              (mkWstate 0 None [0%Q]) world0) as [r0 w1] eqn:E0.
  assert (Hr0 : exists st1, r0 = Ok (Continue st1) /\ i_first st1 = 0%nat).
  { vm_compute in E0. inversion E0; subst. eexists. split; reflexivity. }
  destruct Hr0 as (st1 & -> & Hst1).
  destruct (window hp self (b_x data) (b_y data) (b_T_ys data) 5 st1 w1)
    as [r1 w2] eqn:E1.
  assert (Hr1 : exists fl, r1 = Ok fl /\ i_first (flow_state fl) = 1%nat).
  { vm_compute in E0. inversion E0; subst. vm_compute in E1.
    inversion E1; subst. eexists. split; reflexivity. }
  destruct Hr1 as (fl & -> & Hfl).
  assert (Hv : visits (window hp self (b_x data) (b_y data) (b_T_ys data)) [0; 5]%Z
                 (mkWstate 0 None [0%Q]) world0 5%Z st1 w1).
  { apply visits_tail with (st1 := st1) (w1 := w1); [exact E0 | apply visits_head]. }
  exists st1, w1, fl, w2. split; [exact Hv|]. split; [exact E1|]. split; [exact Hfl|].
  destruct (proj1 C1_shrink_invariant unit hp self (b_x data) (b_y data)
              (b_T_ys data) [0; 5]%Z [0%Q] world0 5%Z st1 w1 fl w2)
    as (_ & Hfront & _ & Hback & _).
  - reflexivity.
  - reflexivity.
  - exact Hv.
  - exact E1.
  - split; [exact Hfront | apply Hback; reflexivity].
Defined.

(** C1 fails as stated: for the descending lengths [10; 5] with
    [l_target = 5] the loop trains on both samples in the window at 5,
    although sample 1 has [T_ys[1] = 5 <= 5]: the cursor is still 0 when
    the loop ends.  In the example of the claim ([T_ys = [10; 4]],
    [l_target = 4]) no window is trained on at all: the first window has
    4 time steps, the loop breaks there and the batch ends in
    [AttributeError]. *)
Lemma C1_counterexample :
  let self := identity_trainer [L1Loss] in
  (let hp := hp_one 5 2 1 in
   let data := ones_zeros 2 10 [10; 5]%Z in
   descending (b_T_ys data) = true /\
   (exists st w',
      window_loop hp self (b_x data) (b_y data) (b_T_ys data) [0%Q] world0
        = (Ok st, w') /\
      i_first st = 0%nat /\
      forward_sizes (w_log w') = [2; 2]%nat) /\
   ~ back_live (b_T_ys data) 5 0) /\
  (let hp := hp_one 4 2 1 in
   let data := ones_zeros 2 10 [10; 4]%Z in
   descending (b_T_ys data) = true /\
   w_log (snd (window_loop hp self (b_x data) (b_y data) (b_T_ys data) [0%Q] world0))
     = [EvZeroGrad] /\
   fst (train_batch hp self 0 2 (0%nat, data) [0%Q] world0) = Raise AttributeError).
Proof.
  intros self. split.
  - intros hp data. split; [reflexivity|]. split.
    + do 2 eexists. split; [vm_compute; reflexivity|]. split; reflexivity.
    + intros Hlive. specialize (Hlive 1%nat 5%Z (Nat.le_0_l 1) eq_refl). lia.
  - intros hp data. repeat split; vm_compute; reflexivity.
Qed.




(** C10.  When the first window of a batch already has a target extent
    below 5 (the batch's time extent or [l_target] is below 5), the
    window loop breaks at once with [loss_t] still None, the scheduler
    is stepped, and the progress report raises [AttributeError]:
    nothing but [zero_grad] and the scheduler step has happened. *)
Theorem C10_degenerate_first_window_raises :
  forall (P : Type) (hp : hparams) (self : trainer P) (epoch n : Z)
         (i_iter : nat) (data : batch) (acc : list Q) (w : world P),
    (0 < l_target hp)%Z ->
    (0 < dimT (b_y data))%nat ->
    (Nat.min (dimT (b_y data)) (Z.to_nat (l_target hp)) < 5)%nat ->
    (dimB (b_y data) <= length (b_T_ys data))%nat ->
    n <> 0%Z ->
    exists pos,
      fst (train_batch hp self epoch n (i_iter, data) acc w) = Raise AttributeError /\
      w_log (snd (train_batch hp self epoch n (i_iter, data) acc w))
        = w_log w ++ [EvZeroGrad; EvSchedStep pos].
Proof.
  intros P hp self epoch n i_iter data acc w Hl HT Hmin HB Hn.
  destruct (@range0_first (Z.of_nat (dimT (b_y data))) (l_target hp) Hl)
    as [rest Hrange]; [lia|].
  assert (Hext : (slice_extent (dimT (b_y data)) 0 (0 + l_target hp) < 5)%nat).
  { unfold slice_extent, slice_start. simpl Z.to_nat.
    rewrite Nat.min_0_r, Nat.sub_0_r. exact Hmin. }
  destruct (@window_degenerate_breaks P hp self (b_x data) (b_y data) (b_T_ys data)
              0%Z (mkWstate 0 None acc) w HB Hext) as (i' & _ & Hwin).
  assert (Hloop : window_loop hp self (b_x data) (b_y data) (b_T_ys data) acc w
                  = (Ok (mkWstate i' None acc), logged w EvZeroGrad)).
  { unfold window_loop. unfold bind at 1. unfold lift at 1. rewrite Hrange.
    simpl for_break. erewrite bind_ok by exact Hwin. reflexivity. }
  destruct (@train_batch_after_loop P hp self epoch n i_iter data acc w _ _ Hloop Hn)
    as (pos & _ & Hrun).
  exists pos. rewrite Hrun. simpl. split; [reflexivity|].
  rewrite <- app_assoc. reflexivity.
Qed.

Lemma C10_degenerate_first_window_raises_witness :
  let hp := hp_one 5 1 1 in
  let self := identity_trainer [L1Loss] in
  let data := ones_zeros 1 4 [4]%Z in
  exists pos,
    fst (train_batch hp self 0 1 (0%nat, data) [0%Q] world0) = Raise AttributeError /\
    w_log (snd (train_batch hp self 0 1 (0%nat, data) [0%Q] world0))
      = w_log world0 ++ [EvZeroGrad; EvSchedStep pos].
Proof.
  intros hp self data.
  apply (@C10_degenerate_first_window_raises unit hp self 0%Z 1%Z 0%nat data
           [0%Q] world0).
  - reflexivity.
  - simpl. lia.
  - simpl. lia.
  - simpl. lia.
  - discriminate.
Defined.

(** C4 (failing input).  A batch of time extent 4 with [l_target = 5]:
    its first window is below 5 timesteps, the loop stops without a
    model call or an optimizer step, but the batch does not end
    silently: the progress report raises [AttributeError]. *)
Theorem C4_degenerate_window_not_silent :
  let hp := hp_one 5 1 1 in
  let self := identity_trainer [L1Loss] in
  let data := ones_zeros 1 4 [4]%Z in
  is_ok (fst (window_loop hp self (b_x data) (b_y data) (b_T_ys data) [0%Q] world0))
    = true /\
  forallb no_model_no_step
    (w_log (snd (train_batch hp self 0 1 (0%nat, data) [0%Q] world0))) = true /\
  fst (train_batch hp self 0 1 (0%nat, data) [0%Q] world0) = Raise AttributeError.
Proof.
  repeat split.
Qed.

(** C5 (as amended).  Once the window loop of a batch has returned with
    a last loss vector [l], the value put on the progress bar is [l]
    divided by [len(T_ys)], the number of samples of the whole batch,
    wherever the cursor [i_first] stands. *)
Theorem C5_progress_divides_by_full_batch :
  forall (P : Type) (hp : hparams) (self : trainer P) (epoch n : Z)
         (i_iter : nat) (data : batch) (acc : list Q) (w w1 : world P)
         (st : wstate) (l : list Q),
    window_loop hp self (b_x data) (b_y data) (b_T_ys data) acc w = (Ok st, w1) ->
    loss_t st = Some l ->
    n <> 0%Z ->
    exists pos,
      fst (train_batch hp self epoch n (i_iter, data) acc w) = Ok (avg_loss st) /\
      w_log (snd (train_batch hp self epoch n (i_iter, data) acc w))
        = w_log w1 ++ [EvSchedStep pos;
                       EvPostfix (vdiv l (Z.of_nat (length (b_T_ys data))))].
Proof.
  intros P hp self epoch n i_iter data acc w w1 st l Hloop Hl Hn.
  destruct (@train_batch_after_loop P hp self epoch n i_iter data acc w w1 st Hloop Hn)
    as (pos & _ & Hrun).
  exists pos. rewrite Hrun, Hl. simpl. split; [reflexivity|].
  rewrite <- app_assoc. reflexivity.
Qed.

Lemma C5_progress_divides_by_full_batch_witness :
  let hp := hp_one 5 2 1 in
  let self := identity_trainer [L1Loss] in
  let data := ones_zeros 2 10 [5; 10]%Z in
  let loop := window_loop hp self (b_x data) (b_y data) (b_T_ys data) [0%Q] world0 in
  let st := match fst loop with Ok st => st | Raise _ => mkWstate 0 None [] end in
  let l := match loss_t st with Some l => l | None => [] end in
  exists pos,
    fst (train_batch hp self 0 2 (0%nat, data) [0%Q] world0) = Ok (avg_loss st) /\
    w_log (snd (train_batch hp self 0 2 (0%nat, data) [0%Q] world0))
      = w_log (snd loop) ++ [EvSchedStep pos; EvPostfix (vdiv l 2)].
Proof.
  intros hp self data loop st l.
  apply (@C5_progress_divides_by_full_batch unit hp self 0%Z 2%Z 0%nat data
           [0%Q] world0 (snd loop) st l).
  - vm_compute. reflexivity.
  - vm_compute. reflexivity.
  - discriminate.
Defined.

(** C5 fails as stated: with lengths [5; 10] and [l_target = 5] the
    last window holds one active sample out of two, and the value on the
    progress bar is the last loss divided by 2, not by 1. *)
Lemma C5_counterexample :
  let hp := hp_one 5 2 1 in
  let self := identity_trainer [L1Loss] in
  let data := ones_zeros 2 10 [5; 10]%Z in
  exists st w1 l v,
    window_loop hp self (b_x data) (b_y data) (b_T_ys data) [0%Q] world0
      = (Ok st, w1) /\
    loss_t st = Some [l] /\
    (dimB (b_y data) - i_first st = 1)%nat /\
    length (b_T_ys data) = 2%nat /\
    postfixes (w_log (snd (train_batch hp self 0 2 (0%nat, data) [0%Q] world0)))
      = [[v]] /\
    (v == l / 2)%Q /\ ~ (v == l / 1)%Q.
Proof.
  intros hp self data. do 4 eexists.
  split; [vm_compute; reflexivity|].
  split; [vm_compute; reflexivity|].
  split; [reflexivity|].
  split; [reflexivity|].
  split; [vm_compute; reflexivity|].
  split; [reflexivity|].
  intros H. vm_compute in H. discriminate.
Qed.

(** C3 (failing input).  Two epochs over the same single batch (one
    sample of length 5, one window, loss 1): taken alone, either epoch
    accumulates 1 and would report 1 / 1 = 1; the run reports 1 for
    epoch 0 and 2 for epoch 1, as the accumulator is created once,
    before the loop over the epochs, and epoch 1 starts from the value
    reported for epoch 0. *)
Theorem C3_accumulator_not_reset_between_epochs :
  let hp := hp_one 5 1 2 in
  let self := identity_trainer [L1Loss] in
  let data := ones_zeros 1 5 [5]%Z in
  let ld := fixed_loader 1 [data] in
  map (map Qred)
    [match fst (train_batch hp self 0 1 (0%nat, data) [0%Q] world0) with
     | Ok acc => acc | Raise _ => [] end;
     match fst (train_batch hp self 1 1 (0%nat, data) [0%Q] world0) with
     | Ok acc => acc | Raise _ => [] end]
    = [[1%Q]; [1%Q]] /\
  fst (train hp self ld ld 0 world0) = Ok tt /\
  train_scalars (w_log (snd (train hp self ld ld 0 world0))) = [1; 2]%Q.
Proof.
  repeat split; vm_compute; reflexivity.
Qed.

(* ===================================================================== *)
(** ** Further properties of [_calc_loss]                                 *)
(* ===================================================================== *)

Lemma logged_all_nil {P} (w : world P) : logged_all w [] = w.
Proof. destruct w. unfold logged_all. simpl. rewrite app_nil_r. reflexivity. Qed.

Lemma logged_all_logged {P} (w : world P) e evs :
  logged_all (logged w e) evs = logged_all w (e :: evs).
Proof.
  unfold logged_all, logged. simpl. rewrite <- app_assoc. reflexivity.
Qed.

Lemma logged_all_app {P} (w : world P) evs1 evs2 :
  logged_all (logged_all w evs1) evs2 = logged_all w (evs1 ++ evs2).
Proof.
  unfold logged_all. simpl. rewrite <- app_assoc. reflexivity.
Qed.

Lemma upd_at_middle (pre post : list Q) (a : Q) (f : Q -> Q) :
  upd_at (pre ++ a :: post) (length pre) f = pre ++ f a :: post.
Proof.
  induction pre as [|p pre IH]; simpl; [reflexivity|]. rewrite IH. reflexivity.
Qed.

Section LossLength.

Variable P : Type.
Variable hp : hparams.
Variable self : trainer P.

Lemma fast_body_length y output T_ys ic s (w : world P) s' w' n :
  length s = n -> fast_body hp y output T_ys ic s w = (Ok s', w') ->
  length s' = n.
Proof.
  destruct ic as [j c]. intros Hs Hb. unfold fast_body in Hb.
  apply bind_inv_ok in Hb. destruct Hb as (wj & w1 & _ & Hb).
  destruct (Qeq_bool wj 0).
  - inversion Hb; subst. reflexivity.
  - apply bind_inv_ok in Hb. destruct Hb as (v & w2 & _ & Hb).
    apply bind_inv_ok in Hb. destruct Hb as (T0 & w3 & _ & Hb).
    inversion Hb; subst. apply length_upd_at.
Qed.

Lemma ragged_body_length y output T_ys ic s (w : world P) s' w' n :
  length s = n -> ragged_body hp y output T_ys ic s w = (Ok s', w') ->
  length s' = n.
Proof.
  destruct ic as [j c]. intros Hs Hb. unfold ragged_body in Hb.
  apply bind_inv_ok in Hb. destruct Hb as (wj & w1 & _ & Hb).
  destruct (Qeq_bool wj 0).
  - inversion Hb; subst. reflexivity.
  - apply bind_inv_ok in Hb. destruct Hb as (s1 & w2 & Hin & Hb).
    inversion Hb; subst. rewrite length_upd_at.
    refine (@for_each_inv P _ _ (fun l => length l = length s) _ _ _ s w1 s1 w'
              eq_refl Hin).
    intros [T b] s0 w0 s0' w0' _ Hs0 Hb0. unfold ragged_item in Hb0.
    apply bind_inv_ok in Hb0. destruct Hb0 as (v & w3 & _ & Hb0).
    inversion Hb0; subst. rewrite length_upd_at. exact Hs0.
Qed.

End LossLength.

(** X1.  Whenever the loss computation returns, on either path and
    whatever the shapes, the lengths and the weights are, the loss
    vector has one entry per criterion. *)
Theorem calc_loss_one_entry_per_criterion :
  forall (P : Type) (hp : hparams) (self : trainer P) (y output : tensor)
         (T_ys : list Z) (w : world P) (loss : list Q),
    fst (_calc_loss hp self y output T_ys w) = Ok loss ->
    length loss = length (criterions self).
Proof.
  intros P hp self y output T_ys w loss Hrun.
  unfold _calc_loss, bind, lift in Hrun.
  destruct (all_equal_first T_ys) as [[|]|e]; simpl in Hrun; [| |discriminate].
  - destruct (calc_loss_fast hp self y output T_ys w) as [r w'] eqn:E.
    simpl in Hrun. subst r. unfold calc_loss_fast in E.
    refine (@for_each_inv P _ _ (fun l => length l = length (criterions self))
              _ _ _ _ w loss w' _ E).
    + intros ic s w0 s' w0' _. apply fast_body_length.
    + apply repeat_length.
  - destruct (calc_loss_ragged hp self y output T_ys w) as [r w'] eqn:E.
    simpl in Hrun. subst r. unfold calc_loss_ragged in E.
    refine (@for_each_inv P _ _ (fun l => length l = length (criterions self))
              _ _ _ _ w loss w' _ E).
    + intros ic s w0 s' w0' _. apply ragged_body_length.
    + apply repeat_length.
Qed.

Lemma calc_loss_one_entry_per_criterion_witness :
  exists loss,
    fst (_calc_loss (mkHparams 4 4 2 1 1 [1; 2]%Q)
           (identity_trainer [L1Loss; MSELoss])
           (full 2 1 4 0%Q) (full 2 1 4 3%Q) [4; 2]%Z world0) = Ok loss /\
    length loss = 2%nat.
Proof.
  eexists. split; [vm_compute; reflexivity|].
  apply (@calc_loss_one_entry_per_criterion unit (mkHparams 4 4 2 1 1 [1; 2]%Q)
           (identity_trainer [L1Loss; MSELoss])
           (full 2 1 4 0%Q) (full 2 1 4 3%Q) [4; 2]%Z world0).
  vm_compute. reflexivity.
Defined.

Lemma index_nth_error {A} (xs : list A) (i : nat) (x : A) :
  index xs i = Ok x -> nth_error xs i = Some x.
Proof. unfold index. destruct (nth_error xs i); congruence. Qed.

Lemma snoc_app {A} (pre post : list A) (v : A) :
  pre ++ v :: post = (pre ++ [v]) ++ post.
Proof. rewrite <- app_assoc. reflexivity. Qed.

Lemma length_snoc {A} (pre : list A) (v : A) : length (pre ++ [v]) = S (length pre).
Proof. rewrite length_app. simpl. lia. Qed.

Section LossClosed.

Variable P : Type.
Variable hp : hparams.
Variables y output : tensor.
Variable T_ys : list Z.
Hypothesis shapes : same_shape output y = true.

(** The inner loop of the ragged path, with the world it leaves. *)
Lemma ragged_items_world i c items :
  forall s (w : world P),
    for_each items (ragged_item i c y output) s w =
    (Ok (upd_at s i (fun acc => fold_left (item_step c y output) items acc)),
     logged_all w (repeat (EvCriterion i) (length items))).
Proof.
  induction items as [|[T b] items IH]; intros s w.
  - simpl. rewrite upd_at_same, logged_all_nil. reflexivity.
  - assert (Hb : ragged_item i c y output (T, b) s w =
                 (Ok (upd_at s i (fun acc => item_step c y output acc (T, b))),
                  logged w (EvCriterion i))).
    { unfold ragged_item, bind.
      rewrite (@call_criterion_run P i c _ _ w (@same_shape_items output y b T shapes)).
      reflexivity. }
    rewrite for_each_cons. erewrite bind_ok by exact Hb.
    rewrite IH, upd_at_compose, logged_all_logged. reflexivity.
Qed.

Lemma ragged_body_world i c wi s (w : world P) :
  index (weight_loss hp) i = Ok wi -> Qeq_bool wi 0 = false ->
  ragged_body hp y output T_ys (i, c) s w =
  (Ok (upd_at s i (fun acc =>
         (fold_left (item_step c y output) (zip_items T_ys y output) acc * wi)%Q)),
   logged_all w (repeat (EvCriterion i) (length (zip_items T_ys y output)))).
Proof.
  intros Hi Hz. unfold ragged_body.
  unfold bind at 1. unfold lift at 1. rewrite Hi, Hz.
  unfold bind. rewrite ragged_items_world. unfold ret.
  rewrite upd_at_compose. reflexivity.
Qed.

Lemma fast_closed T0 :
  index T_ys 0 = Ok T0 ->
  forall cs k pre (w : world P),
    length pre = k ->
    (k + length cs <= length (weight_loss hp))%nat ->
    for_each (combine (seq k (length cs)) cs)
      (fast_body hp y output T_ys) (pre ++ zeros (length cs)) w =
    (Ok (pre ++ map (fast_entry hp y output T0) (combine (seq k (length cs)) cs)),
     logged_all w (flat_map (fast_call hp) (combine (seq k (length cs)) cs))).
Proof.
  intros HT0. induction cs as [|c cs IH]; intros k pre w Hk Hlen.
  - simpl. rewrite logged_all_nil. reflexivity.
  - cbn [length seq combine map flat_map]. rewrite for_each_cons.
    destruct (@index_in_range _ (weight_loss hp) k) as [wk Hwk].
    { simpl in Hlen. lia. }
    pose proof (index_nth_error _ _ Hwk) as Hnth.
    unfold fast_entry at 1, fast_call at 1. cbn [fst snd]. rewrite Hnth.
    unfold zeros. cbn [repeat]. fold (zeros (length cs)).
    destruct (Qeq_bool wk 0) eqn:Hz.
    + erewrite bind_ok by (eapply fast_body_skip; eassumption).
      rewrite snoc_app.
      rewrite (IH (S k) (pre ++ [0%Q]) w)
        by (try rewrite length_snoc; simpl in Hlen; lia).
      rewrite <- snoc_app. reflexivity.
    + erewrite bind_ok by (eapply fast_body_run; eassumption).
      subst k. rewrite upd_at_middle, snoc_app.
      rewrite (IH (S (length pre)) (pre ++ [(wk * reduce_sum c output y / inject_Z T0)%Q]))
        by (try rewrite length_snoc; simpl in Hlen; lia).
      rewrite <- snoc_app, logged_all_logged. reflexivity.
Qed.

Lemma ragged_closed :
  forall cs k pre (w : world P),
    length pre = k ->
    (k + length cs <= length (weight_loss hp))%nat ->
    for_each (combine (seq k (length cs)) cs)
      (ragged_body hp y output T_ys) (pre ++ zeros (length cs)) w =
    (Ok (pre ++ map (ragged_folded hp y output T_ys) (combine (seq k (length cs)) cs)),
     logged_all w (flat_map (ragged_call hp (length (zip_items T_ys y output)))
                     (combine (seq k (length cs)) cs))).
Proof.
  induction cs as [|c cs IH]; intros k pre w Hk Hlen.
  - simpl. rewrite logged_all_nil. reflexivity.
  - cbn [length seq combine map flat_map]. rewrite for_each_cons.
    destruct (@index_in_range _ (weight_loss hp) k) as [wk Hwk].
    { simpl in Hlen. lia. }
    pose proof (index_nth_error _ _ Hwk) as Hnth.
    unfold ragged_folded at 1, ragged_call at 1. cbn [fst snd]. rewrite Hnth.
    unfold zeros. cbn [repeat]. fold (zeros (length cs)).
    destruct (Qeq_bool wk 0) eqn:Hz.
    + erewrite bind_ok by (eapply ragged_body_skip; eassumption).
      rewrite snoc_app.
      rewrite (IH (S k) (pre ++ [0%Q]) w)
        by (try rewrite length_snoc; simpl in Hlen; lia).
      rewrite <- snoc_app. reflexivity.
    + erewrite bind_ok by (eapply ragged_body_world; eassumption).
      subst k. rewrite upd_at_middle, snoc_app.
      rewrite (IH (S (length pre)))
        by (try rewrite length_snoc; simpl in Hlen; lia).
      rewrite <- snoc_app, logged_all_app. reflexivity.
Qed.

End LossClosed.

Lemma sum_to_ext (n : nat) (f g : nat -> Q) :
  (forall k, (k < n)%nat -> f k = g k) -> sum_to n f = sum_to n g.
Proof.
  induction n as [|n IH]; intros H; simpl; [reflexivity|].
  rewrite IH, H by (intros; try apply H; lia). reflexivity.
Qed.

Lemma sum_to_shift (n : nat) (f : nat -> Q) :
  (sum_to (S n) f == f 0%nat + sum_to n (fun j => f (S j)))%Q.
Proof.
  induction n as [|n IH].
  - simpl. ring.
  - change (sum_to (S (S n)) f) with (sum_to (S n) f + f (S n))%Q.
    rewrite IH. simpl. ring.
Qed.

(** The accumulation of line 143 over the zipped samples is the sum of
    the per-sample terms. *)
Lemma fold_items_sum (c : criterion) (y output : tensor) (T_ys : list Z) :
  forall k n acc,
    (fold_left (item_step c y output) (combine T_ys (seq k n)) acc
     == acc + sum_to (Nat.min (length T_ys) n)
                (fun j => reduce_sum c
                            (take_upto (item output (k + j)) (nth j T_ys 0%Z))
                            (take_upto (item y (k + j)) (nth j T_ys 0%Z))
                          / inject_Z (nth j T_ys 0%Z)))%Q.
Proof.
  induction T_ys as [|T rest IH]; intros k n acc.
  - simpl. ring.
  - destruct n as [|n].
    + simpl. ring.
    + cbn [seq combine fold_left length Nat.min].
      rewrite IH, sum_to_shift. unfold item_step. cbn [fst snd nth].
      rewrite Nat.add_0_r.
      rewrite (@sum_to_ext (Nat.min (length rest) n)
                 (fun j => reduce_sum c
                             (take_upto (item output (S k + j)) (nth j rest 0%Z))
                             (take_upto (item y (S k + j)) (nth j rest 0%Z))
                           / inject_Z (nth j rest 0%Z))%Q
                 (fun j => reduce_sum c
                             (take_upto (item output (k + S j)) (nth j rest 0%Z))
                             (take_upto (item y (k + S j)) (nth j rest 0%Z))
                           / inject_Z (nth j rest 0%Z))%Q).
      * ring.
      * intros j _. rewrite Nat.add_succ_r. reflexivity.
Qed.

Lemma ragged_folded_entry (hp : hparams) (y output : tensor) (T_ys : list Z)
    (ic : nat * criterion) :
  (ragged_folded hp y output T_ys ic == ragged_entry hp y output T_ys ic)%Q.
Proof.
  unfold ragged_folded, ragged_entry.
  destruct (nth_error (weight_loss hp) (fst ic)) as [w|]; [|reflexivity].
  destruct (Qeq_bool w 0); [reflexivity|].
  unfold zip_items. rewrite fold_items_sum.
  unfold zipped, sample_term. simpl. ring.
Qed.

Lemma length_zip_items (T_ys : list Z) (y output : tensor) :
  length (zip_items T_ys y output) = zipped T_ys y output.
Proof.
  unfold zip_items, zipped. rewrite length_combine, length_seq. reflexivity.
Qed.

Lemma all_equal_first_head (T_ys : list Z) (b : bool) :
  all_equal_first T_ys = Ok b -> index T_ys 0 = Ok (hd 0%Z T_ys).
Proof.
  destruct T_ys as [|T0 rest]; [discriminate | reflexivity].
Qed.

(** X2.  Fast path.  With lengths all equal and not zero, an output of
    the shape of [y] and one weight per criterion, [_calc_loss] returns,
    for each criterion in declared order, 0 when its weight is zero and
    otherwise weight * criterion(output, y) / T_ys[0]; it calls each
    criterion of non-zero weight exactly once, in declared order, and
    changes nothing else.  (For a common length of zero the floating
    point division gives inf or nan, which exact arithmetic does not
    have: the statement does not cover it.) *)
Theorem calc_loss_fast_path_spec :
  forall (P : Type) (hp : hparams) (self : trainer P) (y output : tensor)
         (T_ys : list Z) (w : world P),
    same_shape output y = true ->
    (length (criterions self) <= length (weight_loss hp))%nat ->
    all_equal_first T_ys = Ok true ->
    hd 0%Z T_ys <> 0%Z ->
    _calc_loss hp self y output T_ys w =
    (Ok (map (fast_entry hp y output (hd 0%Z T_ys)) (enumerate (criterions self))),
     logged_all w (flat_map (fast_call hp) (enumerate (criterions self)))).
Proof.
  intros P hp self y output T_ys w Hsh Hw Huni _.
  unfold _calc_loss, bind, lift. rewrite Huni.
  unfold calc_loss_fast, enumerate.
  apply (@fast_closed P hp y output T_ys Hsh (hd 0%Z T_ys)
           (all_equal_first_head _ Huni) (criterions self) 0%nat [] w eq_refl).
  simpl. exact Hw.
Qed.

Lemma calc_loss_fast_path_spec_witness :
  let hp := mkHparams 4 4 2 1 1 [0; 2]%Q in
  let self := identity_trainer [L1Loss; MSELoss] in
  let y := full 2 1 4 0%Q in
  let output := full 2 1 4 3%Q in
  _calc_loss hp self y output [4; 4]%Z world0 =
  (Ok (map (fast_entry hp y output 4) (enumerate (criterions self))),
   logged_all world0 [EvCriterion 1]).
Proof.
  intros hp self y output.
  apply (@calc_loss_fast_path_spec unit hp self y output [4; 4]%Z world0).
  - reflexivity.
  - simpl. lia.
  - reflexivity.
  - simpl. lia.
Defined.

(** X3.  Ragged path.  With lengths not all equal and none of them
    zero, an output of the shape of [y] and one weight per criterion,
    [_calc_loss] returns, for each criterion in declared order, 0 when
    its weight is zero and otherwise the weight times the sum over the
    zipped samples [b] of
    criterion(output[b][..., :T_ys[b]], y[b][..., :T_ys[b]]) / T_ys[b];
    it calls each criterion of non-zero weight once per zipped sample
    and changes nothing else.  (A length of zero makes the floating
    point division give nan, which exact arithmetic does not have: the
    statement does not cover it.) *)
Theorem calc_loss_ragged_path_spec :
  forall (P : Type) (hp : hparams) (self : trainer P) (y output : tensor)
         (T_ys : list Z) (w : world P),
    same_shape output y = true ->
    (length (criterions self) <= length (weight_loss hp))%nat ->
    all_equal_first T_ys = Ok false ->
    (forall T, In T T_ys -> T <> 0%Z) ->
    exists loss,
      _calc_loss hp self y output T_ys w =
      (Ok loss,
       logged_all w (flat_map (ragged_call hp (zipped T_ys y output))
                       (enumerate (criterions self)))) /\
      Forall2 Qeq loss
        (map (ragged_entry hp y output T_ys) (enumerate (criterions self))).
Proof.
  intros P hp self y output T_ys w Hsh Hw Huni _.
  exists (map (ragged_folded hp y output T_ys) (enumerate (criterions self))).
  split.
  - unfold _calc_loss, bind, lift. rewrite Huni.
    unfold calc_loss_ragged, enumerate. rewrite <- length_zip_items.
    apply (@ragged_closed P hp y output T_ys Hsh (criterions self) 0%nat [] w eq_refl).
    simpl. exact Hw.
  - induction (enumerate (criterions self)) as [|ic l IH]; simpl; constructor.
    + apply ragged_folded_entry.
    + exact IH.
Qed.

Lemma calc_loss_ragged_path_spec_witness :
  let hp := mkHparams 4 4 2 1 1 [0; 2]%Q in
  let self := identity_trainer [L1Loss; MSELoss] in
  let y := full 2 1 4 0%Q in
  let output := full 2 1 4 3%Q in
  exists loss,
    _calc_loss hp self y output [4; 2]%Z world0 =
    (Ok loss, logged_all world0 [EvCriterion 1; EvCriterion 1]) /\
    Forall2 Qeq loss
      (map (ragged_entry hp y output [4; 2]%Z) (enumerate (criterions self))).
Proof.
  intros hp self y output.
  apply (@calc_loss_ragged_path_spec unit hp self y output [4; 2]%Z world0).
  - reflexivity.
  - simpl. lia.
  - reflexivity.
  - simpl. intros T [<-|[<-|[]]]; lia.
Defined.

Lemma for_each_ext {P A S} (xs : list A) (body1 body2 : A -> S -> M P S) :
  (forall x s w, In x xs -> body1 x s w = body2 x s w) ->
  forall s w, for_each xs body1 s w = for_each xs body2 s w.
Proof.
  induction xs as [|x xs IH]; intros H s w; [reflexivity|].
  rewrite !for_each_cons. unfold bind.
  rewrite (H x s w (or_introl eq_refl)).
  destruct (body2 x s w) as [[s1|e] w1]; [|reflexivity].
  apply IH. intros x' s' w' Hin. apply H. right. exact Hin.
Qed.

Lemma in_combine_seq {A} (xs : list A) :
  forall k n x b, In (x, b) (combine xs (seq k n)) ->
    (k <= b)%nat /\ nth_error xs (b - k) = Some x.
Proof.
  induction xs as [|a xs IH]; intros k n x b Hin; [destruct Hin|].
  destruct n as [|n]; [destruct Hin|].
  destruct Hin as [Heq|Hin].
  - inversion Heq; subst. rewrite Nat.sub_diag. split; [lia | reflexivity].
  - apply IH in Hin. destruct Hin as [Hle Hnth]. split; [lia|].
    replace (b - k)%nat with (S (b - S k)) by lia. exact Hnth.
Qed.

Section Padding.

Variable P : Type.
Variable hp : hparams.
Variables y output y' output' : tensor.
Variable T_ys : list Z.
Hypothesis agree : agree_on_valid T_ys y output y' output'.
Hypothesis lengths_nonneg : forall T, In T T_ys -> (0 <= T)%Z.

Lemma zip_items_agree : zip_items T_ys y output = zip_items T_ys y' output'.
Proof.
  destruct agree as (HB & _ & _ & HB' & _).
  unfold zip_items. rewrite HB, HB'. reflexivity.
Qed.

Lemma ragged_item_agree i c T b s (w : world P) :
  In (T, b) (zip_items T_ys y output) ->
  ragged_item i c y output (T, b) s w = ragged_item i c y' output' (T, b) s w.
Proof.
  intros Hin. unfold zip_items in Hin. apply in_combine_seq in Hin.
  destruct Hin as [_ Hnth]. rewrite Nat.sub_0_r in Hnth.
  assert (HT : (0 <= T)%Z).
  { apply lengths_nonneg. eapply nth_error_In. exact Hnth. }
  destruct agree as (HB & HC & HTy & HB' & HC' & HTo & Hval).
  assert (Hshape : same_shape (take_upto (item output b) T) (take_upto (item y b) T)
                   = same_shape (take_upto (item output' b) T) (take_upto (item y' b) T)).
  { unfold same_shape, take_upto, item. simpl. rewrite HC, HTy, HC', HTo. reflexivity. }
  assert (Hsum : reduce_sum c (take_upto (item output b) T) (take_upto (item y b) T)
                 = reduce_sum c (take_upto (item output' b) T) (take_upto (item y' b) T)).
  { unfold reduce_sum, take_upto, item. simpl. rewrite <- HC', <- HTo.
    f_equal. apply sum_to_ext. intros ch _. apply sum_to_ext. intros s0 Hs0.
    assert (Hlt : (Z.of_nat s0 < T)%Z).
    { unfold slice_to in Hs0. destruct (T <? 0)%Z eqn:E.
      - apply Z.ltb_lt in E. lia.
      - lia. }
    destruct (Hval b T ch s0 Hnth Hlt) as [Hy Ho]. rewrite Hy, Ho. reflexivity. }
  unfold ragged_item, bind, call_criterion, bind, emit, lift, apply_criterion.
  rewrite Hshape, Hsum. reflexivity.
Qed.

Lemma ragged_body_agree ic s (w : world P) :
  ragged_body hp y output T_ys ic s w = ragged_body hp y' output' T_ys ic s w.
Proof.
  destruct ic as [i c]. unfold ragged_body, bind, lift.
  destruct (index (weight_loss hp) i) as [wi|e]; [|reflexivity].
  destruct (Qeq_bool wi 0); [reflexivity|].
  rewrite <- zip_items_agree.
  rewrite (@for_each_ext P _ _ (zip_items T_ys y output)
             (ragged_item i c y output) (ragged_item i c y' output')).
  - reflexivity.
  - intros [T b] s0 w0 Hin. apply ragged_item_agree. exact Hin.
Qed.

End Padding.

(** X4.  The ragged path does not look at padding: two batches of the
    same shapes whose targets and outputs are equal at the time
    positions below each sample's length give the same result and leave
    the same world, whatever the padded positions hold. *)
Theorem calc_loss_ragged_ignores_padding :
  forall (P : Type) (hp : hparams) (self : trainer P)
         (y output y' output' : tensor) (T_ys : list Z) (w : world P),
    agree_on_valid T_ys y output y' output' ->
    (forall T, In T T_ys -> (0 <= T)%Z) ->
    all_equal_first T_ys = Ok false ->
    _calc_loss hp self y output T_ys w = _calc_loss hp self y' output' T_ys w.
Proof.
  intros P hp self y output y' output' T_ys w Hagree Hnn Huni.
  unfold _calc_loss, bind, lift. rewrite Huni.
  unfold calc_loss_ragged. apply for_each_ext.
  intros ic s w0 _. apply ragged_body_agree; assumption.
Qed.

Lemma calc_loss_ragged_ignores_padding_witness :
  let hp := hp_one 4 2 1 in
  let self := identity_trainer [L1Loss] in
  _calc_loss hp self (full 2 1 4 0%Q) (full 2 1 4 1%Q) [2; 1]%Z world0 =
  _calc_loss hp self (padded_with 2 1 4 7%Q) (full 2 1 4 1%Q) [2; 1]%Z world0.
Proof.
  intros hp self.
  apply (@calc_loss_ragged_ignores_padding unit hp self
           (full 2 1 4 0%Q) (full 2 1 4 1%Q) (padded_with 2 1 4 7%Q) (full 2 1 4 1%Q)
           [2; 1]%Z world0).
  - repeat split; try reflexivity.
    destruct b as [|[|b]]; simpl in H; try (destruct b; discriminate);
      inversion H; subst;
      destruct s as [|[|s]]; simpl; try reflexivity; lia.
  - simpl. intros T [<-|[<-|[]]]; lia.
  - reflexivity.
Defined.

(* ===================================================================== *)
(** ** Further properties of the window loop                              *)
(* ===================================================================== *)

Lemma count_opt_steps_app (l1 l2 : list event) :
  count_opt_steps (l1 ++ l2) = (count_opt_steps l1 + count_opt_steps l2)%nat.
Proof.
  induction l1 as [|e l1 IH]; simpl; [reflexivity|].
  destruct e; simpl; rewrite IH; reflexivity.
Qed.

Lemma count_opt_steps_none (l : list event) :
  Forall (fun e => e <> EvOptStep) l -> count_opt_steps l = 0%nat.
Proof.
  induction 1 as [|e l He _ IH]; simpl; [reflexivity|].
  destruct e; try exact IH. congruence.
Qed.

Section WindowSteps.

Variable P : Type.
Variable hp : hparams.
Variable self : trainer P.

(** A window that returns either breaks the loop, on a target extent
    below 5 and without an optimizer step, or has a target extent of at
    least 5 and makes exactly one optimizer step. *)
Lemma window_steps x y T_ys t st (w w' : world P) fl :
  window hp self x y T_ys t st w = (Ok fl, w') ->
  match fl with
  | Break _ =>
      (slice_extent (dimT y) t (t + l_target hp) < 5)%nat /\
      count_opt_steps (w_log w') = count_opt_steps (w_log w)
  | Continue _ =>
      (5 <= slice_extent (dimT y) t (t + l_target hp))%nat /\
      count_opt_steps (w_log w') = S (count_opt_steps (w_log w))
  end.
Proof.
  unfold window. intros H.
  apply bind_inv_ok in H. destruct H as ([] & w1 & Hz & H).
  inversion Hz; subst w1. clear Hz.
  apply bind_inv_ok in H. destruct H as (i' & w2 & Hadv & H).
  apply lift_inv_ok in Hadv. destruct Hadv as [Hadv ->].
  destruct (dimT (narrow y i' t (t + l_target hp)) <? 5)%nat eqn:Hlt.
  - inversion H; subst. apply Nat.ltb_lt in Hlt. split; [exact Hlt|].
    simpl. rewrite count_opt_steps_app. simpl. lia.
  - apply Nat.ltb_ge in Hlt.
    apply bind_inv_ok in H. destruct H as (out & w3 & Hm & H).
    rewrite call_model_run in Hm. inversion Hm as [[Hf Hw3]]. clear Hm.
    apply bind_inv_ok in H. destruct H as (loss & w4 & Hl & H).
    apply bind_inv_ok in H. destruct H as ([] & w5 & Hb & H).
    inversion H; subst fl w'. clear H. split; [exact Hlt|].
    match type of Hl with
    | _calc_loss _ _ ?a ?b ?c _ = _ =>
        pose proof (@calc_loss_keeps_mode P hp self (w_mode w3)
                      (fun e => e <> EvOptStep)
                      (fun _ _ _ _ => ltac:(discriminate)) a b c w3 eq_refl) as Hcl
    end.
    rewrite Hl in Hcl. simpl in Hcl. destruct Hcl as (_ & new1 & Hlog1 & Hnew1).
    unfold backward_and_step, bind, emit in Hb.
    destruct (requires_grad _ _ _ _ _); [|discriminate].
    inversion Hb; subst w5. clear Hb. simpl.
    rewrite Hlog1, <- Hw3. unfold logged. simpl.
    rewrite !count_opt_steps_app, (count_opt_steps_none Hnew1). simpl. lia.
Qed.

(** A window loop that returns has visited and trained on the first
    [n] windows, each of a target extent of at least 5, with one
    optimizer step per window, and has stopped at the next window, if
    any, on a target extent below 5. *)
Lemma loop_steps x y T_ys ts :
  forall st (w w' : world P) st',
    for_break ts (window hp self x y T_ys) st w = (Ok st', w') ->
    exists n,
      (n <= length ts)%nat /\
      count_opt_steps (w_log w') = (count_opt_steps (w_log w) + n)%nat /\
      (forall k t, (k < n)%nat -> nth_error ts k = Some t ->
         (5 <= slice_extent (dimT y) t (t + l_target hp))%nat /\
         exists st0 w0 st1 w1,
           visits (window hp self x y T_ys) ts st w t st0 w0 /\
           window hp self x y T_ys t st0 w0 = (Ok (Continue st1), w1)) /\
      (forall t, nth_error ts n = Some t ->
         (slice_extent (dimT y) t (t + l_target hp) < 5)%nat).
Proof.
  induction ts as [|t ts IH]; intros st w w' st' H; simpl in H.
  - inversion H; subst. exists 0%nat. simpl. repeat split; try lia.
    intros t Ht. discriminate.
  - apply bind_inv_ok in H. destruct H as (fl & w1 & Hwin & H).
    pose proof (window_steps _ _ _ _ _ _ Hwin) as Hs.
    destruct fl as [s1|s1].
    + destruct Hs as [Hext Hcount].
      destruct (IH s1 w1 w' st' H) as (n & Hn & Hc & Hfull & Hstop).
      exists (S n). simpl. split; [lia|]. split; [lia|]. split.
      * intros k t' Hk Ht'. destruct k as [|k]; simpl in Ht'.
        -- inversion Ht'; subst. split; [exact Hext|].
           exists st, w, s1, w1. split; [apply visits_head | exact Hwin].
        -- destruct (Hfull k t' ltac:(lia) Ht')
             as (Hext' & st0 & w0 & st1 & w1' & Hv & Hw0).
           split; [exact Hext'|]. exists st0, w0, st1, w1'. split; [|exact Hw0].
           apply visits_tail with (st1 := s1) (w1 := w1); assumption.
      * exact Hstop.
    + destruct Hs as [Hext Hcount]. inversion H; subst.
      exists 0%nat. simpl. repeat split; try lia.
      intros t' Ht'. inversion Ht'; subst. exact Hext.
Qed.

(** The cursor of a window loop stays within the batch. *)
Lemma loop_cursor_in_batch x y T_ys ts :
  forall st (w w' : world P) st',
    for_break ts (window hp self x y T_ys) st w = (Ok st', w') ->
    (i_first st <= dimB y)%nat -> (i_first st' <= dimB y)%nat.
Proof.
  induction ts as [|t ts IH]; intros st w w' st' H Hi; simpl in H.
  - inversion H; subst. exact Hi.
  - apply bind_inv_ok in H. destruct H as (fl & w1 & Hwin & H).
    pose proof (@window_cursor P hp self x y T_ys t st w w1 fl Hwin) as Hadv.
    apply (@advance_i_first_ok (dimB y) T_ys t _ _ _ (le_n _)) in Hadv.
    destruct Hadv as (_ & Hin & _).
    destruct fl as [s1|s1]; simpl in Hin.
    + apply (IH s1 w1 w' st' H). auto.
    + inversion H; subst. auto.
Qed.

(** A sample that a window loop has passed was passed by a window that
    the loop ran. *)
Lemma loop_passed_samples x y T_ys ts :
  forall st (w w' : world P) st' j,
    for_break ts (window hp self x y T_ys) st w = (Ok st', w') ->
    (i_first st <= j < i_first st')%nat ->
    exists t st0 w0 fl w0',
      visits (window hp self x y T_ys) ts st w t st0 w0 /\
      window hp self x y T_ys t st0 w0 = (Ok fl, w0') /\
      (i_first st0 <= j < i_first (flow_state fl))%nat.
Proof.
  induction ts as [|t ts IH]; intros st w w' st' j H Hj; simpl in H.
  - inversion H; subst. lia.
  - apply bind_inv_ok in H. destruct H as (fl & w1 & Hwin & H).
    destruct (Nat.lt_ge_cases j (i_first (flow_state fl))) as [Hlt|Hge].
    + exists t, st, w, fl, w1. split; [apply visits_head|]. split; [exact Hwin|]. lia.
    + destruct fl as [s1|s1]; simpl in Hge.
      * destruct (IH s1 w1 w' st' j H) as (t' & st0 & w0 & fl' & w0' & Hv & Hw0 & Hj');
          [lia|].
        exists t', st0, w0, fl', w0'. split; [|auto].
        apply visits_tail with (st1 := s1) (w1 := w1); assumption.
      * inversion H; subst. lia.
Qed.

End WindowSteps.

(** X5.  When the window loop of a batch returns, it has visited and
    trained on the [n] first windows of the batch, in order from 0, with
    one optimizer step for each, and on no other.  With
    [l_target >= 5], [n] is [(T + l_target - 5) / l_target] ([T] the
    time extent of the batch), so that only a tail of fewer than 5 time
    steps is left out.  With [l_target < 5] no window is trained on. *)
Theorem window_loop_leaves_short_tail :
  forall (P : Type) (hp : hparams) (self : trainer P) (x y : tensor)
         (T_ys : list Z) (acc : list Q) (w w' : world P) (st : wstate),
    window_loop hp self x y T_ys acc w = (Ok st, w') ->
    exists (ts : list Z) (n : nat),
      range0 (Z.of_nat (dimT y)) (l_target hp) = Ok ts /\
      count_opt_steps (w_log w') = (count_opt_steps (w_log w) + n)%nat /\
      (forall k t, (k < n)%nat -> nth_error ts k = Some t ->
         exists st0 w0 st1 w1,
           visits (window hp self x y T_ys) ts (mkWstate 0 None acc) w t st0 w0 /\
           window hp self x y T_ys t st0 w0 = (Ok (Continue st1), w1)) /\
      ((5 <= l_target hp)%Z ->
         (Z.of_nat n = (Z.of_nat (dimT y) + l_target hp - 5) / l_target hp)%Z /\
         (Z.of_nat (dimT y) - Z.of_nat n * l_target hp < 5)%Z) /\
      ((l_target hp < 5)%Z -> n = 0%nat).
Proof.
  intros P hp self x y T_ys acc w w' st Hloop. unfold window_loop in Hloop.
  apply bind_inv_ok in Hloop. destruct Hloop as (ts & w1 & Hr & Hloop).
  apply lift_inv_ok in Hr. destruct Hr as [Hr ->].
  destruct (@loop_steps P hp self x y T_ys ts _ w w' st Hloop)
    as (n & Hn & Hc & Hfull & Hstop).
  exists ts, n. split; [exact Hr|]. split; [exact Hc|].
  split; [intros k t Hk Ht; apply (Hfull k t Hk Ht)|].
  set (T := Z.of_nat (dimT y)) in *. set (l := l_target hp) in *.
  assert (HT : (0 <= T)%Z) by (subst T; lia).
  split.
  - intros Hl. assert (Hstep : (0 < l)%Z) by lia.
    pose proof (@range0_members T l ts Hstep Hr) as Hmem.
    assert (Ha : (Z.of_nat n * l + 5 <= T + l)%Z).
    { destruct n as [|m]; [lia|].
      destruct (nth_error ts m) as [tm|] eqn:Hm.
      - destruct (Hfull m tm (Nat.lt_succ_diag_r m) Hm) as [Hext _].
        apply Hmem in Hm. destruct Hm as [-> Hlt].
        unfold slice_extent, slice_start in Hext. fold T in Hext. nia.
      - apply nth_error_None in Hm. lia. }
    assert (Hb : (T - Z.of_nat n * l < 5)%Z).
    { destruct (Z.lt_ge_cases (Z.of_nat n * l) T) as [Hlt|Hge]; [|lia].
      assert (Hnth : nth_error ts n = Some (Z.of_nat n * l)%Z) by (apply Hmem; auto).
      pose proof (Hstop _ Hnth) as Hext.
      unfold slice_extent, slice_start in Hext. fold T in Hext. nia. }
    split; [|exact Hb].
    apply Z.div_unique_pos with (r := (T + l - 5 - l * Z.of_nat n)%Z); nia.
  - intros Hl. destruct n as [|m]; [reflexivity|]. exfalso.
    destruct (nth_error ts 0) as [t0|] eqn:H0.
    + destruct (Hfull 0%nat t0 (Nat.lt_0_succ m) H0) as [Hext _].
      unfold slice_extent, slice_start in Hext. lia.
    + apply nth_error_None in H0. lia.
Qed.

Lemma window_loop_leaves_short_tail_witness :
  let hp := hp_one 5 2 1 in
  let self := identity_trainer [L1Loss] in
  let data := ones_zeros 2 12 [5; 12]%Z in
  exists st w',
    window_loop hp self (b_x data) (b_y data) (b_T_ys data) [0%Q] world0 = (Ok st, w') /\
    count_opt_steps (w_log w') = 2%nat /\
    (12 - 2 * 5 < 5)%Z.
Proof.
  intros hp self data.
  destruct (window_loop hp self (b_x data) (b_y data) (b_T_ys data) [0%Q] world0)
    as [[st|e] w'] eqn:E; [|vm_compute in E; discriminate].
  exists st, w'. split; [reflexivity|].
  destruct (@window_loop_leaves_short_tail unit hp self (b_x data) (b_y data)
              (b_T_ys data) [0%Q] world0 w' st E) as (ts & n & _ & Hc & _ & Hfull & _).
  destruct (Hfull ltac:(simpl; lia)) as [Hn Htail].
  assert (n = 2%nat) by (apply Nat2Z.inj; rewrite Hn; reflexivity). subst n.
  split; [exact Hc | lia].
Defined.

(** X6.  Shrinking is monotone and only drops samples that have ended,
    whatever the order of the lengths: a window at [t] never moves the
    cursor back and every sample it passes has [T_ys[i] <= t]; when the
    window loop of a batch returns, the cursor is within the batch and
    every sample in front of it had ended at the start of a window that
    the loop ran. *)
Theorem shrink_is_monotone_and_sound :
  forall (P : Type) (hp : hparams) (self : trainer P) (x y : tensor)
         (T_ys : list Z),
    (forall t st (w w' : world P) fl,
        window hp self x y T_ys t st w = (Ok fl, w') ->
        (i_first st <= i_first (flow_state fl))%nat /\
        forall j T, (i_first st <= j < i_first (flow_state fl))%nat ->
                    nth_error T_ys j = Some T -> (T <= t)%Z) /\
    (forall acc (w w' : world P) st,
        window_loop hp self x y T_ys acc w = (Ok st, w') ->
        (i_first st <= dimB y)%nat /\
        forall i T, (i < i_first st)%nat -> nth_error T_ys i = Some T ->
          exists ts t st0 w0,
            range0 (Z.of_nat (dimT y)) (l_target hp) = Ok ts /\
            visits (window hp self x y T_ys) ts (mkWstate 0 None acc) w t st0 w0 /\
            (T <= t)%Z).
Proof.
  intros P hp self x y T_ys.
  assert (Hwindow : forall t st (w w' : world P) fl,
             window hp self x y T_ys t st w = (Ok fl, w') ->
             (i_first st <= i_first (flow_state fl))%nat /\
             ((i_first st <= dimB y)%nat -> (i_first (flow_state fl) <= dimB y)%nat) /\
             forall j T, (i_first st <= j < i_first (flow_state fl))%nat ->
                         nth_error T_ys j = Some T -> (T <= t)%Z).
  { intros t st w w' fl Hwin.
    pose proof (@window_cursor P hp self x y T_ys t st w w' fl Hwin) as Hadv.
    apply (@advance_i_first_ok (dimB y) T_ys t _ _ _ (le_n _)) in Hadv. exact Hadv. }
  split.
  - intros t st w w' fl Hwin. destruct (Hwindow t st w w' fl Hwin) as (H1 & _ & H3).
    split; assumption.
  - intros acc w w' st Hloop. unfold window_loop in Hloop.
    apply bind_inv_ok in Hloop. destruct Hloop as (ts & w1 & Hr & Hloop).
    apply lift_inv_ok in Hr. destruct Hr as [Hr ->]. split.
    + apply (@loop_cursor_in_batch P hp self x y T_ys ts _ w w' st Hloop).
      simpl. lia.
    + intros i T Hi HT.
      destruct (@loop_passed_samples P hp self x y T_ys ts _ w w' st i Hloop)
        as (t & st0 & w0 & fl & w0' & Hv & Hwin & Hj); [simpl; lia|].
      exists ts, t, st0, w0. split; [exact Hr|]. split; [exact Hv|].
      destruct (Hwindow t st0 w0 w0' fl Hwin) as (_ & _ & Hpass).
      apply (Hpass i); assumption.
Qed.

Lemma shrink_is_monotone_and_sound_witness :
  let hp := hp_one 5 2 1 in
  let self := identity_trainer [L1Loss] in
  let data := ones_zeros 2 10 [5; 10]%Z in
  exists st w',
    window_loop hp self (b_x data) (b_y data) (b_T_ys data) [0%Q] world0 = (Ok st, w') /\
    i_first st = 1%nat /\
    exists ts t st0 w0,
      range0 (Z.of_nat (dimT (b_y data))) (l_target hp) = Ok ts /\
      visits (window hp self (b_x data) (b_y data) (b_T_ys data)) ts
        (mkWstate 0 None [0%Q]) world0 t st0 w0 /\
      (5 <= t)%Z.
Proof.
  intros hp self data.
  destruct (window_loop hp self (b_x data) (b_y data) (b_T_ys data) [0%Q] world0)
    as [[st|e] w'] eqn:E; [|vm_compute in E; discriminate].
  assert (Hst : i_first st = 1%nat) by (vm_compute in E; inversion E; reflexivity).
  exists st, w'. split; [reflexivity|]. split; [exact Hst|].
  destruct (proj2 (@shrink_is_monotone_and_sound unit hp self (b_x data) (b_y data)
                     (b_T_ys data)) [0%Q] world0 w' st E) as (_ & Hpassed).
  apply (Hpassed 0%nat 5%Z).
  - rewrite Hst. lia.
  - reflexivity.
Defined.

Lemma calc_loss_empty {P} (hp : hparams) (self : trainer P) (y output : tensor)
    (w : world P) :
  _calc_loss hp self y output [] w = (Raise IndexError, w).
Proof. reflexivity. Qed.

Lemma advance_i_first_all_done (B : nat) (T_ys : list Z) (t : Z) (i : nat) :
  B = length T_ys -> (i <= B)%nat ->
  (forall T, In T T_ys -> (T <= t)%Z) ->
  advance_i_first B T_ys t i = Ok B.
Proof.
  intros HB Hi Hdone.
  destruct (@advance_i_first_spec B T_ys t) with (k := (B - i)%nat) (i := i)
    as (i' & Hrun & Hle & Hin & _ & Hstop); [lia | lia |].
  rewrite Hrun. f_equal.
  destruct (Nat.lt_ge_cases i' B) as [Hlt|Hge]; [|specialize (Hin Hi); lia].
  destruct (nth_error T_ys i') as [T|] eqn:HT.
  - pose proof (Hstop T Hlt eq_refl). pose proof (Hdone T (nth_error_In _ _ HT)). lia.
  - apply nth_error_None in HT. lia.
Qed.

(** X7.  A window of at least 5 time steps that starts when every
    sample of the batch has ended (a batch padded beyond its longest
    sample) still calls the model, on a sub-batch with no sample, and
    the loss computation then raises [IndexError]: nothing has been
    logged but [zero_grad] and that forward pass. *)
Theorem window_without_active_sample_raises :
  forall (P : Type) (hp : hparams) (self : trainer P) (x y : tensor)
         (T_ys : list Z) (t : Z) (st : wstate) (w : world P) (out : tensor),
    dimB y = length T_ys ->
    (i_first st <= dimB y)%nat ->
    (forall T, In T T_ys -> (T <= t)%Z) ->
    (5 <= slice_extent (dimT y) t (t + l_target hp))%nat ->
    forward self (w_params w) (w_mode w) (narrow x (dimB y) t (t + l_input hp))
      = Ok out ->
    window hp self x y T_ys t st w =
    (Raise IndexError,
     logged_all w [EvZeroGrad; EvForward (w_mode w) (dimB x - dimB y)]).
Proof.
  intros P hp self x y T_ys t st w out HB Hi Hdone Hext Hfwd.
  unfold window, bind, emit, lift.
  rewrite (@advance_i_first_all_done (dimB y) T_ys t (i_first st) HB Hi Hdone).
  cbv beta iota zeta.
  assert (Hlt : (dimT (narrow y (dimB y) t (t + l_target hp)) <? 5)%nat = false).
  { apply Nat.ltb_ge. exact Hext. }
  rewrite Hlt. rewrite call_model_run. cbn [w_params w_mode]. rewrite Hfwd.
  assert (Hseg : seg_T_ys T_ys (dimB y) t (l_target hp) = []).
  { unfold seg_T_ys, np_clip_max, np_sub. rewrite HB, skipn_all. reflexivity. }
  rewrite Hseg, calc_loss_empty. unfold logged_all, logged. simpl.
  rewrite <- app_assoc. reflexivity.
Qed.

Lemma window_without_active_sample_raises_witness :
  let hp := hp_one 5 1 1 in
  let self := identity_trainer [L1Loss] in
  let data := ones_zeros 1 10 [5]%Z in
  window hp self (b_x data) (b_y data) (b_T_ys data) 5 (mkWstate 0 None [0%Q]) world0 =
  (Raise IndexError, logged_all world0 [EvZeroGrad; EvForward TrainMode 0]).
Proof.
  intros hp self data.
  apply (@window_without_active_sample_raises unit hp self (b_x data) (b_y data)
           (b_T_ys data) 5%Z (mkWstate 0 None [0%Q]) world0
           (narrow (b_x data) 1 5 10)).
  - reflexivity.
  - simpl. lia.
  - simpl. intros T [<-|[]]. lia.
  - vm_compute. lia.
  - reflexivity.
Defined.

Lemma fast_calls_are_criterion_calls (hp : hparams) (l : list (nat * criterion)) :
  Forall is_criterion_call (flat_map (fast_call hp) l).
Proof.
  induction l as [|ic l IH]; simpl; [constructor|].
  apply Forall_app. split; [|exact IH].
  unfold fast_call. destruct (nth_error (weight_loss hp) (fst ic)) as [w|];
    [|constructor].
  destruct (Qeq_bool w 0); repeat constructor.
Qed.

Lemma ragged_calls_are_criterion_calls (hp : hparams) (n : nat)
    (l : list (nat * criterion)) :
  Forall is_criterion_call (flat_map (ragged_call hp n) l).
Proof.
  induction l as [|ic l IH]; simpl; [constructor|].
  apply Forall_app. split; [|exact IH].
  unfold ragged_call. destruct (nth_error (weight_loss hp) (fst ic)) as [w|];
    [|constructor].
  destruct (Qeq_bool w 0); [constructor|].
  apply Forall_forall. intros e He. apply repeat_spec in He. subst e. exact I.
Qed.

Lemma fast_calls_weighted (hp : hparams) (l : list (nat * criterion)) :
  existsb (weighted hp) l = true <-> flat_map (fast_call hp) l <> [].
Proof.
  induction l as [|ic l IH]; simpl.
  - split; [discriminate | congruence].
  - unfold weighted at 1, fast_call at 1.
    destruct (nth_error (weight_loss hp) (fst ic)) as [w|]; simpl; [|exact IH].
    destruct (Qeq_bool w 0); simpl; [exact IH|].
    split; [discriminate | reflexivity].
Qed.

Lemma ragged_calls_weighted (hp : hparams) (n : nat) (l : list (nat * criterion)) :
  existsb (weighted hp) l && negb (n =? 0)%nat = true <->
  flat_map (ragged_call hp n) l <> [].
Proof.
  induction l as [|ic l IH]; simpl.
  - split; [discriminate | congruence].
  - unfold weighted at 1, ragged_call at 1.
    destruct (nth_error (weight_loss hp) (fst ic)) as [w|]; simpl; [|exact IH].
    destruct (Qeq_bool w 0); simpl; [exact IH|].
    destruct n as [|n]; simpl.
    + rewrite andb_false_r in *. exact IH.
    + split; [discriminate | reflexivity].
Qed.

(** With matching shapes, one weight per criterion and a length for at
    least one sample, the loss computation returns and only logs
    criterion calls; the loss is attached to the autograd graph exactly
    when a criterion has been called. *)
Lemma calc_loss_world {P} (hp : hparams) (self : trainer P) (y output : tensor)
    (T_ys : list Z) (w : world P) :
  same_shape output y = true ->
  (length (criterions self) <= length (weight_loss hp))%nat ->
  T_ys <> [] ->
  exists loss calls,
    _calc_loss hp self y output T_ys w = (Ok loss, logged_all w calls) /\
    length loss = length (criterions self) /\
    Forall is_criterion_call calls /\
    (requires_grad hp self y output T_ys = true <-> calls <> []).
Proof.
  intros Hsh Hw Hne.
  destruct (all_equal_first_nonempty Hne) as [uniform Hu].
  unfold _calc_loss, bind, lift, requires_grad. rewrite Hu. destruct uniform.
  - exists (map (fast_entry hp y output (hd 0%Z T_ys)) (enumerate (criterions self))),
           (flat_map (fast_call hp) (enumerate (criterions self))).
    split; [|split; [|split]].
    + unfold calc_loss_fast, enumerate.
      apply (@fast_closed P hp y output T_ys Hsh (hd 0%Z T_ys)
               (all_equal_first_head _ Hu) (criterions self) 0%nat [] w eq_refl).
      simpl. exact Hw.
    + unfold enumerate. rewrite length_map, length_combine, length_seq.
      apply Nat.min_id.
    + apply fast_calls_are_criterion_calls.
    + rewrite andb_true_r. apply fast_calls_weighted.
  - exists (map (ragged_folded hp y output T_ys) (enumerate (criterions self))),
           (flat_map (ragged_call hp (length (zip_items T_ys y output)))
              (enumerate (criterions self))).
    split; [|split; [|split]].
    + unfold calc_loss_ragged, enumerate.
      apply (@ragged_closed P hp y output T_ys Hsh (criterions self) 0%nat [] w eq_refl).
      simpl. exact Hw.
    + unfold enumerate. rewrite length_map, length_combine, length_seq.
      apply Nat.min_id.
    + apply ragged_calls_are_criterion_calls.
    + apply ragged_calls_weighted.
Qed.

Section WindowRuns.

Variable P : Type.
Variable hp : hparams.
Variable self : trainer P.
Variables x y : tensor.
Variable T_ys : list Z.
Variable t : Z.
Variable st : wstate.
Variable w : world P.

Hypothesis lengths : (dimB y <= length T_ys)%nat.
Hypothesis active :
  exists j T, (i_first st <= j < dimB y)%nat /\
              nth_error T_ys j = Some T /\ (t < T)%Z.
Hypothesis extent : (5 <= slice_extent (dimT y) t (t + l_target hp))%nat.
Hypothesis weights : (length (criterions self) <= length (weight_loss hp))%nat.
Hypothesis model_answers :
  forall i', exists out,
    forward self (w_params w) (w_mode w) (narrow x i' t (t + l_input hp)) = Ok out /\
    same_shape (take_time out (slice_extent (dimT y) t (t + l_target hp)))
               (narrow y i' t (t + l_target hp)) = true.

(** Under the hypotheses above, a window gets as far as the backward
    pass: the cursor stops at an active sample, the model answers, the
    loss is computed, and [backward()] is called on it. *)
Lemma window_up_to_backward :
  exists i' out loss calls,
    advance_i_first (dimB y) T_ys t (i_first st) = Ok i' /\
    (i_first st <= i' < dimB y)%nat /\
    forward self (w_params w) (w_mode w) (narrow x i' t (t + l_input hp)) = Ok out /\
    _calc_loss hp self (narrow y i' t (t + l_target hp))
               (take_time out (slice_extent (dimT y) t (t + l_target hp)))
               (seg_T_ys T_ys i' t (l_target hp))
               (logged_all w [EvZeroGrad; EvForward (w_mode w) (dimB x - i')])
      = (Ok loss,
         logged_all w ([EvZeroGrad; EvForward (w_mode w) (dimB x - i')] ++ calls)) /\
    length loss = length (criterions self) /\
    Forall is_criterion_call calls /\
    (existsb (weighted hp) (enumerate (criterions self)) = true <-> calls <> []) /\
    window hp self x y T_ys t st w =
    bind (backward_and_step self
            (existsb (weighted hp) (enumerate (criterions self)))
            (narrow x i' t (t + l_input hp)) (narrow y i' t (t + l_target hp))
            (seg_T_ys T_ys i' t (l_target hp)))
         (fun _ => ret (Continue (mkWstate i' (Some loss) (vadd (avg_loss st) loss))))
         (logged_all w ([EvZeroGrad; EvForward (w_mode w) (dimB x - i')] ++ calls)).
Proof.
  destruct active as (j & T & Hj & HTj & Hlive).
  destruct (@advance_i_first_spec (dimB y) T_ys t lengths _ (i_first st) (le_n _))
    as (i' & Hadv & Hle & Hin & Hpass & _).
  assert (Hi'j : (i' <= j)%nat).
  { destruct (Nat.lt_ge_cases j i') as [Hlt|Hge]; [|exact Hge].
    assert (T <= t)%Z by (apply (Hpass j); [lia | exact HTj]). lia. }
  destruct (model_answers i') as (out & Hout & Hshape).
  assert (Hseg : seg_T_ys T_ys i' t (l_target hp) <> []).
  { unfold seg_T_ys, np_clip_max, np_sub. intros Hnil.
    apply map_eq_nil in Hnil. apply map_eq_nil in Hnil.
    assert (Hlen : length (skipn i' T_ys) = 0%nat) by (rewrite Hnil; reflexivity).
    rewrite length_skipn in Hlen. lia. }
  pose (w1 := logged (logged w EvZeroGrad) (EvForward (w_mode w) (dimB x - i'))).
  assert (Hw0 : w1 = logged_all w [EvZeroGrad; EvForward (w_mode w) (dimB x - i')]).
  { unfold w1, logged, logged_all. simpl. rewrite <- app_assoc. reflexivity. }
  destruct (@calc_loss_world P hp self (narrow y i' t (t + l_target hp))
              (take_time out (slice_extent (dimT y) t (t + l_target hp)))
              (seg_T_ys T_ys i' t (l_target hp)) w1 Hshape weights Hseg)
    as (loss & calls & Hloss & Hlen & Hcalls & Hgrad).
  assert (Hw1 : logged_all w1 calls
                = logged_all w ([EvZeroGrad; EvForward (w_mode w) (dimB x - i')] ++ calls)).
  { rewrite Hw0, logged_all_app. reflexivity. }
  assert (Hreq : requires_grad hp self (narrow y i' t (t + l_target hp))
                   (take_time out (slice_extent (dimT y) t (t + l_target hp)))
                   (seg_T_ys T_ys i' t (l_target hp))
                 = existsb (weighted hp) (enumerate (criterions self))).
  { unfold requires_grad.
    destruct (existsb (weighted hp) (enumerate (criterions self))); [|reflexivity].
    destruct (all_equal_first_nonempty Hseg) as [[|] Hu]; rewrite Hu; [reflexivity|].
    unfold zip_items. rewrite length_combine, length_seq.
    apply same_shape_dims in Hshape. destruct Hshape as (HdB & _).
    rewrite HdB, Nat.min_id. simpl dimB.
    destruct (seg_T_ys T_ys i' t (l_target hp)) as [|a l]; [congruence|].
    simpl length. destruct (dimB y - i')%nat eqn:E; [lia|reflexivity]. }
  exists i', out, loss, calls.
  split; [exact Hadv|]. split; [lia|]. split; [exact Hout|].
  split; [rewrite <- Hw1, <- Hw0; exact Hloss|]. split; [exact Hlen|].
  split; [exact Hcalls|].
  split; [rewrite <- Hreq; exact Hgrad|].
  unfold window. unfold bind at 1, emit at 1. unfold bind at 1, lift at 1.
  rewrite Hadv. cbv beta iota zeta.
  assert (Hlt : (dimT (narrow y i' t (t + l_target hp)) <? 5)%nat = false).
  { apply Nat.ltb_ge. exact extent. }
  rewrite Hlt. unfold bind at 1. rewrite call_model_run.
  cbn [w_params w_mode]. rewrite Hout.
  change (logged _ (EvForward (w_mode w) (dimB (narrow x i' t (t + l_input hp)))))
    with w1.
  unfold bind at 1.
  change (dimT (narrow y i' t (t + l_target hp)))
    with (slice_extent (dimT y) t (t + l_target hp)).
  rewrite Hloss, Hw1, Hreq. reflexivity.
Qed.

End WindowRuns.

(** X8.  A window of at least 5 time steps with a sample still active,
    a model that answers with an output of the shape of the target
    window, one weight per criterion and at least one weight that is
    not zero: the window clears the gradients, advances the cursor to
    [i'], calls the model once on the sub-batch from [i'] on, computes
    the loss of that sub-batch on the target window and the clipped
    lengths with [_calc_loss], runs backward and one optimizer step, in
    this order; it goes on to the next window with the cursor [i'],
    that loss as [loss_t] and added to the accumulator, the parameters
    updated by the optimizer step and the mode of the model as it
    was. *)
Theorem window_trains_once :
  forall (P : Type) (hp : hparams) (self : trainer P) (x y : tensor)
         (T_ys : list Z) (t : Z) (st : wstate) (w : world P),
    (dimB y <= length T_ys)%nat ->
    (exists j T, (i_first st <= j < dimB y)%nat /\
                 nth_error T_ys j = Some T /\ (t < T)%Z) ->
    (5 <= slice_extent (dimT y) t (t + l_target hp))%nat ->
    (length (criterions self) <= length (weight_loss hp))%nat ->
    existsb (weighted hp) (enumerate (criterions self)) = true ->
    (forall i', exists out,
        forward self (w_params w) (w_mode w) (narrow x i' t (t + l_input hp)) = Ok out /\
        same_shape (take_time out (slice_extent (dimT y) t (t + l_target hp)))
                   (narrow y i' t (t + l_target hp)) = true) ->
    exists i' out loss calls,
      advance_i_first (dimB y) T_ys t (i_first st) = Ok i' /\
      (i_first st <= i' < dimB y)%nat /\
      forward self (w_params w) (w_mode w) (narrow x i' t (t + l_input hp)) = Ok out /\
      _calc_loss hp self (narrow y i' t (t + l_target hp))
                 (take_time out (slice_extent (dimT y) t (t + l_target hp)))
                 (seg_T_ys T_ys i' t (l_target hp))
                 (logged_all w [EvZeroGrad; EvForward (w_mode w) (dimB x - i')])
        = (Ok loss,
           logged_all w ([EvZeroGrad; EvForward (w_mode w) (dimB x - i')] ++ calls)) /\
      Forall is_criterion_call calls /\
      calls <> [] /\
      window hp self x y T_ys t st w =
      (Ok (Continue (mkWstate i' (Some loss) (vadd (avg_loss st) loss))),
       mkWorld (opt_step self (narrow x i' t (t + l_input hp))
                  (narrow y i' t (t + l_target hp))
                  (seg_T_ys T_ys i' t (l_target hp)) (w_params w) (w_mode w))
               (w_mode w)
               (w_log w ++ [EvZeroGrad; EvForward (w_mode w) (dimB x - i')]
                        ++ calls ++ [EvBackward; EvOptStep])).
Proof.
  intros P hp self x y T_ys t st w HB Hact Hext Hw Hsome Hfwd.
  destruct (@window_up_to_backward P hp self x y T_ys t st w HB Hact Hext Hw Hfwd)
    as (i' & out & loss & calls & Hadv & Hi' & Hout & Hloss & _ & Hcalls & Hgrad & Hwin).
  exists i', out, loss, calls.
  split; [exact Hadv|]. split; [exact Hi'|]. split; [exact Hout|].
  split; [exact Hloss|]. split; [exact Hcalls|].
  split; [apply Hgrad; exact Hsome|].
  rewrite Hwin, Hsome.
  unfold backward_and_step, bind, emit, update_params, ret, logged_all. simpl.
  rewrite <- !app_assoc. reflexivity.
Qed.

Lemma window_trains_once_witness :
  let hp := hp_one 5 2 1 in
  let self := identity_trainer [L1Loss] in
  let data := ones_zeros 2 10 [5; 10]%Z in
  let st := mkWstate 0 None [0%Q] in
  exists loss,
    window hp self (b_x data) (b_y data) (b_T_ys data) 0 st world0 =
    (Ok (Continue (mkWstate 0 (Some loss) (vadd (avg_loss st) loss))),
     mkWorld tt TrainMode
       [EvZeroGrad; EvForward TrainMode 2; EvCriterion 0; EvBackward; EvOptStep]).
Proof.
  intros hp self data st.
  destruct (@window_trains_once unit hp self (b_x data) (b_y data) (b_T_ys data)
              0%Z st world0)
    as (i' & out & loss & calls & Hadv & _ & Hout & Hloss & _ & _ & Hwin).
  - simpl. lia.
  - exists 0%nat, 5%Z. simpl. repeat split; lia.
  - vm_compute. lia.
  - simpl. lia.
  - reflexivity.
  - intros i'. eexists. split; [reflexivity|].
    unfold same_shape. cbn. rewrite !Nat.eqb_refl. reflexivity.
  - assert (i' = 0%nat) by (vm_compute in Hadv; congruence). subst i'.
    simpl in Hout. inversion Hout; subst out. clear Hout.
    assert (calls = [EvCriterion 0]).
    { vm_compute in Hloss. inversion Hloss. reflexivity. }
    subst calls. exists loss. rewrite Hwin. reflexivity.
Defined.

(** X22.  A window of at least 5 time steps with a sample still active,
    a model that answers with an output of the shape of the target
    window and one weight per criterion, all of them zero: no criterion
    is called, [backward()] raises [RuntimeError] on the loss, which is
    not attached to the autograd graph, and the window ends there: only
    [zero_grad], the forward pass and the call of [backward()] have
    happened, the optimizer is not stepped and the parameters are as
    they were. *)
Theorem window_without_weighted_criterion_raises :
  forall (P : Type) (hp : hparams) (self : trainer P) (x y : tensor)
         (T_ys : list Z) (t : Z) (st : wstate) (w : world P),
    (dimB y <= length T_ys)%nat ->
    (exists j T, (i_first st <= j < dimB y)%nat /\
                 nth_error T_ys j = Some T /\ (t < T)%Z) ->
    (5 <= slice_extent (dimT y) t (t + l_target hp))%nat ->
    (length (criterions self) <= length (weight_loss hp))%nat ->
    existsb (weighted hp) (enumerate (criterions self)) = false ->
    (forall i', exists out,
        forward self (w_params w) (w_mode w) (narrow x i' t (t + l_input hp)) = Ok out /\
        same_shape (take_time out (slice_extent (dimT y) t (t + l_target hp)))
                   (narrow y i' t (t + l_target hp)) = true) ->
    exists i',
      advance_i_first (dimB y) T_ys t (i_first st) = Ok i' /\
      window hp self x y T_ys t st w =
      (Raise RuntimeError,
       logged_all w [EvZeroGrad; EvForward (w_mode w) (dimB x - i'); EvBackward]).
Proof.
  intros P hp self x y T_ys t st w HB Hact Hext Hw Hnone Hfwd.
  destruct (@window_up_to_backward P hp self x y T_ys t st w HB Hact Hext Hw Hfwd)
    as (i' & out & loss & calls & Hadv & _ & _ & _ & _ & _ & Hgrad & Hwin).
  exists i'. split; [exact Hadv|].
  assert (calls = []).
  { destruct calls as [|e calls]; [reflexivity|].
    assert (existsb (weighted hp) (enumerate (criterions self)) = true)
      by (apply Hgrad; discriminate).
    congruence. }
  subst calls. rewrite Hwin, Hnone.
  unfold backward_and_step, bind, emit, raise, logged_all. simpl.
  rewrite <- !app_assoc. reflexivity.
Qed.

Lemma window_without_weighted_criterion_raises_witness :
  let hp := mkHparams 5 5 2 1 1 [0%Q] in
  let self := identity_trainer [L1Loss] in
  let data := ones_zeros 2 10 [5; 10]%Z in
  let st := mkWstate 0 None [0%Q] in
  window hp self (b_x data) (b_y data) (b_T_ys data) 0 st world0 =
  (Raise RuntimeError,
   logged_all world0 [EvZeroGrad; EvForward TrainMode 2; EvBackward]).
Proof.
  intros hp self data st.
  destruct (@window_without_weighted_criterion_raises unit hp self (b_x data)
              (b_y data) (b_T_ys data) 0%Z st world0) as (i' & Hadv & Hwin).
  - simpl. lia.
  - exists 0%nat, 5%Z. simpl. repeat split; lia.
  - vm_compute. lia.
  - simpl. lia.
  - reflexivity.
  - intros i'. eexists. split; [reflexivity|].
    unfold same_shape. cbn. rewrite !Nat.eqb_refl. reflexivity.
  - assert (i' = 0%nat) by (vm_compute in Hadv; congruence). subst i'.
    exact Hwin.
Defined.

(* ===================================================================== *)
(** ** The running accumulator                                            *)
(* ===================================================================== *)

Section Accumulator.

Variable P : Type.
Variable hp : hparams.
Variable self : trainer P.

Lemma window_acc x y T_ys t i lt (w : world P) :
  exists o w', forall acc,
    window hp self x y T_ys t (mkWstate i lt acc) w = (window_outcome lt acc o, w').
Proof.
  destruct (advance_i_first (dimB y) T_ys t i) as [i'|e] eqn:Hadv.
  2: { exists (Raise e), (logged w EvZeroGrad). intros acc.
       unfold window, bind, emit, lift. cbn [i_first]. rewrite Hadv. reflexivity. }
  destruct (dimT (narrow y i' t (t + l_target hp)) <? 5)%nat eqn:Hlt.
  { exists (Ok (i', None)), (logged w EvZeroGrad). intros acc.
    unfold window, bind, emit, lift. cbn [i_first loss_t avg_loss].
    rewrite Hadv. cbv beta iota zeta. rewrite Hlt. reflexivity. }
  destruct (call_model self (narrow x i' t (t + l_input hp)) (logged w EvZeroGrad))
    as [[out|e] w2] eqn:Hcall.
  2: { exists (Raise e), w2. intros acc.
       unfold window, bind, emit, lift. cbn [i_first loss_t avg_loss].
       rewrite Hadv. cbv beta iota zeta. rewrite Hlt.
       fold (logged w EvZeroGrad). rewrite Hcall. reflexivity. }
  destruct (_calc_loss hp self (narrow y i' t (t + l_target hp))
              (take_time out (dimT (narrow y i' t (t + l_target hp))))
              (seg_T_ys T_ys i' t (l_target hp)) w2) as [[loss|e] w3] eqn:Hloss.
  2: { exists (Raise e), w3. intros acc.
       unfold window, bind, emit, lift. cbn [i_first loss_t avg_loss].
       rewrite Hadv. cbv beta iota zeta. rewrite Hlt.
       fold (logged w EvZeroGrad). rewrite Hcall, Hloss. reflexivity. }
  destruct (requires_grad hp self (narrow y i' t (t + l_target hp))
              (take_time out (dimT (narrow y i' t (t + l_target hp))))
              (seg_T_ys T_ys i' t (l_target hp))) eqn:Hgrad.
  - exists (Ok (i', Some loss)). eexists. intros acc.
    unfold window, bind, emit, lift. cbn [i_first loss_t avg_loss].
    rewrite Hadv. cbv beta iota zeta. rewrite Hlt.
    fold (logged w EvZeroGrad). rewrite Hcall, Hloss.
    unfold backward_and_step, bind, emit, update_params. rewrite Hgrad. reflexivity.
  - exists (Raise RuntimeError). eexists. intros acc.
    unfold window, bind, emit, lift. cbn [i_first loss_t avg_loss].
    rewrite Hadv. cbv beta iota zeta. rewrite Hlt.
    fold (logged w EvZeroGrad). rewrite Hcall, Hloss.
    unfold backward_and_step, bind, emit, raise. rewrite Hgrad. reflexivity.
Qed.

Lemma for_break_acc x y T_ys ts :
  forall i lt (w : world P),
  exists o w',
    (forall acc,
       for_break ts (window hp self x y T_ys) (mkWstate i lt acc) w =
       (loop_outcome lt acc o, w')) /\
    (forall i' losses, o = Ok (i', losses) ->
       count_opt_steps (w_log w') = (count_opt_steps (w_log w) + length losses)%nat).
Proof.
  induction ts as [|t ts IH]; intros i lt w.
  - exists (Ok (i, [])), w. split; [intros acc; reflexivity|].
    intros i' losses H. inversion H; subst. simpl. lia.
  - destruct (window_acc x y T_ys t i lt w) as (o1 & w1 & H1).
    destruct o1 as [[i' [loss|]]|e].
    + pose proof (@window_steps P hp self x y T_ys t _ w w1 _ (H1 [])) as [_ Hc1].
      destruct (IH i' (Some loss) w1) as (o2 & w2 & H2 & Hc2).
      exists (match o2 with
              | Ok (i'', losses) => Ok (i'', loss :: losses)
              | Raise e => Raise e
              end), w2.
      split.
      * intros acc. simpl. unfold bind. rewrite H1. simpl. rewrite H2.
        destruct o2 as [[i'' losses]|e]; reflexivity.
      * intros i'' losses H. destruct o2 as [[i2 losses2]|e]; [|discriminate].
        pose proof (Hc2 i2 losses2 eq_refl) as Hc.
        inversion H; subst. rewrite Hc, Hc1. simpl. lia.
    + pose proof (@window_steps P hp self x y T_ys t _ w w1 _ (H1 [])) as [_ Hc1].
      exists (Ok (i', [])), w1. split.
      * intros acc. simpl. unfold bind. rewrite H1. reflexivity.
      * intros i'' losses H. inversion H; subst. simpl. lia.
    + exists (Raise e), w1. split; [|discriminate].
      intros acc. simpl. unfold bind. rewrite H1. reflexivity.
Qed.

Lemma window_loop_acc x y T_ys (w : world P) :
  exists o w',
    (forall acc, window_loop hp self x y T_ys acc w = (loop_outcome None acc o, w')) /\
    (forall i' losses, o = Ok (i', losses) ->
       count_opt_steps (w_log w') = (count_opt_steps (w_log w) + length losses)%nat).
Proof.
  unfold window_loop, bind, lift.
  destruct (range0 (Z.of_nat (dimT y)) (l_target hp)) as [ts|e].
  - apply for_break_acc.
  - exists (Raise e), w. split; [intros acc; reflexivity | discriminate].
Qed.

Lemma train_batch_acc epoch n it (w : world P) :
  exists o w',
    (forall acc, train_batch hp self epoch n it acc w = (batch_outcome acc o, w')) /\
    (forall losses, o = Ok losses ->
       count_opt_steps (w_log w') = (count_opt_steps (w_log w) + length losses)%nat).
Proof.
  destruct it as [i_iter data].
  destruct (window_loop_acc (b_x data) (b_y data) (b_T_ys data) w)
    as (o & w1 & Hloop & Hcount).
  destruct o as [[i losses]|e].
  2: { exists (Raise e), w1. split; [|discriminate]. intros acc.
       unfold train_batch, bind. rewrite Hloop. reflexivity. }
  specialize (Hcount i losses eq_refl).
  destruct (fractional_epoch hp epoch i_iter n) as [pos|e] eqn:Hpos.
  2: { exists (Raise e), w1. split; [|discriminate]. intros acc.
       unfold train_batch, bind.
       rewrite Hloop. simpl. unfold lift. rewrite Hpos. reflexivity. }
  destruct (last_loss None losses) as [l|] eqn:Hlast.
  - exists (Ok losses). eexists. split.
    + intros acc. unfold train_batch, bind.
      rewrite Hloop. simpl. unfold lift. rewrite Hpos.
      unfold scheduler_step, bind, emit, update_params, report_last. simpl.
      rewrite Hlast. reflexivity.
    + intros losses' H. inversion H; subst losses'. simpl.
      rewrite !count_opt_steps_app. simpl. lia.
  - exists (Raise AttributeError). eexists. split; [|discriminate].
    intros acc. unfold train_batch, bind.
    rewrite Hloop. simpl. unfold lift. rewrite Hpos.
    unfold scheduler_step, bind, emit, update_params, report_last. simpl.
    rewrite Hlast. reflexivity.
Qed.

End Accumulator.

(** X9.  Within the batch loop of an epoch the running accumulator is
    only written to.  Whether an exception is raised, what is logged and
    the state the model is left in do not depend on the value the
    accumulator had on entry; the accumulator returned is that value
    plus loss vectors that do not depend on it either, added in order,
    one for each optimizer step that was made. *)
Theorem accumulator_is_write_only :
  forall (P : Type) (hp : hparams) (self : trainer P) (epoch n : Z)
         (its : list (nat * batch)) (w : world P),
  exists o w',
    (forall acc,
       for_each its (train_batch hp self epoch n) acc w = (batch_outcome acc o, w')) /\
    (forall losses, o = Ok losses ->
       count_opt_steps (w_log w') = (count_opt_steps (w_log w) + length losses)%nat).
Proof.
  intros P hp self epoch n its. induction its as [|it its IH]; intros w.
  - exists (Ok []), w. split; [intros acc; reflexivity|].
    intros losses H. inversion H; subst. simpl. lia.
  - destruct (train_batch_acc hp self epoch n it w) as (o1 & w1 & H1 & Hc1).
    destruct o1 as [losses1|e].
    + destruct (IH w1) as (o2 & w2 & H2 & Hc2).
      exists (match o2 with
              | Ok losses2 => Ok (losses1 ++ losses2)
              | Raise e => Raise e
              end), w2.
      split.
      * intros acc. rewrite for_each_cons. unfold bind. rewrite H1. simpl.
        rewrite H2. destruct o2 as [losses2|e]; simpl; [|reflexivity].
        rewrite fold_left_app. reflexivity.
      * intros losses H. destruct o2 as [losses2|e]; [|discriminate].
        pose proof (Hc2 losses2 eq_refl) as Hc. pose proof (Hc1 losses1 eq_refl) as Hc'.
        inversion H; subst. rewrite Hc, Hc', length_app. lia.
    + exists (Raise e), w1. split; [|discriminate].
      intros acc. rewrite for_each_cons. unfold bind.
      rewrite H1. reflexivity.
Qed.

Lemma accumulator_is_write_only_witness :
  let hp := hp_one 5 1 1 in
  let self := identity_trainer [L1Loss] in
  let its := [(0%nat, ones_zeros 1 5 [5]%Z)] in
  exists losses w',
    (forall acc,
       for_each its (train_batch hp self 0 1) acc world0
       = (Ok (fold_left vadd losses acc), w')) /\
    count_opt_steps (w_log w') = length losses /\
    length losses = 1%nat.
Proof.
  intros hp self its.
  destruct (@accumulator_is_write_only unit hp self 0%Z 1%Z its world0)
    as (o & w' & Hrun & Hcount).
  pose proof (Hrun [0%Q]) as H0.
  destruct o as [losses|e]; [|vm_compute in H0; discriminate].
  exists losses, w'. split; [exact Hrun|].
  specialize (Hcount losses eq_refl). simpl in Hcount.
  split; [exact Hcount|]. rewrite <- Hcount.
  assert (Hw : w' = snd (for_each its (train_batch hp self 0 1) [0%Q] world0))
    by (rewrite H0; reflexivity).
  rewrite Hw. vm_compute. reflexivity.
Defined.

(* ===================================================================== *)
(** ** The mode of the model, the epochs and the checkpoints              *)
(* ===================================================================== *)

Section TrainMode.

Variable P : Type.
Variable hp : hparams.
Variable self : trainer P.
Variable md : mode.

Lemma window_keeps_mode x y T_ys t st :
  keeps_mode md (forward_in md) (window hp self x y T_ys t st).
Proof.
  unfold window. apply keeps_mode_bind; [apply keeps_mode_emit; exact I|].
  intros _. apply keeps_mode_bind; [apply keeps_mode_lift|].
  intros i'. cbv zeta.
  destruct (dimT (narrow y i' t (t + l_target hp)) <? 5)%nat;
    [apply keeps_mode_ret|].
  apply keeps_mode_bind.
  { apply call_model_keeps_mode. intros b. reflexivity. }
  intros out. apply keeps_mode_bind.
  { apply calc_loss_keeps_mode. intros j wj _ _. exact I. }
  intros loss. apply keeps_mode_bind; [|intros _; apply keeps_mode_ret].
  apply backward_and_step_keeps_mode; exact I.
Qed.

Lemma train_batch_keeps_mode epoch n it acc :
  keeps_mode md (forward_in md) (train_batch hp self epoch n it acc).
Proof.
  destruct it as [i_iter data]. unfold train_batch.
  apply keeps_mode_bind.
  { unfold window_loop. apply keeps_mode_bind; [apply keeps_mode_lift|].
    intros ts. apply keeps_mode_for_break. intros t st _.
    apply window_keeps_mode. }
  intros st. apply keeps_mode_bind; [apply keeps_mode_lift|].
  intros pos. apply keeps_mode_bind.
  { unfold scheduler_step. apply keeps_mode_bind; [apply keeps_mode_emit; exact I|].
    intros _. apply keeps_mode_update. }
  intros _. apply keeps_mode_bind; [|intros _; apply keeps_mode_ret].
  unfold report_last. destruct (loss_t st);
    [apply keeps_mode_emit; exact I | apply keeps_mode_raise].
Qed.

End TrainMode.

(** X10.  Training never sets the mode of the model: over the batches
    of an epoch the mode stays what it was on entry, and every forward
    pass of a training window runs in that mode, be it training or
    evaluation mode. *)
Theorem training_runs_in_entry_mode :
  forall (P : Type) (hp : hparams) (self : trainer P) (epoch n : Z)
         (its : list (nat * batch)) (acc : list Q) (w : world P),
    w_mode (snd (for_each its (train_batch hp self epoch n) acc w)) = w_mode w /\
    exists new,
      w_log (snd (for_each its (train_batch hp self epoch n) acc w)) = w_log w ++ new /\
      Forall (forward_in (w_mode w)) new.
Proof.
  intros P hp self epoch n its acc w.
  apply (@keeps_mode_for_each P _ _ (w_mode w) (forward_in (w_mode w)) its
           (train_batch hp self epoch n)); [|reflexivity].
  intros it s _. apply train_batch_keeps_mode.
Qed.

Lemma validate_ok_mode {P} (hp : hparams) (self : trainer P) (ld : loader)
    (epoch : Z) (w w' : world P) r :
  validate hp self ld epoch w = (Ok r, w') -> w_mode w' = TrainMode.
Proof.
  unfold validate. intros H.
  apply bind_inv_ok in H. destruct H as ([] & w1 & _ & H).
  apply bind_inv_ok in H. destruct H as (avg & w2 & _ & H).
  apply bind_inv_ok in H. destruct H as ([] & w3 & _ & H).
  apply bind_inv_ok in H. destruct H as ([] & w4 & Hset & H).
  inversion H; subst. inversion Hset; subst. reflexivity.
Qed.

Lemma train_epoch_ok_mode {P} (hp : hparams) (self : trainer P)
    (lt lv : loader) (epoch : Z) (acc acc' : list Q) (w w' : world P) :
  train_epoch hp self lt lv epoch acc w = (Ok acc', w') -> w_mode w' = TrainMode.
Proof.
  unfold train_epoch. intros H.
  apply bind_inv_ok in H. destruct H as (a1 & w1 & _ & H).
  apply bind_inv_ok in H. destruct H as ([] & w2 & _ & H).
  apply bind_inv_ok in H. destruct H as (r & w3 & Hval & H).
  apply validate_ok_mode in Hval.
  apply bind_inv_ok in H. destruct H as (due & w4 & Hdue & H).
  apply lift_inv_ok in Hdue. destruct Hdue as [_ ->].
  apply bind_inv_ok in H. destruct H as ([] & w5 & Hsave & H).
  inversion H; subst.
  destruct due; inversion Hsave; subst; exact Hval.
Qed.

Lemma for_each_last_world {P A S} (Q : world P -> Prop) (xs : list A)
    (body : A -> S -> M P S) :
  xs <> [] ->
  (forall x s w s' w', body x s w = (Ok s', w') -> Q w') ->
  forall s w s' w', for_each xs body s w = (Ok s', w') -> Q w'.
Proof.
  induction xs as [|x xs IH]; intros Hne Hbody s w s' w' Hrun; [congruence|].
  rewrite for_each_cons in Hrun. apply bind_inv_ok in Hrun.
  destruct Hrun as (s1 & w1 & Hb & Hrun).
  destruct xs as [|x' xs'].
  - simpl in Hrun. inversion Hrun; subst. eapply Hbody. exact Hb.
  - eapply IH; [discriminate | exact Hbody | exact Hrun].
Qed.

(* ===================================================================== *)
(** ** Further properties of [validate]                                   *)
(* ===================================================================== *)

Section ParamsFacts.

Variable P : Type.

Lemma keeps_params_ret {A} (a : A) : keeps_params (P:=P) (ret a).
Proof. intros w. reflexivity. Qed.

Lemma keeps_params_lift {A} (r : result A) : keeps_params (P:=P) (lift r).
Proof. intros w. reflexivity. Qed.

Lemma keeps_params_raise {A} e : keeps_params (P:=P) (A:=A) (raise e).
Proof. intros w. reflexivity. Qed.

Lemma keeps_params_emit e : keeps_params (P:=P) (emit e).
Proof. intros w. reflexivity. Qed.

Lemma keeps_params_set_mode md : keeps_params (P:=P) (set_mode md).
Proof. intros w. reflexivity. Qed.

Lemma keeps_params_bind {A B} (m : M P A) (k : A -> M P B) :
  keeps_params m -> (forall a, keeps_params (k a)) -> keeps_params (bind m k).
Proof.
  intros Hm Hk w. unfold bind. specialize (Hm w).
  destruct (m w) as [[a|e] w1]; simpl in *; [|exact Hm].
  rewrite (Hk a w1). exact Hm.
Qed.

Lemma keeps_params_for_each {A S} (xs : list A) (body : A -> S -> M P S) :
  (forall x s, keeps_params (body x s)) -> forall s, keeps_params (for_each xs body s).
Proof.
  intros Hbody. induction xs as [|x xs IH]; intros s; simpl.
  - apply keeps_params_ret.
  - apply keeps_params_bind; [apply Hbody | exact IH].
Qed.

Lemma call_model_keeps_params (self : trainer P) x : keeps_params (call_model self x).
Proof. intros w. reflexivity. Qed.

Lemma calc_loss_keeps_params hp (self : trainer P) y output T_ys :
  keeps_params (_calc_loss hp self y output T_ys).
Proof.
  assert (Hcrit : forall i c a b, keeps_params (P:=P) (call_criterion i c a b)).
  { intros i c a b. unfold call_criterion.
    apply keeps_params_bind; [apply keeps_params_emit|].
    intros _. apply keeps_params_lift. }
  unfold _calc_loss. apply keeps_params_bind; [apply keeps_params_lift|].
  intros [|].
  - unfold calc_loss_fast. apply keeps_params_for_each. intros [i c] s.
    unfold fast_body. apply keeps_params_bind; [apply keeps_params_lift|].
    intros wi. destruct (Qeq_bool wi 0); [apply keeps_params_ret|].
    apply keeps_params_bind; [apply Hcrit|].
    intros v. apply keeps_params_bind; [apply keeps_params_lift|].
    intros T0. apply keeps_params_ret.
  - unfold calc_loss_ragged. apply keeps_params_for_each. intros [i c] s.
    unfold ragged_body. apply keeps_params_bind; [apply keeps_params_lift|].
    intros wi. destruct (Qeq_bool wi 0); [apply keeps_params_ret|].
    apply keeps_params_bind; [|intros s'; apply keeps_params_ret].
    apply keeps_params_for_each. intros [T b] s'. unfold ragged_item.
    apply keeps_params_bind; [apply Hcrit|].
    intros v. apply keeps_params_ret.
Qed.

Lemma add_scalars_keeps_params (self : trainer P) total each avg epoch :
  keeps_params (add_scalars self total each avg epoch).
Proof.
  unfold add_scalars. apply keeps_params_bind; [apply keeps_params_emit|].
  intros _. destruct (1 <? length (criterions self))%nat;
    [|apply keeps_params_ret].
  apply keeps_params_for_each. intros [i ll] []. apply keeps_params_emit.
Qed.

Lemma validate_keeps_params hp (self : trainer P) ld epoch :
  keeps_params (validate hp self ld epoch).
Proof.
  unfold validate. apply keeps_params_bind; [apply keeps_params_set_mode|].
  intros _. apply keeps_params_bind.
  - apply keeps_params_for_each. intros [i_iter data] avg. unfold validate_batch.
    apply keeps_params_bind; [apply call_model_keeps_params|].
    intros output. apply keeps_params_bind; [apply calc_loss_keeps_params|].
    intros loss. apply keeps_params_bind; [apply keeps_params_emit|].
    intros _. apply keeps_params_bind; [|intros _; apply keeps_params_ret].
    destruct (i_iter =? 0)%nat; [|apply keeps_params_ret].
    apply keeps_params_bind; [|intros _; apply keeps_params_emit].
    unfold _post_one. apply keeps_params_bind; [apply keeps_params_lift|].
    intros T. destruct (0 <? dimB output)%nat;
      [apply keeps_params_ret | apply keeps_params_raise].
  - intros avg. apply keeps_params_bind; [apply add_scalars_keeps_params|].
    intros _. apply keeps_params_bind; [apply keeps_params_set_mode|].
    intros _. apply keeps_params_ret.
Qed.

End ParamsFacts.

Section LogsFacts.

Variable P : Type.
Variable ok : event -> Prop.

Lemma logs_only_pure {A} (m : M P A) :
  (forall w, w_log (snd (m w)) = w_log w) -> logs_only ok m.
Proof.
  intros H w. exists []. rewrite app_nil_r. split; [apply H | constructor].
Qed.

Lemma logs_only_emit e : ok e -> logs_only (P:=P) ok (emit e).
Proof. intros He w. exists [e]. split; [reflexivity | auto]. Qed.

Lemma logs_only_bind {A B} (m : M P A) (k : A -> M P B) :
  logs_only ok m -> (forall a, logs_only ok (k a)) -> logs_only ok (bind m k).
Proof.
  intros Hm Hk w. unfold bind. destruct (Hm w) as (new & Hlog & Hnew).
  destruct (m w) as [[a|e] w1]; simpl in *.
  - destruct (Hk a w1) as (new2 & Hlog2 & Hnew2).
    exists (new ++ new2). rewrite Hlog2, Hlog, app_assoc.
    split; [reflexivity | apply Forall_app; auto].
  - exists new. auto.
Qed.

Lemma logs_only_for_each {A S} (xs : list A) (body : A -> S -> M P S) :
  (forall x s, logs_only ok (body x s)) -> forall s, logs_only ok (for_each xs body s).
Proof.
  intros Hbody. induction xs as [|x xs IH]; intros s; simpl.
  - apply logs_only_pure. reflexivity.
  - apply logs_only_bind; [apply Hbody | exact IH].
Qed.

Lemma logs_only_of_keeps_mode {A} (m : M P A) :
  (forall md, keeps_mode md ok m) -> logs_only ok m.
Proof. intros H w. destruct (H (w_mode w) w eq_refl) as [_ Hnew]. exact Hnew. Qed.

End LogsFacts.

Lemma validate_logs_only {P} (ok : event -> Prop) hp (self : trainer P) ld epoch :
  (forall md b, ok (EvForward md b)) ->
  (forall j, ok (EvCriterion j)) ->
  (forall v, ok (EvPostfix v)) ->
  (forall e b, ok (EvWriteOne e b)) ->
  (forall tg v e, ok (EvAddScalar tg v e)) ->
  logs_only ok (validate hp self ld epoch).
Proof.
  intros Hfw Hcr Hpf Hwr Hsc. unfold validate.
  apply logs_only_bind; [apply logs_only_pure; reflexivity|].
  intros _. apply logs_only_bind.
  - apply logs_only_for_each. intros [i_iter data] avg. unfold validate_batch.
    apply logs_only_bind.
    { apply logs_only_of_keeps_mode. intros md.
      apply call_model_keeps_mode. intros b. apply Hfw. }
    intros output. apply logs_only_bind.
    { apply logs_only_of_keeps_mode. intros md.
      apply calc_loss_keeps_mode. intros j wj _ _. apply Hcr. }
    intros loss. apply logs_only_bind; [apply logs_only_emit; apply Hpf|].
    intros _. apply logs_only_bind; [|intros _; apply logs_only_pure; reflexivity].
    destruct (i_iter =? 0)%nat; [|apply logs_only_pure; reflexivity].
    apply logs_only_bind; [|intros _; apply logs_only_emit; apply Hwr].
    apply logs_only_pure. intros w. unfold _post_one, bind, lift.
    destruct (index (b_T_ys data) 0); [|reflexivity].
    destruct (0 <? dimB output)%nat; reflexivity.
  - intros avg. apply logs_only_bind.
    { apply logs_only_of_keeps_mode. intros md.
      apply add_scalars_keeps_mode. intros tg v. apply Hsc. }
    intros _. apply logs_only_bind; [apply logs_only_pure; reflexivity|].
    intros _. apply logs_only_pure. reflexivity.
Qed.

(** X13.  Validation does not train: it leaves the parameters of model
    and optimizer as they are and logs no [zero_grad], no backward
    pass, no optimizer step, no scheduler step and no checkpoint,
    whether it returns or raises. *)
Theorem validate_does_not_train :
  forall (P : Type) (hp : hparams) (self : trainer P) (ld : loader)
         (epoch : Z) (w : world P),
    w_params (snd (validate hp self ld epoch w)) = w_params w /\
    exists new,
      w_log (snd (validate hp self ld epoch w)) = w_log w ++ new /\
      Forall no_update new.
Proof.
  intros P hp self ld epoch w. split.
  - apply validate_keeps_params.
  - apply validate_logs_only; intros; exact I.
Qed.

Lemma count_write_one_app (l1 l2 : list event) :
  count_write_one (l1 ++ l2) = (count_write_one l1 + count_write_one l2)%nat.
Proof.
  induction l1 as [|e l1 IH]; simpl; [reflexivity|].
  destruct e; simpl; rewrite IH; reflexivity.
Qed.

Lemma count_write_one_none (l : list event) :
  Forall (fun e => match e with EvWriteOne _ _ => False | _ => True end) l ->
  count_write_one l = 0%nat.
Proof.
  induction 1 as [|e l He _ IH]; [reflexivity|].
  destruct e; simpl; try exact IH. destruct He.
Qed.

Section WritesFacts.

Variable P : Type.

Lemma writes_none {A} (m : M P A) :
  logs_only (fun e => match e with EvWriteOne _ _ => False | _ => True end) m ->
  writes 0 m.
Proof.
  intros H w. destruct (H w) as (new & Hlog & Hnew).
  exists new. rewrite (count_write_one_none Hnew). auto.
Qed.

Lemma writes_emit_one epoch b : writes (P:=P) 1 (emit (EvWriteOne epoch b)).
Proof. intros w. exists [EvWriteOne epoch b]. simpl. auto. Qed.

Lemma writes_bind {A B} a b (m : M P A) (k : A -> M P B) :
  writes a m -> (forall x, writes b (k x)) -> writes (a + b) (bind m k).
Proof.
  intros Hm Hk w. unfold bind. destruct (Hm w) as (new & Hlog & Hle & Heq).
  destruct (m w) as [[x|e] w1]; simpl in *.
  - destruct (Hk x w1) as (new2 & Hlog2 & Hle2 & Heq2).
    exists (new ++ new2). rewrite Hlog2, Hlog, app_assoc, count_write_one_app.
    specialize (Heq eq_refl). repeat split; try lia.
    intros Hok. specialize (Heq2 Hok). lia.
  - exists new. repeat split; [exact Hlog | lia | discriminate].
Qed.

Lemma writes_for_each_none {A S} (xs : list A) (body : A -> S -> M P S) :
  (forall x s, In x xs -> writes 0 (body x s)) ->
  forall s, writes 0 (for_each xs body s).
Proof.
  induction xs as [|x xs IH]; intros Hbody s.
  - intros w. exists []. simpl. rewrite app_nil_r. auto.
  - rewrite for_each_cons. apply (@writes_bind _ _ 0 0).
    + apply Hbody. left. reflexivity.
    + intros s'. apply IH. intros x' s'' Hin. apply Hbody. right. exact Hin.
Qed.

End WritesFacts.

Section ValidateWrites.

Variable P : Type.
Variable hp : hparams.
Variable self : trainer P.

Lemma call_model_writes x : writes 0 (call_model self x).
Proof.
  apply writes_none. apply logs_only_of_keeps_mode. intros md.
  apply call_model_keeps_mode. intros b. exact I.
Qed.

Lemma calc_loss_writes y output T_ys : writes 0 (_calc_loss hp self y output T_ys).
Proof.
  apply writes_none. apply logs_only_of_keeps_mode. intros md.
  apply calc_loss_keeps_mode. intros j wj _ _. exact I.
Qed.

Lemma post_one_writes output Ts idx : writes 0 (_post_one (P:=P) output Ts idx).
Proof.
  apply writes_none. apply logs_only_pure. intros w. unfold _post_one, bind, lift.
  destruct (index Ts idx); [|reflexivity].
  destruct (idx <? dimB output)%nat; reflexivity.
Qed.

Lemma pure_writes {A} (a : A) : writes (P:=P) 0 (ret a).
Proof. apply writes_none. apply logs_only_pure. reflexivity. Qed.

(** The first batch exports once, the later ones never. *)
Lemma validate_batch_writes epoch i_iter data avg :
  writes (if (i_iter =? 0)%nat then 1 else 0)
         (validate_batch hp self epoch (i_iter, data) avg).
Proof.
  unfold validate_batch.
  apply (@writes_bind _ _ _ 0 _); [apply call_model_writes|]. intros output.
  apply (@writes_bind _ _ _ 0 _); [apply calc_loss_writes|]. intros loss.
  apply (@writes_bind _ _ _ 0 _).
  { apply writes_none. apply logs_only_emit. exact I. }
  intros _.
  replace (if (i_iter =? 0)%nat then 1%nat else 0%nat)
    with ((if (i_iter =? 0)%nat then 1 else 0) + 0)%nat by lia.
  apply writes_bind; [|intros _; apply pure_writes].
  destruct (i_iter =? 0)%nat; [|apply pure_writes].
  apply (@writes_bind _ _ _ 0 1); [apply post_one_writes|].
  intros _. apply writes_emit_one.
Qed.

Lemma validate_loop_writes epoch (bs : list batch) :
  writes (match bs with [] => 0 | _ :: _ => 1 end)
    (for_each (enumerate bs) (validate_batch hp self epoch)
       (zeros (length (criterions self)))).
Proof.
  destruct bs as [|b bs].
  - apply pure_writes.
  - unfold enumerate. cbn [length seq combine]. rewrite for_each_cons.
    apply (@writes_bind _ _ _ 1 0); [apply (validate_batch_writes epoch 0)|].
    intros avg. apply writes_for_each_none. intros [i_iter data] s Hin.
    apply in_combine_l in Hin. apply in_seq in Hin.
    pose proof (validate_batch_writes epoch i_iter data s) as H.
    destruct i_iter as [|i_iter]; [lia | exact H].
Qed.

Lemma validate_writes ld epoch :
  writes (match batches ld epoch with [] => 0 | _ :: _ => 1 end)
         (validate hp self ld epoch).
Proof.
  unfold validate.
  apply (@writes_bind _ _ _ 0 _).
  { apply writes_none. apply logs_only_pure. reflexivity. }
  intros _.
  replace (match batches ld epoch with [] => 0 | _ :: _ => 1 end)%nat
    with (match batches ld epoch with [] => 0 | _ :: _ => 1 end + 0)%nat by lia.
  apply writes_bind; [apply validate_loop_writes|].
  intros avg. apply (@writes_bind _ _ _ 0 0).
  { apply writes_none. apply logs_only_of_keeps_mode. intros md.
    apply add_scalars_keeps_mode. intros tg v. exact I. }
  intros _. apply (@writes_bind _ _ _ 0 0); [|intros _; apply pure_writes].
  apply writes_none. apply logs_only_pure. reflexivity.
Qed.

End ValidateWrites.

(** X14.  A validation pass exports a sample through [write_one] for its
    first batch only: never for an empty loader, at most once
    otherwise, and exactly once when validation returns. *)
Theorem validate_exports_first_batch_only :
  forall (P : Type) (hp : hparams) (self : trainer P) (ld : loader)
         (epoch : Z) (w : world P),
  exists new,
    w_log (snd (validate hp self ld epoch w)) = w_log w ++ new /\
    (count_write_one new <= 1)%nat /\
    (batches ld epoch = [] -> count_write_one new = 0%nat) /\
    (batches ld epoch <> [] -> is_ok (fst (validate hp self ld epoch w)) = true ->
     count_write_one new = 1%nat).
Proof.
  intros P hp self ld epoch w.
  destruct (@validate_writes P hp self ld epoch w) as (new & Hlog & Hle & Heq).
  exists new. split; [exact Hlog|].
  destruct (batches ld epoch) as [|b bs].
  - repeat split; try lia. congruence.
  - repeat split; try lia; try discriminate. intros _. exact Heq.
Qed.

Lemma validate_exports_first_batch_only_witness :
  let hp := hp_one 5 1 1 in
  let self := identity_trainer [L1Loss] in
  let data := ones_zeros 1 5 [5]%Z in
  let ld := fixed_loader 3 [data; data; data] in
  is_ok (fst (validate hp self ld 0 world0)) = true /\
  count_write_one (w_log (snd (validate hp self ld 0 world0))) = 1%nat.
Proof.
  intros hp self data ld. split; [vm_compute; reflexivity|].
  destruct (@validate_exports_first_batch_only unit hp self ld 0%Z world0)
    as (new & Hlog & _ & _ & Hone).
  rewrite Hlog. simpl. apply Hone.
  - discriminate.
  - vm_compute. reflexivity.
Defined.

(* ===================================================================== *)
(** ** Properties of [test]                                               *)
(* ===================================================================== *)

Lemma Forall2_in_r {A B} (R : A -> B -> Prop) (xs : list A) (ys : list B) (y : B) :
  Forall2 R xs ys -> In y ys -> exists x, In x xs /\ R x y.
Proof.
  induction 1 as [|x y' xs ys Hxy _ IH]; intros Hin; [contradiction|].
  destruct Hin as [->|Hin].
  - exists x. split; [left; reflexivity | exact Hxy].
  - destruct (IH Hin) as (x' & Hx' & HR). exists x'. split; [right; exact Hx' | exact HR].
Qed.

Section TestFacts.

Variables P Ms Row : Type.
Variable tst : tester P Ms Row.

Lemma t_bind_done {A B} (m : T P Ms Row A) (k : A -> T P Ms Row B) s a s' :
  m s = (Done a, s') -> t_bind m k s = k a s'.
Proof. intros H. unfold t_bind. rewrite H. reflexivity. Qed.

Lemma t_bind_failed {A B} (m : T P Ms Row A) (k : A -> T P Ms Row B) s e s' :
  m s = (Failed e, s') -> t_bind m k s = (Failed e, s').
Proof. intros H. unfold t_bind. rewrite H. reflexivity. Qed.

Lemma t_bind_type_error {A B} (m : T P Ms Row A) (k : A -> T P Ms Row B) s s' :
  m s = (FailedTypeError, s') -> t_bind m k s = (FailedTypeError, s').
Proof. intros H. unfold t_bind. rewrite H. reflexivity. Qed.

(** One batch of [test]: the forward pass is logged; when it and
    [_post_one] return, [write_one] is called; then [avg_measure] is
    updated and the measure printed, unless [+=] or [arr2str] meets
    None and raises. *)
Lemma test_batch_cases it avg (w : world P) (sh : list (shown Ms Row)) :
  let w1 := logged w (EvForward (w_mode w) (dimB (b_x (snd it)))) in
  let w2 := logged w1 (EvWriteOne (Z.of_nat (fst it)) true) in
  test_batch tst it avg (w, sh) =
  match measure_of tst (w_params w) (w_mode w) it with
  | Raise e => (Failed e, (w1, sh))
  | Ok m =>
      match avg, m with
      | Some _, None => (FailedTypeError, (w2, sh))
      | Some a, Some m' => (Done (Some (m_add tst a m')), (w2, sh ++ [Printed m]))
      | None, Some _ => (Done m, (w2, sh ++ [Printed m]))
      | None, None =>
          match arr2str_none tst with
          | Done _ => (Done None, (w2, sh ++ [Printed None]))
          | Failed e => (Failed e, (w2, sh))
          | FailedTypeError => (FailedTypeError, (w2, sh))
          end
      end
  end.
Proof.
  destruct it as [i_iter data]. intros w1 w2.
  unfold test_batch, measure_of, t_bind, of_M. cbn [fst snd].
  rewrite call_model_run. fold w1.
  destruct (forward (t_self tst) (w_params w) (w_mode w) (b_x data)) as [output|e];
    [|reflexivity].
  unfold _post_one, bind, lift.
  destruct (index (b_T_ys data) 0) as [T0|e]; [|reflexivity].
  destruct (0 <? dimB output)%nat; [|reflexivity].
  cbn [ret emit fst snd]. fold (logged w1 (EvWriteOne (Z.of_nat i_iter) true)). fold w2.
  destruct avg as [a|],
    (write_measure tst i_iter (take_upto (item output 0) T0) data) as [m|];
    cbn; try reflexivity.
  unfold t_lift. destruct (arr2str_none tst) as [[]|e|]; reflexivity.
Qed.

(** The loop over the batches of [test]. *)
Lemma test_loop_run (xs : list (nat * batch)) :
  forall avg (w : world P) (sh : list (shown Ms Row)),
  exists new shn,
    snd (t_for_each xs (test_batch tst) avg (w, sh)) = (logged_all w new, sh ++ shn) /\
    Forall (forward_in (w_mode w)) new /\
    forall r,
      fst (t_for_each xs (test_batch tst) avg (w, sh)) = Done r ->
      exists ms,
        Forall2 (fun it m => measure_of tst (w_params w) (w_mode w) it = Ok m) xs ms /\
        sums_to tst avg ms r /\
        new = flat_map (batch_events (w_mode w)) xs /\
        shn = map Printed ms.
Proof.
  induction xs as [|it xs IH]; intros avg w sh.
  - exists [], []. simpl. rewrite logged_all_nil, app_nil_r.
    split; [reflexivity|]. split; [constructor|].
    intros r Hr. inversion Hr; subst. exists []. repeat split. constructor.
  - cbn [t_for_each]. pose proof (test_batch_cases it avg w sh) as Hb.
    cbv zeta in Hb.
    set (w1 := logged w (EvForward (w_mode w) (dimB (b_x (snd it))))) in *.
    set (w2 := logged w1 (EvWriteOne (Z.of_nat (fst it)) true)) in *.
    assert (Hw1 : w1 = logged_all w [EvForward (w_mode w) (dimB (b_x (snd it)))])
      by reflexivity.
    assert (Hw2 : w2 = logged_all w (batch_events (w_mode w) it)).
    { unfold w2, w1, batch_events, logged, logged_all. simpl.
      rewrite <- app_assoc. reflexivity. }
    assert (Hfw1 : Forall (forward_in (w_mode w))
                     [EvForward (w_mode w) (dimB (b_x (snd it)))])
      by (constructor; [reflexivity | constructor]).
    assert (Hfw2 : Forall (forward_in (w_mode w)) (batch_events (w_mode w) it)).
    { constructor; [reflexivity|]. constructor; [exact I | constructor]. }
    assert (Hstop1 : forall e,
               test_batch tst it avg (w, sh) = (Failed e, (w1, sh)) ->
               exists new shn,
                 snd (t_bind (test_batch tst it avg) (t_for_each xs (test_batch tst))
                        (w, sh)) = (logged_all w new, sh ++ shn) /\
                 Forall (forward_in (w_mode w)) new /\
                 forall r,
                   fst (t_bind (test_batch tst it avg) (t_for_each xs (test_batch tst))
                          (w, sh)) = Done r ->
                   exists ms,
                     Forall2 (fun it m => measure_of tst (w_params w) (w_mode w) it = Ok m)
                       (it :: xs) ms /\
                     sums_to tst avg ms r /\
                     new = flat_map (batch_events (w_mode w)) (it :: xs) /\
                     shn = map Printed ms).
    { intros e He. erewrite t_bind_failed by exact He.
      exists [EvForward (w_mode w) (dimB (b_x (snd it)))], [].
      rewrite app_nil_r, <- Hw1. split; [reflexivity|]. split; [exact Hfw1|].
      intros r Hr. discriminate. }
    assert (Hstop2 : forall o,
               (forall r, o <> Done r) ->
               test_batch tst it avg (w, sh) = (o, (w2, sh)) ->
               exists new shn,
                 snd (t_bind (test_batch tst it avg) (t_for_each xs (test_batch tst))
                        (w, sh)) = (logged_all w new, sh ++ shn) /\
                 Forall (forward_in (w_mode w)) new /\
                 forall r,
                   fst (t_bind (test_batch tst it avg) (t_for_each xs (test_batch tst))
                          (w, sh)) = Done r ->
                   exists ms,
                     Forall2 (fun it m => measure_of tst (w_params w) (w_mode w) it = Ok m)
                       (it :: xs) ms /\
                     sums_to tst avg ms r /\
                     new = flat_map (batch_events (w_mode w)) (it :: xs) /\
                     shn = map Printed ms).
    { intros o Ho He. exists (batch_events (w_mode w) it), [].
      rewrite app_nil_r, <- Hw2.
      destruct o as [r0|e|]; [exfalso; apply (Ho r0); reflexivity| |].
      - erewrite t_bind_failed by exact He.
        split; [reflexivity|]. split; [exact Hfw2|]. intros r Hr. discriminate.
      - erewrite t_bind_type_error by exact He.
        split; [reflexivity|]. split; [exact Hfw2|]. intros r Hr. discriminate. }
    assert (Hgo : forall m avg',
               measure_of tst (w_params w) (w_mode w) it = Ok m ->
               (forall ms r, sums_to tst avg' ms r -> sums_to tst avg (m :: ms) r) ->
               test_batch tst it avg (w, sh) = (Done avg', (w2, sh ++ [Printed m])) ->
               exists new shn,
                 snd (t_bind (test_batch tst it avg) (t_for_each xs (test_batch tst))
                        (w, sh)) = (logged_all w new, sh ++ shn) /\
                 Forall (forward_in (w_mode w)) new /\
                 forall r,
                   fst (t_bind (test_batch tst it avg) (t_for_each xs (test_batch tst))
                          (w, sh)) = Done r ->
                   exists ms,
                     Forall2 (fun it m => measure_of tst (w_params w) (w_mode w) it = Ok m)
                       (it :: xs) ms /\
                     sums_to tst avg ms r /\
                     new = flat_map (batch_events (w_mode w)) (it :: xs) /\
                     shn = map Printed ms).
    { intros m avg' Hm Hsum He. erewrite t_bind_done by exact He.
      destruct (IH avg' w2 (sh ++ [Printed m])) as (new & shn & Hsnd & Hfw & Hdone).
      exists (batch_events (w_mode w) it ++ new), ([Printed m] ++ shn).
      split; [rewrite Hsnd, Hw2, logged_all_app, app_assoc; reflexivity|].
      split; [apply Forall_app; split; assumption|].
      intros r Hr. destruct (Hdone r Hr) as (ms & HF & Hs & Hnew & Hshn).
      exists (m :: ms). split; [constructor; assumption|].
      split; [apply Hsum; exact Hs|]. split; [|subst shn; reflexivity].
      subst new. reflexivity. }
    destruct (measure_of tst (w_params w) (w_mode w) it) as [m|e] eqn:Hm.
    2: { apply (Hstop1 e). exact Hb. }
    destruct avg as [a|], m as [m'|].
    + apply (Hgo (Some m') (Some (m_add tst a m')) eq_refl); [|exact Hb].
      intros ms r Hs. exact Hs.
    + apply (Hstop2 FailedTypeError); [discriminate | exact Hb].
    + apply (Hgo (Some m') (Some m') eq_refl); [|exact Hb].
      intros ms r Hs. exact Hs.
    + destruct (arr2str_none tst) as [[]|e|].
      * apply (Hgo None None eq_refl); [|exact Hb]. intros ms r Hs. exact Hs.
      * apply (Hstop2 (Failed e)); [discriminate | exact Hb].
      * apply (Hstop2 FailedTypeError); [discriminate | exact Hb].
Qed.

(** How the loop ends does not depend on the log or on what has been
    shown. *)
Lemma test_loop_outcome (xs : list (nat * batch)) :
  forall avg (w w' : world P) (sh sh' : list (shown Ms Row)),
    w_params w = w_params w' -> w_mode w = w_mode w' ->
    fst (t_for_each xs (test_batch tst) avg (w, sh)) =
    fst (t_for_each xs (test_batch tst) avg (w', sh')).
Proof.
  induction xs as [|it xs IH]; intros avg w w' sh sh' Hp Hm; [reflexivity|].
  cbn [t_for_each]. unfold t_bind.
  rewrite (test_batch_cases it avg w sh), (test_batch_cases it avg w' sh').
  cbv zeta. rewrite <- Hp, <- Hm.
  destruct (measure_of tst (w_params w) (w_mode w) it) as [m|e]; [|reflexivity].
  destruct avg as [a|], m as [m'|]; try reflexivity.
  - apply IH; simpl; assumption.
  - apply IH; simpl; assumption.
  - destruct (arr2str_none tst) as [[]|e|]; try reflexivity.
    apply IH; simpl; assumption.
Qed.

(** A loop that starts from an array ends with one, or raises. *)
Lemma sums_to_some (ms : list (option Ms)) :
  forall a r, sums_to tst (Some a) ms r ->
    exists rest, ms = map Some rest /\ r = Some (fold_left (m_add tst) rest a).
Proof.
  induction ms as [|m ms IH]; intros a r H; simpl in H.
  - exists []. auto.
  - destruct m as [m'|]; [|contradiction].
    destruct (IH _ _ H) as (rest & -> & ->). exists (m' :: rest). auto.
Qed.

Lemma sums_to_none (ms : list (option Ms)) :
  forall r, sums_to tst None ms r ->
    (r = None /\ ms = repeat None (length ms)) \/
    exists k m0 rest,
      ms = repeat None k ++ map Some (m0 :: rest) /\
      r = Some (fold_left (m_add tst) rest m0).
Proof.
  induction ms as [|m ms IH]; intros r H; simpl in H.
  - left. auto.
  - destruct m as [m'|].
    + right. destruct (sums_to_some _ _ _ H) as (rest & -> & ->).
      exists 0%nat, m', rest. auto.
    + destruct (IH r H) as [[-> Hrep]|(k & m0 & rest & -> & ->)].
      * left. split; [reflexivity|]. simpl. rewrite <- Hrep. reflexivity.
      * right. exists (S k), m0, rest. auto.
Qed.

End TestFacts.

Section TestCases.

Variables P Ms Row : Type.
Variable tst : tester P Ms Row.

(** Every way a call of [test] can end, given how its loop ends. *)
Lemma test_cases (bs : list batch) (n : Z) (w : world P) (sh : list (shown Ms Row)) :
  let w0 := mkWorld (w_params w) EvalMode (w_log w ++ [EvWriterOpen None]) in
  exists new shn,
    snd (t_for_each (enumerate bs) (test_batch tst) None (w0, sh))
      = (logged_all w0 new, sh ++ shn) /\
    Forall (forward_in EvalMode) new /\
    match fst (t_for_each (enumerate bs) (test_batch tst) None (w0, sh)) with
    | Failed e => test tst bs n (w, sh) = (Failed e, (logged_all w0 new, sh ++ shn))
    | FailedTypeError =>
        test tst bs n (w, sh) = (FailedTypeError, (logged_all w0 new, sh ++ shn))
    | Done r =>
        (exists ms,
            Forall2 (fun it m => measure_of tst (w_params w) EvalMode it = Ok m)
              (enumerate bs) ms /\
            sums_to tst None ms r /\
            new = flat_map (batch_events EvalMode) (enumerate bs) /\
            shn = map Printed ms) /\
        test tst bs n (w, sh) =
        match r with
        | None =>
            (FailedTypeError,
             (mkWorld (w_params w) TrainMode (w_log w0 ++ new), sh ++ shn))
        | Some a =>
            match m_row tst (m_div tst a n) 0 with
            | Raise e =>
                (Failed e, (mkWorld (w_params w) TrainMode (w_log w0 ++ new), sh ++ shn))
            | Ok r0 =>
                match m_row tst (m_div tst a n) 1 with
                | Raise e =>
                    (Failed e, (mkWorld (w_params w) TrainMode (w_log w0 ++ new),
                                (sh ++ shn) ++ [AddText 0 r0]))
                | Ok r1 =>
                    (Done tt, (mkWorld (w_params w) TrainMode
                                 ((w_log w0 ++ new) ++ [EvWriterClose]),
                               (((sh ++ shn) ++ [AddText 0 r0]) ++ [AddText 1 r1])
                                 ++ [PrintedAverage (m_div tst a n)]))
                end
            end
        end
    end.
Proof.
  intros w0.
  destruct (@test_loop_run P Ms Row tst (enumerate bs) None w0 sh)
    as (new & shn & Hsnd & Hfw & Hdone).
  exists new, shn. split; [exact Hsnd|]. split; [exact Hfw|].
  assert (Hstart : forall A (k : unit -> T P Ms Row A),
             t_bind (of_M (emit (EvWriterOpen None)))
               (fun _ => t_bind (of_M (set_mode EvalMode)) k) (w, sh)
             = k tt (w0, sh)) by reflexivity.
  unfold test. rewrite Hstart.
  destruct (t_for_each (enumerate bs) (test_batch tst) None (w0, sh))
    as [o s2] eqn:Hloop.
  cbn [fst snd] in Hsnd, Hdone |- *. subst s2.
  destruct o as [r|e|].
  - split; [apply Hdone; reflexivity|].
    unfold t_bind at 1. rewrite Hloop.
    unfold t_bind at 1. unfold of_M at 1.
    cbn [fst snd set_mode w_params w_log logged_all].
    destruct r as [a|]; [|reflexivity].
    unfold report_average, t_bind, of_M, lift, show, emit. cbn [fst snd].
    destruct (m_row tst (m_div tst a n) 0) as [r0|e0]; [|reflexivity].
    cbn [fst snd w_params w_mode w_log].
    destruct (m_row tst (m_div tst a n) 1) as [r1|e1]; reflexivity.
  - unfold t_bind. rewrite Hloop. reflexivity.
  - unfold t_bind. rewrite Hloop. reflexivity.
Qed.

End TestCases.

(** X15.  With a loader that yields no batch, [test] raises
    [TypeError] ([avg_measure] is still None when it is divided): the
    model has then been switched back to training mode, nothing has
    been written and the writer, which was created, has not been
    closed.  When [write_one] returns a measure for every batch, this
    is the only case in which [test] raises [TypeError]; and when
    [write_one] returns None for every batch, [test] never returns. *)
Theorem test_type_error_without_measure :
  forall (P Ms Row : Type) (tst : tester P Ms Row) (bs : list batch) (n : Z)
         (w : world P) (sh : list (shown Ms Row)),
    (bs = [] ->
     test tst bs n (w, sh) =
     (FailedTypeError,
      (mkWorld (w_params w) TrainMode (w_log w ++ [EvWriterOpen None]), sh))) /\
    ((forall i out data, write_measure tst i out data <> None) ->
     fst (test tst bs n (w, sh)) = FailedTypeError -> bs = []) /\
    ((forall i out data, write_measure tst i out data = None) ->
     fst (test tst bs n (w, sh)) <> Done tt).
Proof.
  intros P Ms Row tst bs n w sh. split; [|split].
  - intros ->. reflexivity.
  - intros Hsome Htype.
    destruct (@test_cases P Ms Row tst bs n w sh) as (new & shn & _ & _ & Hcase).
    cbv zeta in Hcase.
    destruct (fst (t_for_each (enumerate bs) (test_batch tst) None
                     (mkWorld (w_params w) EvalMode (w_log w ++ [EvWriterOpen None]), sh)))
      as [r|e|] eqn:Hloop.
    + destruct Hcase as ((ms & HF & Hs & _ & _) & Htest).
      destruct r as [a|].
      * rewrite Htest in Htype.
        destruct (m_row tst (m_div tst a n) 0); [|discriminate].
        destruct (m_row tst (m_div tst a n) 1); discriminate.
      * destruct (sums_to_none _ _ _ Hs) as [[_ Hrep]|(k & m0 & rest & _ & Hr)];
          [|discriminate].
        destruct bs as [|b bs']; [reflexivity|]. exfalso.
        cbn [enumerate length seq combine] in HF.
        destruct ms as [|m ms']; [inversion HF|].
        simpl in Hrep. injection Hrep as Hm0 _.
        apply Forall2_cons_iff in HF. destruct HF as [Hm _]. subst m.
        unfold measure_of in Hm. cbn [fst snd] in Hm.
        destruct (forward (t_self tst) (w_params w) EvalMode (b_x b));
          [|discriminate].
        destruct (index (b_T_ys b) 0); [|discriminate].
        destruct (0 <? dimB a)%nat; [|discriminate].
        inversion Hm as [Hnone]. apply (Hsome _ _ _ Hnone).
    + rewrite Hcase in Htype. discriminate.
    + exfalso. clear Hcase Htype.
      assert (Hgen : forall xs avg (w1 : world P) sh1,
                 fst (t_for_each xs (test_batch tst) avg (w1, sh1)) <> FailedTypeError).
      { induction xs as [|it xs IH]; intros avg w1 sh1; [discriminate|].
        cbn [t_for_each]. unfold t_bind. rewrite test_batch_cases. cbv zeta.
        unfold measure_of.
        destruct (forward (t_self tst) (w_params w1) (w_mode w1) (b_x (snd it)));
          [|discriminate].
        destruct (index (b_T_ys (snd it)) 0); [|discriminate].
        destruct (0 <? dimB a)%nat; [|discriminate].
        destruct (write_measure tst (fst it) (take_upto (item a 0) a0) (snd it))
          as [m|] eqn:Hw; [|exfalso; apply (Hsome _ _ _ Hw)].
        destruct avg; apply IH. }
      apply (Hgen _ _ _ _ Hloop).
  - intros Hnone Hret.
    destruct (@test_cases P Ms Row tst bs n w sh) as (new & shn & _ & _ & Hcase).
    cbv zeta in Hcase.
    destruct (fst (t_for_each (enumerate bs) (test_batch tst) None
                     (mkWorld (w_params w) EvalMode (w_log w ++ [EvWriterOpen None]), sh)))
      as [r|e|].
    + destruct Hcase as ((ms & HF & Hs & _ & _) & Htest).
      destruct r as [a|]; [|rewrite Htest in Hret; discriminate].
      destruct (sums_to_none _ _ _ Hs) as [[Hr _]|(k & m0 & rest & Hms & _)];
        [discriminate|].
      assert (Hin : In (Some m0) ms).
      { rewrite Hms. apply in_or_app. right. left. reflexivity. }
      destruct (@Forall2_in_r _ _ _ _ _ _ HF Hin) as (it & _ & Hm).
      unfold measure_of in Hm.
      destruct (forward (t_self tst) (w_params w) EvalMode (b_x (snd it)));
        [|discriminate].
      destruct (index (b_T_ys (snd it)) 0); [|discriminate].
      destruct (0 <? dimB a0)%nat; [|discriminate].
      rewrite Hnone in Hm. discriminate.
    + rewrite Hcase in Hret. discriminate.
    + rewrite Hcase in Hret. discriminate.
Qed.

Lemma test_type_error_without_measure_witness :
  (let tst := pair_tester (identity_trainer [L1Loss]) in
   test tst [] 0 (world0, []) =
   (FailedTypeError, (mkWorld tt TrainMode [EvWriterOpen None], [])) /\
   (fst (test tst [ones_zeros 1 5 [5]%Z] 1 (world0, [])) = FailedTypeError ->
    [ones_zeros 1 5 [5]%Z] = [])) /\
  (let tst := silent_tester (identity_trainer [L1Loss]) in
   fst (test tst [ones_zeros 1 5 [5]%Z] 1 (world0, [])) <> Done tt).
Proof.
  split.
  - intros tst. split.
    + apply (proj1 (@test_type_error_without_measure unit (Q * Q) Q tst [] 0%Z world0 [])).
      reflexivity.
    + apply (proj1 (proj2 (@test_type_error_without_measure unit (Q * Q) Q tst
                             [ones_zeros 1 5 [5]%Z] 1%Z world0 []))).
      intros i out data. discriminate.
  - intros tst.
    apply (proj2 (proj2 (@test_type_error_without_measure unit (Q * Q) Q tst
                           [ones_zeros 1 5 [5]%Z] 1%Z world0 []))).
    intros i out data. reflexivity.
Defined.

(** X16.  [test] runs every forward pass in evaluation mode.  It
    switches the model back to training mode once the loop over the
    batches has completed, before it averages: the model is in training
    mode when [test] returns and when the averaging step raises, and in
    evaluation mode when a batch raises. *)
Theorem test_mode_discipline :
  forall (P Ms Row : Type) (tst : tester P Ms Row) (bs : list batch) (n : Z)
         (w : world P) (sh : list (shown Ms Row)),
    (exists new,
        w_log (fst (snd (test tst bs n (w, sh)))) = w_log w ++ new /\
        Forall (forward_in EvalMode) new) /\
    w_mode (fst (snd (test tst bs n (w, sh)))) =
    match fst (t_for_each (enumerate bs) (test_batch tst) None
                 (mkWorld (w_params w) EvalMode (w_log w), sh)) with
    | Done _ => TrainMode
    | _ => EvalMode
    end.
Proof.
  intros P Ms Row tst bs n w sh.
  destruct (@test_cases P Ms Row tst bs n w sh) as (new & shn & _ & Hfw & Hcase).
  cbv zeta in Hcase.
  rewrite (@test_loop_outcome P Ms Row tst (enumerate bs) None
             (mkWorld (w_params w) EvalMode (w_log w))
             (mkWorld (w_params w) EvalMode (w_log w ++ [EvWriterOpen None]))
             sh sh eq_refl eq_refl).
  assert (Hopen : Forall (forward_in EvalMode) (EvWriterOpen None :: new))
    by (constructor; [exact I | exact Hfw]).
  assert (Hlog : forall l, (w_log w ++ [EvWriterOpen None]) ++ l
                           = w_log w ++ EvWriterOpen None :: l).
  { intros l. rewrite <- app_assoc. reflexivity. }
  destruct (fst (t_for_each (enumerate bs) (test_batch tst) None
                   (mkWorld (w_params w) EvalMode (w_log w ++ [EvWriterOpen None]), sh)))
    as [r|e|].
  - destruct Hcase as (_ & Htest). rewrite Htest. destruct r as [a|].
    + destruct (m_row tst (m_div tst a n) 0) as [r0|e0].
      * destruct (m_row tst (m_div tst a n) 1) as [r1|e1]; cbn [fst snd w_log w_mode].
        -- split; [|reflexivity]. exists (EvWriterOpen None :: new ++ [EvWriterClose]).
           rewrite Hlog, <- app_assoc. split; [reflexivity|].
           constructor; [exact I|].
           apply Forall_app. split; [exact Hfw | repeat constructor].
        -- split; [|reflexivity]. exists (EvWriterOpen None :: new).
           rewrite Hlog. auto.
      * cbn [fst snd w_log w_mode]. split; [|reflexivity].
        exists (EvWriterOpen None :: new). rewrite Hlog. auto.
    + cbn [fst snd w_log w_mode]. split; [|reflexivity].
      exists (EvWriterOpen None :: new). rewrite Hlog. auto.
  - rewrite Hcase. cbn [fst snd w_log w_mode logged_all]. split; [|reflexivity].
    exists (EvWriterOpen None :: new). rewrite Hlog. auto.
  - rewrite Hcase. cbn [fst snd w_log w_mode logged_all]. split; [|reflexivity].
    exists (EvWriterOpen None :: new). rewrite Hlog. auto.
Qed.

(** X17.  When [test] returns, every batch has gone through the model
    and [write_one]: the measures returned were None for the [k] first
    batches (with [k >= 0]) and arrays [m0], [rest] for the others, of
    which there is at least one.  [test] has created the writer, then
    for each batch made the forward pass in evaluation mode, called
    [write_one] and printed the measure, then passed rows 0 and 1 of
    the sum of the arrays divided by [n] to [add_text], in this order,
    closed the writer and printed that average; the parameters are as
    they were on entry and the model is in training mode. *)
Theorem test_on_return :
  forall (P Ms Row : Type) (tst : tester P Ms Row) (bs : list batch) (n : Z)
         (w : world P) (sh : list (shown Ms Row)),
    fst (test tst bs n (w, sh)) = Done tt ->
    exists k m0 rest r0 r1,
      Forall2 (fun it m => measure_of tst (w_params w) EvalMode it = Ok m)
        (enumerate bs) (repeat None k ++ map Some (m0 :: rest)) /\
      m_row tst (m_div tst (fold_left (m_add tst) rest m0) n) 0 = Ok r0 /\
      m_row tst (m_div tst (fold_left (m_add tst) rest m0) n) 1 = Ok r1 /\
      snd (test tst bs n (w, sh)) =
      (mkWorld (w_params w) TrainMode
         (w_log w ++ EvWriterOpen None
                  :: flat_map (batch_events EvalMode) (enumerate bs)
                  ++ [EvWriterClose]),
       sh ++ map Printed (repeat None k ++ map Some (m0 :: rest))
          ++ [AddText 0 r0; AddText 1 r1;
              PrintedAverage (m_div tst (fold_left (m_add tst) rest m0) n)]).
Proof.
  intros P Ms Row tst bs n w sh Hret.
  destruct (@test_cases P Ms Row tst bs n w sh) as (new & shn & _ & _ & Hcase).
  cbv zeta in Hcase.
  destruct (fst (t_for_each (enumerate bs) (test_batch tst) None
                   (mkWorld (w_params w) EvalMode (w_log w ++ [EvWriterOpen None]), sh)))
    as [r|e|].
  - destruct Hcase as ((ms & HF & Hs & Hnew & Hshn) & Htest).
    destruct r as [a|]; [|rewrite Htest in Hret; discriminate].
    destruct (sums_to_none _ _ _ Hs) as [[Hr _]|(k & m0 & rest & Hms & Hr)];
      [discriminate|].
    inversion Hr; subst a. clear Hr.
    rewrite Htest in Hret |- *.
    destruct (m_row tst (m_div tst (fold_left (m_add tst) rest m0) n) 0) as [r0|e0]
      eqn:E0; [|discriminate].
    destruct (m_row tst (m_div tst (fold_left (m_add tst) rest m0) n) 1) as [r1|e1]
      eqn:E1; [|discriminate].
    exists k, m0, rest, r0, r1. rewrite <- Hms.
    split; [exact HF|]. split; [exact E0|]. split; [exact E1|].
    cbn [fst snd w_log]. subst new shn. f_equal.
    + f_equal. rewrite <- !app_assoc. reflexivity.
    + rewrite <- !app_assoc. reflexivity.
  - rewrite Hcase in Hret. discriminate.
  - rewrite Hcase in Hret. discriminate.
Qed.

Lemma test_on_return_witness :
  let tst := pair_tester (identity_trainer [L1Loss]) in
  let bs := [ones_zeros 1 5 [5]%Z; ones_zeros 1 5 [3]%Z] in
  exists k m0 rest r0 r1,
    Forall2 (fun it m => measure_of tst tt EvalMode it = Ok m)
      (enumerate bs) (repeat None k ++ map Some (m0 :: rest)) /\
    m_row tst (m_div tst (fold_left (m_add tst) rest m0) 2) 0 = Ok r0 /\
    m_row tst (m_div tst (fold_left (m_add tst) rest m0) 2) 1 = Ok r1 /\
    snd (test tst bs 2 (world0, [])) =
    (mkWorld tt TrainMode
       ([] ++ EvWriterOpen None
           :: flat_map (batch_events EvalMode) (enumerate bs) ++ [EvWriterClose]),
     [] ++ map Printed (repeat None k ++ map Some (m0 :: rest))
        ++ [AddText 0 r0; AddText 1 r1;
            PrintedAverage (m_div tst (fold_left (m_add tst) rest m0) 2)]).
Proof.
  intros tst bs.
  apply (@test_on_return unit (Q * Q) Q tst bs 2%Z world0 []).
  vm_compute. reflexivity.
Defined.

(* ===================================================================== *)
(** ** Properties of [__init_device]                                      *)
(* ===================================================================== *)

Section DeviceFacts.

Variable py_int : String.string -> result Z.
Variable py_str : Z -> String.string.

Lemma to_int_is_int v r : to_int py_int v = Ok r -> exists n, r = VInt n.
Proof.
  destruct v as [n|s]; simpl; [discriminate|].
  destruct (py_int (drop_cuda 0 s)) as [n|e]; [|discriminate].
  intros H. inversion H. exists n. reflexivity.
Qed.

(** The first device id is an integer whenever the ids can be read. *)
Lemma device_ids_first device ids :
  device_ids py_int device = Ok ids -> exists n rest, ids = VInt n :: rest.
Proof.
  assert (Hto : forall s vs l, to_ints py_int (VStr s :: vs) = Ok l ->
                               exists n rest, l = VInt n :: rest).
  { intros s vs l H. simpl in H.
    destruct (py_int (drop_cuda 0 s)) as [n|e]; [|discriminate].
    destruct (to_ints py_int vs) as [ns|e]; [|discriminate].
    inversion H. exists n, ns. reflexivity. }
  destruct device as [[n|s]|[|[n|s] vs]]; simpl; intros H.
  - inversion H. exists n, []. reflexivity.
  - apply (Hto s [] ids). exact H.
  - discriminate.
  - inversion H. exists n, vs. reflexivity.
  - apply (Hto s vs ids). exact H.
Qed.

Lemma init_device_not_cpu k device out :
  device <> One (VStr "cpu"%string) ->
  init_device py_int py_str k device out =
  match device_ids py_int device with
  | Ok (VInt n :: ids) => Ok (place py_str k n (VInt n :: ids) out)
  | Ok (VStr _ :: _) => Raise RuntimeError
  | Ok [] => Raise IndexError
  | Raise e => Raise e
  end.
Proof.
  intros Hne. destruct device as [[n|s]|vs]; try reflexivity.
  unfold init_device. destruct (String.eqb_spec s "cpu"%string) as [->|_].
  - congruence.
  - reflexivity.
Qed.

End DeviceFacts.

(** X18.  Unless the device is ['cpu'], [__init_device] succeeds exactly
    when the device ids can be read: it then takes the first id, an
    integer, as the model's device and as the current device, and it
    raises what reading the ids raises otherwise (an empty sequence
    has no first id: [IndexError]). *)
Theorem init_device_follows_device_ids :
  forall (py_int : String.string -> result Z) (py_str : Z -> String.string)
         (k : nat) (device : device_arg) (out : out_arg),
    device <> One (VStr "cpu"%string) ->
    match device_ids py_int device with
    | Ok ids =>
        exists n rest r,
          ids = VInt n :: rest /\
          init_device py_int py_str k device out = Ok r /\
          in_device r = Cuda n /\
          hd_error (placements r) = Some (ModelCuda (Cuda n)) /\
          In (SetDevice (Cuda n)) (placements r)
    | Raise e => init_device py_int py_str k device out = Raise e
    end.
Proof.
  intros py_int py_str k device out Hne.
  rewrite (@init_device_not_cpu py_int py_str k device out Hne).
  destruct (device_ids py_int device) as [ids|e] eqn:Hids; [|reflexivity].
  destruct (device_ids_first _ _ Hids) as (n & rest & ->).
  exists n, rest. eexists. split; [reflexivity|]. split; [reflexivity|].
  split; [reflexivity|]. split; [reflexivity|].
  simpl. right. apply in_or_app. right. left. reflexivity.
Qed.

Lemma init_device_follows_device_ids_witness :
  init_device int_of_digits str_of_small 1 (Many []) (OutInt 0) = Raise IndexError /\
  init_device int_of_digits str_of_small 1
    (Many [VStr "cuda:0"%string; VInt 1]) (OutInt 0) = Raise AttributeError /\
  init_device int_of_digits str_of_small 1 (One (VStr "gpu"%string)) (OutInt 0)
    = Raise ValueError /\
  exists r,
    init_device int_of_digits str_of_small 1
      (Many [VStr "cuda:2"%string; VStr "3"%string]) (OutInt 3) = Ok r /\
    in_device r = Cuda 2.
Proof.
  pose proof (@init_device_follows_device_ids int_of_digits str_of_small 1
                (Many []) (OutInt 0)) as H1.
  pose proof (@init_device_follows_device_ids int_of_digits str_of_small 1
                (Many [VStr "cuda:0"%string; VInt 1]) (OutInt 0)) as H2.
  pose proof (@init_device_follows_device_ids int_of_digits str_of_small 1
                (One (VStr "gpu"%string)) (OutInt 0)) as H3.
  pose proof (@init_device_follows_device_ids int_of_digits str_of_small 1
                (Many [VStr "cuda:2"%string; VStr "3"%string]) (OutInt 3)) as H4.
  split; [exact (H1 ltac:(discriminate))|].
  split; [exact (H2 ltac:(discriminate))|].
  split; [exact (H3 ltac:(discriminate))|].
  - destruct (H4 ltac:(discriminate)) as (n & rest & r & Hids & Hr & Hin & _).
    exists r. split; [exact Hr|]. rewrite Hin. inversion Hids. reflexivity.
Defined.

(** X19.  With ['cpu'] or a single device id, [hp.out_device] is
    ignored: the result is the same for every [out_device], the
    criterions go to the device of the model and the model is not
    wrapped in [nn.DataParallel]. *)
Theorem single_device_ignores_out_device :
  forall (py_int : String.string -> result Z) (py_str : Z -> String.string)
         (k : nat) (device : device_arg),
    (device = One (VStr "cpu"%string) \/
     exists v, device_ids py_int device = Ok [v]) ->
    forall out r,
      init_device py_int py_str k device out = Ok r ->
      (forall out', init_device py_int py_str k device out' = Ok r) /\
      out_device r = in_device r /\
      data_parallel r = None /\
      forall i d, In (CriterionCuda i d) (placements r) -> d = in_device r.
Proof.
  intros py_int py_str k device [->|[v Hids]] out r Hr.
  - simpl in Hr. inversion Hr; subst. repeat split. intros i d [].
  - assert (Hne : device <> One (VStr "cpu"%string) \/ device = One (VStr "cpu"%string)).
    { destruct device as [[n|s]|vs]; try (left; discriminate).
      destruct (String.eqb_spec s "cpu"%string) as [->|Hs];
        [right; reflexivity | left; congruence]. }
    destruct Hne as [Hne| ->].
    + rewrite (@init_device_not_cpu py_int py_str k device out Hne) in Hr.
      rewrite Hids in Hr. destruct v as [n|s]; [|discriminate].
      inversion Hr; subst r. clear Hr. repeat split.
      * intros out'. rewrite (@init_device_not_cpu py_int py_str k device out' Hne).
        rewrite Hids. reflexivity.
      * intros i d Hin. simpl in Hin. destruct Hin as [Hin|Hin]; [discriminate|].
        apply in_app_or in Hin. destruct Hin as [Hin|[Hin|[]]]; [|discriminate].
        apply in_map_iff in Hin. destruct Hin as (j & Hj & _).
        inversion Hj. reflexivity.
    + simpl in Hr. inversion Hr; subst. repeat split. intros i d [].
Qed.

Lemma single_device_ignores_out_device_witness :
  exists r,
    init_device int_of_digits str_of_small 2 (One (VStr "cuda:1"%string)) (OutInt 0)
      = Ok r /\
    (forall out', init_device int_of_digits str_of_small 2
                    (One (VStr "cuda:1"%string)) out' = Ok r) /\
    out_device r = Cuda 1 /\ in_device r = Cuda 1 /\
    data_parallel r = None.
Proof.
  eexists. split; [reflexivity|].
  destruct (@single_device_ignores_out_device int_of_digits str_of_small 2
              (One (VStr "cuda:1"%string))
              (or_intror (ex_intro _ (VInt 1) eq_refl)) (OutInt 0) _ eq_refl)
    as (Hsame & Hout & Hdp & _).
  repeat split; auto.
Defined.

(** X20.  Whenever [__init_device] succeeds, the first four characters
    of [str_device], which [__init__] passes on as the device of the
    model summary, are ['cpu'] or ['cuda']. *)
Theorem str_device_prefix :
  forall (py_int : String.string -> result Z) (py_str : Z -> String.string)
         (k : nat) (device : device_arg) (out : out_arg) (r : devices),
    init_device py_int py_str k device out = Ok r ->
    String.substring 0 4 (str_device r) = "cpu"%string \/
    String.substring 0 4 (str_device r) = "cuda"%string.
Proof.
  intros py_int py_str k device out r Hr.
  assert (Hplace : forall n ids,
             String.substring 0 4 (str_device (place py_str k n (VInt n :: ids) out))
             = "cuda"%string).
  { intros n ids. unfold place. cbn [str_device length].
    destruct ids as [|v ids]; reflexivity. }
  assert (Hgen : match device_ids py_int device with
                 | Ok (VInt n :: ids) => Ok (place py_str k n (VInt n :: ids) out)
                 | Ok (VStr _ :: _) => Raise RuntimeError
                 | Ok [] => Raise IndexError
                 | Raise e => Raise e
                 end = Ok r ->
                 String.substring 0 4 (str_device r) = "cuda"%string).
  { destruct (device_ids py_int device) as [[|[n|s] ids]|e]; try discriminate.
    intros H. inversion H. apply Hplace. }
  destruct device as [[n|s]|vs]; try (right; apply Hgen; exact Hr).
  unfold init_device in Hr. destruct (String.eqb s "cpu"%string).
  - inversion Hr. left. reflexivity.
  - right. apply Hgen. exact Hr.
Qed.

Lemma str_device_prefix_witness :
  exists r,
    init_device int_of_digits str_of_small 1
      (Many [VInt 0; VInt 1]) (OutInt 1) = Ok r /\
    str_device r = "cuda:0, cuda:1"%string /\
    (String.substring 0 4 (str_device r) = "cpu"%string \/
     String.substring 0 4 (str_device r) = "cuda"%string).
Proof.
  eexists. split; [reflexivity|]. split; [reflexivity|].
  apply (@str_device_prefix int_of_digits str_of_small 1
           (Many [VInt 0; VInt 1]) (OutInt 1)).
  reflexivity.
Defined.

(* ===================================================================== *)
(** ** The epochs, the checkpoints and the writer of [train]              *)
(* ===================================================================== *)

Section TrainLogs.

Variable P : Type.
Variable hp : hparams.
Variable self : trainer P.
Variable ok : event -> Prop.

Hypothesis ok_zero_grad : ok EvZeroGrad.
Hypothesis ok_forward : forall md b, ok (EvForward md b).
Hypothesis ok_criterion : forall j, ok (EvCriterion j).
Hypothesis ok_backward : ok EvBackward.
Hypothesis ok_opt_step : ok EvOptStep.
Hypothesis ok_sched_step : forall pos, ok (EvSchedStep pos).
Hypothesis ok_postfix : forall v, ok (EvPostfix v).
Hypothesis ok_write_one : forall e b, ok (EvWriteOne e b).
Hypothesis ok_add_scalar : forall tg v e, ok (EvAddScalar tg v e).

Lemma train_batch_logs md epoch n it acc :
  keeps_mode md ok (train_batch hp self epoch n it acc).
Proof.
  destruct it as [i_iter data]. unfold train_batch.
  apply keeps_mode_bind.
  { unfold window_loop. apply keeps_mode_bind; [apply keeps_mode_lift|].
    intros ts. apply keeps_mode_for_break. intros t st _. unfold window.
    apply keeps_mode_bind; [apply keeps_mode_emit; exact ok_zero_grad|].
    intros _. apply keeps_mode_bind; [apply keeps_mode_lift|].
    intros i'. cbv zeta.
    destruct (dimT (narrow (b_y data) i' t (t + l_target hp)) <? 5)%nat;
      [apply keeps_mode_ret|].
    apply keeps_mode_bind.
    { apply call_model_keeps_mode. intros b. apply ok_forward. }
    intros out. apply keeps_mode_bind.
    { apply calc_loss_keeps_mode. intros j wj _ _. apply ok_criterion. }
    intros loss. apply keeps_mode_bind; [|intros _; apply keeps_mode_ret].
    apply backward_and_step_keeps_mode; assumption. }
  intros st. apply keeps_mode_bind; [apply keeps_mode_lift|].
  intros pos. apply keeps_mode_bind.
  { unfold scheduler_step.
    apply keeps_mode_bind; [apply keeps_mode_emit; apply ok_sched_step|].
    intros _. apply keeps_mode_update. }
  intros _. apply keeps_mode_bind; [|intros _; apply keeps_mode_ret].
  unfold report_last. destruct (loss_t st);
    [apply keeps_mode_emit; apply ok_postfix | apply keeps_mode_raise].
Qed.

Lemma epoch_batches_logs lt epoch acc :
  logs_only ok (for_each (enumerate (batches lt epoch))
                  (train_batch hp self epoch (dataset_len lt)) acc).
Proof.
  apply logs_only_for_each. intros it s.
  apply logs_only_of_keeps_mode. intros md. apply train_batch_logs.
Qed.

Lemma epoch_scalars_logs total each avg epoch :
  logs_only ok (add_scalars self total each avg epoch).
Proof.
  apply logs_only_of_keeps_mode. intros md.
  apply add_scalars_keeps_mode. intros tg v. apply ok_add_scalar.
Qed.

Lemma epoch_validate_logs lv epoch : logs_only ok (validate hp self lv epoch).
Proof. apply validate_logs_only; auto. Qed.

Lemma train_epoch_logs lt lv epoch acc :
  (forall e, ok (EvSave e)) ->
  logs_only ok (train_epoch hp self lt lv epoch acc).
Proof.
  intros ok_save. unfold train_epoch. apply logs_only_bind.
  { apply epoch_batches_logs. }
  intros acc1. apply logs_only_bind; [apply epoch_scalars_logs|].
  intros _. apply logs_only_bind; [apply epoch_validate_logs|].
  intros r. apply logs_only_bind; [apply logs_only_pure; reflexivity|].
  intros due. apply logs_only_bind; [|intros _; apply logs_only_pure; reflexivity].
  destruct due; [apply logs_only_emit; apply ok_save | apply logs_only_pure; reflexivity].
Qed.

End TrainLogs.

Lemma saves_app (l1 l2 : list event) : saves (l1 ++ l2) = saves l1 ++ saves l2.
Proof.
  induction l1 as [|e l1 IH]; simpl; [reflexivity|].
  destruct e; simpl; rewrite IH; reflexivity.
Qed.

Lemma saves_none (l : list event) : Forall not_save l -> saves l = [].
Proof.
  induction 1 as [|e l He _ IH]; simpl; [reflexivity|].
  destruct e; try exact IH. exfalso. apply (He epoch). reflexivity.
Qed.

(** The test of line 222. *)
Lemma save_due_spec (hp : hparams) (epoch : Z) :
  match save_due hp epoch with
  | Ok due =>
      period_save_state hp <> 0%Z /\
      (due = true <->
       (0 < period_save_state hp)%Z /\
       exists k, (epoch = k * period_save_state hp + (period_save_state hp - 1))%Z)
  | Raise e => period_save_state hp = 0%Z /\ e = ZeroDivisionError
  end.
Proof.
  unfold save_due. set (p := period_save_state hp).
  destruct (p =? 0)%Z eqn:E.
  - apply Z.eqb_eq in E. auto.
  - apply Z.eqb_neq in E. split; [exact E|]. rewrite Z.eqb_eq. split.
    + intros Hm. assert (Hp : (0 < p)%Z).
      { destruct (Z.lt_ge_cases 0 p) as [H|H]; [exact H|].
        pose proof (Z.mod_neg_bound epoch p ltac:(lia)). lia. }
      split; [exact Hp|]. exists (epoch / p)%Z.
      pose proof (Z.div_mod epoch p ltac:(lia)). lia.
    + intros [Hp [k ->]]. rewrite Z.add_comm, Z.mod_add by lia.
      apply Z.mod_small. lia.
Qed.

(** X11.  When [train] returns, it has built the scheduler on the
    optimizer for [last_epoch = first_epoch - 1], which succeeded, and
    created the writer before the first epoch, and closing the writer
    is the last thing it did; if at least one epoch was run
    ([first_epoch < hp.n_epochs]) the model is in training mode,
    whatever its mode on entry, and if none was
    ([first_epoch >= hp.n_epochs]) nothing else happened: the
    parameters are those the construction of the scheduler left. *)
Theorem train_on_return :
  forall (P : Type) (hp : hparams) (self : trainer P) (lt lv : loader)
         (first_epoch : Z) (w : world P),
    fst (train hp self lt lv first_epoch w) = Ok tt ->
    exists p0 log,
      sched_init self (first_epoch - 1) (w_params w) (w_mode w) = Ok p0 /\
      w_log (snd (train hp self lt lv first_epoch w)) =
        w_log w ++ [EvSchedInit (first_epoch - 1); EvWriterOpen (Some first_epoch)]
                ++ log ++ [EvWriterClose] /\
      ((first_epoch < n_epochs hp)%Z ->
         w_mode (snd (train hp self lt lv first_epoch w)) = TrainMode) /\
      ((n_epochs hp <= first_epoch)%Z ->
         snd (train hp self lt lv first_epoch w) =
         mkWorld p0 (w_mode w)
           (w_log w ++ [EvSchedInit (first_epoch - 1);
                        EvWriterOpen (Some first_epoch); EvWriterClose])).
Proof.
  intros P hp self lt lv first_epoch w Hok.
  destruct (train hp self lt lv first_epoch w) as [r w'] eqn:Hrun.
  simpl in Hok. subst r. simpl. unfold train in Hrun.
  apply bind_inv_ok in Hrun. destruct Hrun as ([] & w1 & Hinit & Hrun).
  unfold scheduler_init in Hinit.
  apply bind_inv_ok in Hinit. destruct Hinit as ([] & w0 & Hev & Hinit).
  inversion Hev; subst w0. clear Hev.
  apply bind_inv_ok in Hinit. destruct Hinit as (p0 & w0 & Hp0 & Hupd).
  unfold with_params in Hp0. simpl in Hp0. inversion Hp0 as [[Hsched Hw0]].
  subst w0. clear Hp0. inversion Hupd; subst w1. clear Hupd.
  apply bind_inv_ok in Hrun. destruct Hrun as ([] & w2 & Hopen & Hrun).
  inversion Hopen; subst w2. clear Hopen. simpl in Hrun.
  apply bind_inv_ok in Hrun. destruct Hrun as (acc & w3 & Hloop & Hclose).
  inversion Hclose; subst w'. clear Hclose. simpl.
  exists p0.
  destruct (@logs_only_for_each P (fun _ => True) _ _ (epochs hp first_epoch)
              (train_epoch hp self lt lv)
              (fun epoch s => @train_epoch_logs P hp self (fun _ => True)
                                I (fun _ _ => I) (fun _ => I) I I (fun _ => I)
                                (fun _ => I) (fun _ _ => I) (fun _ _ _ => I)
                                lt lv epoch s (fun _ => I))
              (zeros (length (criterions self)))
              (mkWorld p0 (w_mode w)
                 ((w_log w ++ [EvSchedInit (first_epoch - 1)])
                    ++ [EvWriterOpen (Some first_epoch)])))
    as (log & Hlog & _).
  rewrite Hloop in Hlog. simpl in Hlog.
  exists log. split; [exact Hsched|]. split; [|split].
  - rewrite Hlog. rewrite <- !app_assoc. reflexivity.
  - intros Hlt.
    refine (@for_each_last_world P _ _ (fun w => w_mode w = TrainMode) _ _ _ _
              _ _ acc w3 Hloop).
    + unfold epochs.
      destruct (Z.to_nat (n_epochs hp - first_epoch)) eqn:E; [lia | discriminate].
    + intros epoch s w0 s' w0'. apply train_epoch_ok_mode.
  - intros Hge. unfold epochs in Hloop.
    replace (Z.to_nat (n_epochs hp - first_epoch)) with 0%nat in Hloop by lia.
    simpl in Hloop. inversion Hloop; subst. simpl.
    rewrite <- !app_assoc. reflexivity.
Qed.

Lemma train_on_return_witness :
  let hp := hp_one 5 1 2 in
  let self := identity_trainer [L1Loss] in
  let ld := fixed_loader 1 [ones_zeros 1 5 [5]%Z] in
  let w := mkWorld tt EvalMode [] in
  exists log,
    w_log (snd (train hp self ld ld 0 w)) =
      [EvSchedInit (-1); EvWriterOpen (Some 0%Z)] ++ log ++ [EvWriterClose] /\
    w_mode (snd (train hp self ld ld 0 w)) = TrainMode.
Proof.
  intros hp self ld w.
  destruct (@train_on_return unit hp self ld ld 0%Z w)
    as (p0 & log & _ & Hlog & Hmode & _).
  - vm_compute. reflexivity.
  - exists log. split; [exact Hlog|]. apply Hmode. reflexivity.
Defined.

(** X12.  Checkpoints.  An epoch of [train] saves the state at most
    once, as its last action and under its own number; it does so
    exactly when the epoch completes (training batches, scalars and
    validation have returned), [hp.period_save_state] is positive and
    the epoch has the form [k * period + period - 1].  With a negative
    period the state is never saved, and with a zero period the epoch
    never completes (the test of line 222 raises
    [ZeroDivisionError]). *)
Theorem checkpoint_schedule :
  forall (P : Type) (hp : hparams) (self : trainer P) (lt lv : loader)
         (epoch : Z) (acc : list Q) (w : world P),
  exists new,
    w_log (snd (train_epoch hp self lt lv epoch acc w)) = w_log w ++ new /\
    (saves new = [] \/
     saves new = [epoch] /\ exists new', new = new' ++ [EvSave epoch]) /\
    (saves new = [epoch] <->
     is_ok (fst (train_epoch hp self lt lv epoch acc w)) = true /\
     (0 < period_save_state hp)%Z /\
     exists k, (epoch = k * period_save_state hp + (period_save_state hp - 1))%Z) /\
    (period_save_state hp = 0%Z ->
     is_ok (fst (train_epoch hp self lt lv epoch acc w)) = false).
Proof.
  intros P hp self lt lv epoch acc w.
  assert (Hns : forall e : event,
             match e with EvSave _ => False | _ => True end -> not_save e).
  { intros e He k ->. exact He. }
  unfold train_epoch, bind.
  destruct (@epoch_batches_logs P hp self not_save
              (Hns EvZeroGrad I) (fun md b => Hns (EvForward md b) I)
              (fun j => Hns (EvCriterion j) I) (Hns EvBackward I) (Hns EvOptStep I)
              (fun pos => Hns (EvSchedStep pos) I) (fun v => Hns (EvPostfix v) I)
              lt epoch acc w)
    as (n1 & Hl1 & Hn1).
  destruct (for_each (enumerate (batches lt epoch))
              (train_batch hp self epoch (dataset_len lt)) acc w)
    as [[acc1|e] w1]; simpl in Hl1.
  2: { exists n1. simpl. rewrite (saves_none Hn1).
       split; [exact Hl1|]. split; [left; reflexivity|].
       split; [|intros _; reflexivity].
       split; [discriminate | intros [H _]; discriminate]. }
  destruct (@epoch_scalars_logs P self not_save
              (fun tg v e => Hns (EvAddScalar tg v e) I)
              LossTrain LossTrainOf (vdiv acc1 (dataset_len lt)) epoch w1)
    as (n2 & Hl2 & Hn2).
  destruct (add_scalars self LossTrain LossTrainOf (vdiv acc1 (dataset_len lt)) epoch w1)
    as [[[]|e] w2]; simpl in Hl2.
  2: { exists (n1 ++ n2). simpl. rewrite saves_app, (saves_none Hn1), (saves_none Hn2).
       split; [rewrite Hl2, Hl1, app_assoc; reflexivity|].
       split; [left; reflexivity|].
       split; [|intros _; reflexivity].
       split; [discriminate | intros [H _]; discriminate]. }
  destruct (@epoch_validate_logs P hp self not_save
              (fun md b => Hns (EvForward md b) I) (fun j => Hns (EvCriterion j) I)
              (fun v => Hns (EvPostfix v) I) (fun e b => Hns (EvWriteOne e b) I)
              (fun tg v e => Hns (EvAddScalar tg v e) I) lv epoch w2)
    as (n3 & Hl3 & Hn3).
  destruct (validate hp self lv epoch w2) as [[r|e] w3]; simpl in Hl3.
  2: { exists (n1 ++ n2 ++ n3). simpl.
       rewrite !saves_app, (saves_none Hn1), (saves_none Hn2), (saves_none Hn3).
       split; [rewrite Hl3, Hl2, Hl1, <- !app_assoc; reflexivity|].
       split; [left; reflexivity|].
       split; [|intros _; reflexivity].
       split; [discriminate | intros [H _]; discriminate]. }
  assert (Hpre : w_log w3 = w_log w ++ (n1 ++ n2 ++ n3)).
  { rewrite Hl3, Hl2, Hl1, <- !app_assoc. reflexivity. }
  assert (Hspre : saves (n1 ++ n2 ++ n3) = []).
  { rewrite !saves_app, (saves_none Hn1), (saves_none Hn2), (saves_none Hn3).
    reflexivity. }
  pose proof (save_due_spec hp epoch) as Hdue.
  unfold lift.
  destruct (save_due hp epoch) as [due|e].
  2: { destruct Hdue as [Hp _]. exists (n1 ++ n2 ++ n3). simpl. rewrite Hspre.
       split; [exact Hpre|]. split; [left; reflexivity|].
       split; [|intros _; reflexivity].
       split; [discriminate | intros [H _]; discriminate]. }
  destruct Hdue as [Hp Hiff]. destruct due.
  - exists ((n1 ++ n2 ++ n3) ++ [EvSave epoch]). simpl.
    rewrite saves_app, Hspre. simpl.
    split; [rewrite Hpre, <- !app_assoc; reflexivity|].
    split; [right; split; [reflexivity | eexists; reflexivity]|].
    split; [|intros H0; contradiction].
    split; [intros _; split; [reflexivity | apply Hiff; reflexivity] | reflexivity].
  - exists (n1 ++ n2 ++ n3). simpl. rewrite Hspre.
    split; [exact Hpre|]. split; [left; reflexivity|].
    split; [|intros H0; contradiction].
    split; [discriminate|]. intros [_ H]. apply Hiff in H. discriminate.
Qed.

Lemma checkpoint_schedule_witness :
  let hp := mkHparams 5 5 1 10 3 [1%Q] in
  let self := identity_trainer [L1Loss] in
  let ld := fixed_loader 1 [ones_zeros 1 5 [5]%Z] in
  exists new,
    w_log (snd (train_epoch hp self ld ld 5 [0%Q] world0)) = w_log world0 ++ new /\
    saves new = [5%Z].
Proof.
  intros hp self ld.
  destruct (@checkpoint_schedule unit hp self ld ld 5%Z [0%Q] world0)
    as (new & Hlog & _ & Hiff & _).
  exists new. split; [exact Hlog|]. apply Hiff.
  split; [vm_compute; reflexivity|]. split; [simpl; lia|].
  exists 1%Z. reflexivity.
Defined.

(** X21.  [train] closes the writer exactly when it returns, as its last
    action: after a run that raised, in a training batch, in validation
    or at the checkpoint test, the writer has not been closed. *)
Theorem train_closes_writer_only_on_return :
  forall (P : Type) (hp : hparams) (self : trainer P) (lt lv : loader)
         (first_epoch : Z) (w : world P),
  exists new,
    Forall not_close new /\
    w_log (snd (train hp self lt lv first_epoch w)) =
    w_log w ++ new ++
      (if is_ok (fst (train hp self lt lv first_epoch w)) then [EvWriterClose] else []).
Proof.
  intros P hp self lt lv first_epoch w.
  assert (Hnc : forall e : event,
             match e with EvWriterClose => False | _ => True end -> not_close e).
  { intros e He ->. exact He. }
  assert (Hpre : logs_only not_close
            (bind (scheduler_init self (first_epoch - 1)) (fun _ =>
             bind (emit (EvWriterOpen (Some first_epoch))) (fun _ =>
               for_each (epochs hp first_epoch) (train_epoch hp self lt lv)
                 (zeros (length (criterions self))))))).
  { apply logs_only_bind.
    { unfold scheduler_init. apply logs_only_bind; [apply logs_only_emit; apply Hnc; exact I|].
      intros _. apply logs_only_bind; [apply logs_only_pure; reflexivity|].
      intros p. apply logs_only_pure. reflexivity. }
    intros _. apply logs_only_bind; [apply logs_only_emit; apply Hnc; exact I|].
    intros _. apply logs_only_for_each. intros epoch s.
    apply train_epoch_logs; intros; apply Hnc; exact I. }
  destruct (Hpre w) as (new & Hlog & Hnew).
  exists new. split; [exact Hnew|].
  unfold train. unfold bind in *.
  destruct (scheduler_init self (first_epoch - 1) w) as [[[]|e] w1];
    [|simpl in *; rewrite Hlog, app_nil_r; reflexivity].
  destruct (emit (EvWriterOpen (Some first_epoch)) w1) as [[[]|e] w2];
    [|simpl in *; rewrite Hlog, app_nil_r; reflexivity].
  destruct (for_each (epochs hp first_epoch) (train_epoch hp self lt lv)
              (zeros (length (criterions self))) w2) as [[acc|e] w3];
    simpl in *; rewrite Hlog.
  - rewrite <- app_assoc. reflexivity.
  - rewrite app_nil_r. reflexivity.
Qed.
